(** * Plant diagnosis engine: a shallow embedding of [src/diagnosis-engine.js]

    The development follows the class [PlantDiagnosisEngine] method by
    method.  Conventions of the embedding:

    - A JavaScript string is a sequence of UTF-16 code units; the model keeps
      the code units below 256 (the Latin-1 range), as the characters of a
      Rocq [string].  On that range [toLowerCase], [trim] and the regular
      expression class [\s] act unit by unit and are written out below.
    - A JavaScript number is a rational of [Q].  The methods are embedded
      twice.  The first embedding reads every decimal literal as its decimal
      value and [+], [*], [/] as the exact operations; the statements on
      order, bounds and structure are made on it.  The second, in
      [Binary64], rounds every literal and every result of an operation to
      the nearest binary64 value, as the program does; the statements that
      equate a computed number with a formula are made on that one.  No
      division of the engine has a zero divisor (each divisor is
      [Math.max(_, 1)], [Math.max(_, 3)] or [2]).
    - An exception ([TypeError] on a property of [undefined]) is the result
      [None] of an [option].
    - [new Date().toISOString()] is a reading [now] of the clock, passed in.
      In [Stateful] the methods run on the state of the object and of the
      clock instead, and what a call leaves of that state is part of its
      result.
    - The knowledge base [data/plants.json], the configuration file and the
      index built by Fuse.js are the fields of [PlantDiagnosisEngine]. *)

From Stdlib Require Import QArith Qminmax Qround Qpower Lqa ZArith Lia Bool.
From Stdlib Require Import String Ascii List Sorting.Sorted.
From stdpp Require Import gmap strings sorting.
Import ListNotations.

Local Open Scope string_scope.
Local Open Scope Q_scope.

(** ** JavaScript built-ins used by the engine *)

Module JS.

(** [WhiteSpace] and [LineTerminator] code units below 256: TAB, LF, VT,
    FF, CR, SP and NBSP.  Both [String.prototype.trim] and [\s] use this
    set. *)
Definition isWhiteSpace (c : ascii) : bool :=
  let n := N_of_ascii c in
  ((9 <=? n) && (n <=? 13) || (n =? 32) || (n =? 160))%N.

(** [s.toLowerCase()]: A-Z and the capital letters U+00C0..U+00DE (the
    multiplication sign U+00D7 apart) move up by 32. *)
Definition toLowerChar (c : ascii) : ascii :=
  let n := N_of_ascii c in
  if ((65 <=? n) && (n <=? 90) || (192 <=? n) && (n <=? 222) && negb (n =? 215))%N
  then ascii_of_N (n + 32) else c.

Fixpoint toLowerCase (s : string) : string :=
  match s with
  | EmptyString => EmptyString
  | String c s' => String (toLowerChar c) (toLowerCase s')
  end.

Fixpoint trimStart (s : string) : string :=
  match s with
  | EmptyString => EmptyString
  | String c s' => if isWhiteSpace c then trimStart s' else s
  end.

Fixpoint trimEnd (s : string) : string :=
  match s with
  | EmptyString => EmptyString
  | String c s' =>
      match trimEnd s' with
      | EmptyString => if isWhiteSpace c then EmptyString else String c EmptyString
      | t => String c t
      end
  end.

(** [s.trim()] *)
Definition trim (s : string) : string := trimEnd (trimStart s).

(** [s.includes(sub)]: [sub] occurs in [s] as a contiguous run. *)
Fixpoint includes (s sub : string) : bool :=
  String.prefix sub s ||
  match s with
  | EmptyString => false
  | String _ s' => includes s' sub
  end.

Definition startsWithWhiteSpace (s : string) : bool :=
  match s with
  | String c _ => isWhiteSpace c
  | EmptyString => false
  end.

(** Puts a character in front of the first piece of a split. *)
Definition consFirst (c : ascii) (pieces : list string) : list string :=
  match pieces with
  | w :: ws => String c w :: ws
  | [] => [String c EmptyString]
  end.

(** [s.split(/\s+/)]: the pieces between maximal runs of white space; a
    run at either end leaves an empty piece there, and the empty string
    splits into one empty piece. *)
Fixpoint splitWhiteSpace (s : string) : list string :=
  match s with
  | EmptyString => [EmptyString]
  | String c s' =>
      if isWhiteSpace c then
        if startsWithWhiteSpace s' then splitWhiteSpace s'
        else EmptyString :: splitWhiteSpace s'
      else consFirst c (splitWhiteSpace s')
  end.

(** [s.split(' ')]: a cut at every single space, so two spaces in a row
    leave an empty piece between them. *)
Fixpoint splitSpace (s : string) : list string :=
  match s with
  | EmptyString => [EmptyString]
  | String c s' =>
      if Ascii.eqb c " " then EmptyString :: splitSpace s'
      else consFirst c (splitSpace s')
  end.

(** [arr.join(sep)] *)
Definition join (sep : string) (arr : list string) : string :=
  String.concat sep arr.

(** [arr.includes(x)] on an array of strings. *)
Definition arrayIncludes (arr : list string) (x : string) : bool :=
  existsb (String.eqb x) arr.

(** [arr.slice(0, e)] for an integer [e]: a negative [e] counts from the
    end of the array. *)
Definition slice0 {A} (arr : list A) (e : Z) : list A :=
  if (e <? 0)%Z then firstn (Z.to_nat (Z.of_nat (length arr) + e)) arr
  else firstn (Z.to_nat e) arr.

(** [s.substring(0, e)] *)
Definition substring0 (s : string) (e : Z) : string :=
  String.substring 0 (Z.to_nat e) s.

(** [a > b] and [a >= b] and [a < b] on numbers. *)
Definition gt (a b : Q) : bool := negb (Qle_bool a b).
Definition ge (a b : Q) : bool := Qle_bool b a.
Definition lt (a b : Q) : bool := negb (Qle_bool b a).

(** A length or a count as a number. *)
Definition num (n : nat) : Q := inject_Z (Z.of_nat n).

(** [Math.min] and [Math.max] on two numbers. *)
Definition Math_min (a b : Q) : Q := Qmin a b.
Definition Math_max (a b : Q) : Q := Qmax a b.

(** [arr.sort(cmp)].  The sort of the language is stable, and for a
    comparator that is a consistent ordering its result is the one stable
    sorted arrangement; insertion from the right computes it: an element
    goes in front of the first later element [y] with [cmp x y <= 0]. *)
Fixpoint insertBy {A} (cmp : A -> A -> Q) (x : A) (l : list A) : list A :=
  match l with
  | [] => [x]
  | y :: l' => if Qle_bool (cmp x y) 0 then x :: l else y :: insertBy cmp x l'
  end.

Definition sort {A} (cmp : A -> A -> Q) (arr : list A) : list A :=
  fold_right (insertBy cmp) [] arr.

(** The idiom [if (!seen.has(key x)) { seen.add(key x); out.push(x) }]
    run over an array: the first element of every key, in array order. *)
Fixpoint keepFirstBy {A} (key : A -> string) (seen : gset string) (arr : list A)
  : list A :=
  match arr with
  | [] => []
  | x :: arr' =>
      if bool_decide (key x ∈ seen) then keepFirstBy key seen arr'
      else x :: keepFirstBy key ({[key x]} ∪ seen) arr'
  end.

(** [[...new Set(arr)]] on strings: a set keeps insertion order, so this
    is the first occurrence of every string. *)
Definition unique (arr : list string) : list string :=
  keepFirstBy (fun x => x) ∅ arr.

End JS.

(** ** Data model *)

Module Cause.
(** [keywords] is absent on the two sentinel causes built by the engine;
    the scorer reads it as [cause.keywords || []]. *)
Record t := mk {
  id : string;
  label : string;
  keywords : option (list string)
}.
End Cause.

Module Plant.
(** A record of [data/plants.json].  [symptoms] may be absent: the engine
    reads it as [plant.symptoms || []], except on the generic record. *)
Record t := mk {
  id : string;
  name : string;
  aliases : list string;
  symptoms : option (list string);
  causes : list Cause.t;
  solutions : gmap string (list string);
  eco_tip : string
}.
End Plant.

Module SymptomMatch.
(** The enhanced pass builds its entries without a [matchType]. *)
Record t := mk {
  symptom : string;
  source : string;
  weight : Q;
  matchType : option string
}.
End SymptomMatch.

Module Diagnosis.
Record t := mk {
  cause : Cause.t;
  confidence : Q;
  why : string;
  actions : list string;
  eco_tip : string
}.
End Diagnosis.

Module Detection.
(** The value returned by [detectPlant]; [plant] is [undefined] when the
    fallback finds no generic record. *)
Record t := mk {
  plant : option Plant.t;
  score : Q;
  method : string
}.
End Detection.

Module FuseResult.
(** One hit of [fuse.search]; [score] is the distance Fuse.js reports. *)
Record t := mk {
  item : Plant.t;
  score : Q
}.
End FuseResult.

Module DiagnosisResult.
(** The object returned by [diagnose].  The last three fields are absent
    from the object built for an empty input. *)
Record t := mk {
  plantName : string;
  plantMatchScore : Q;
  diagnoses : list Diagnosis.t;
  timestamp : string;
  originalInput : option string;
  detectedPlant : option string;
  detectionMethod : option string
}.

(** The result with its clock reading blanked. *)
Definition withoutTimestamp (r : t) : t :=
  mk (plantName r) (plantMatchScore r) (diagnoses r) ""
     (originalInput r) (detectedPlant r) (detectionMethod r).
End DiagnosisResult.

Module Config.
Record diagnosis_t := mkDiagnosis {
  minConfidenceThreshold : Q;
  maxDiagnoses : Z;
  plantMatchWeight : Q;
  symptomMatchWeight : Q;
  fuzzyThreshold : Q
}.

Record ui_t := mkUi {
  tone : string;
  maxInputLength : Z
}.

Record t := mk {
  diagnosis : diagnosis_t;
  ui : ui_t
}.

(** The object [loadConfig] falls back to. *)
Definition defaults : t :=
  mk (mkDiagnosis 0.3 3 0.4 0.6 0.6) (mkUi "friendly-sassy" 500).
End Config.

(** The three fields of the class: [this.config], [this.plants] and
    [this.fuse], the latter as the search function of the index. *)
Record PlantDiagnosisEngine := mkEngine {
  config : Config.t;
  plants : list Plant.t;
  fuse : string -> list FuseResult.t
}.

(** ** The methods of [PlantDiagnosisEngine] *)

Section Methods.

Variable this : PlantDiagnosisEngine.

(** The test shared by the name and the alias scan of [detectPlant]:
    [phraseWords.every(pw => words.some(word => word === pw || word.includes(pw)))]. *)
Definition everyWordFound (words phraseWords : list string) : bool :=
  forallb (fun phraseWord =>
             existsb (fun word => String.eqb word phraseWord || JS.includes word phraseWord)
                     words)
          phraseWords.

(** The condition of the first loop of [detectPlant] on one plant. *)
Definition plantNameMatch (words : list string) (plant : Plant.t) : bool :=
  let plantName := JS.toLowerCase (Plant.name plant) in
  let plantWords := JS.splitWhiteSpace plantName in
  everyWordFound words plantWords && (0 <? length plantWords)%nat.

(** The condition of the second loop of [detectPlant] on one alias. *)
Definition aliasMatch (text : string) (words : list string) (alias : string) : bool :=
  let aliasLower := JS.toLowerCase alias in
  (2 <? String.length aliasLower)%nat && JS.includes text aliasLower &&
  everyWordFound words (JS.splitWhiteSpace aliasLower).

(** [this.plants.find(p => p.id === 'generic')] *)
Definition findGeneric : option Plant.t :=
  find (fun p => String.eqb (Plant.id p) "generic") (plants this).

Definition genericFallback : Detection.t :=
  Detection.mk findGeneric 0.1 "generic_fallback".

(** Each [for] loop that returns at its first hit is a [find]. *)
Definition detectPlant (inputText : string) : Detection.t :=
  let text := JS.toLowerCase inputText in
  let words := JS.splitWhiteSpace text in
  match find (plantNameMatch words) (plants this) with
  | Some plant => Detection.mk (Some plant) 1.0 "plant_name_match"
  | None =>
      match find (fun plant => existsb (aliasMatch text words) (Plant.aliases plant))
                 (plants this) with
      | Some plant => Detection.mk (Some plant) 0.9 "alias_match"
      | None =>
          match fuse this inputText with
          | best :: _ =>
              if JS.lt (FuseResult.score best)
                       (Config.fuzzyThreshold (Config.diagnosis (config this)))
              then Detection.mk (Some (FuseResult.item best))
                                (1 - FuseResult.score best) "fuzzy_match"
              else genericFallback
          | [] => genericFallback
          end
      end
  end.

Definition semanticGroups : list (string * list string) :=
  [ ("color_problems", ["yellow"; "brown"; "black"; "white"; "pale"; "faded"; "discolored"]);
    ("texture_problems", ["crispy"; "mushy"; "soft"; "hard"; "rough"; "smooth"; "sticky"]);
    ("shape_problems", ["drooping"; "wilting"; "curled"; "twisted"; "deformed"; "stunted"]);
    ("growth_problems", ["not growing"; "slow growth"; "small"; "tiny"; "weak"; "thin"]);
    ("water_problems", ["dry"; "wet"; "soggy"; "thirsty"; "parched"; "waterlogged"]);
    ("light_problems", ["pale"; "stretching"; "leggy"; "spindly"; "weak"; "thin"]);
    ("pest_problems", ["holes"; "spots"; "bugs"; "webs"; "sticky"; "powdery"]) ].

Definition getSemanticMatches (symptom inputText : string) : nat :=
  fold_left (fun matches group =>
               let keywords := snd group in
               let symptomInGroup := existsb (fun keyword => JS.includes symptom keyword) keywords in
               let inputInGroup := existsb (fun keyword => JS.includes inputText keyword) keywords in
               if symptomInGroup && inputInGroup then (matches + 1)%nat else matches)
            semanticGroups 0%nat.

(** The two nested loops of the word-level pass: the state is
    [(matchScore, matchType)]. *)
Definition partialWordPass (symptomWords inputWords : list string) (st : Q * string)
  : Q * string :=
  fold_left (fun st symptomWord =>
               if (2 <? String.length symptomWord)%nat then
                 fold_left (fun st inputWord =>
                              if JS.includes inputWord symptomWord ||
                                 JS.includes symptomWord inputWord
                              then (fst st + 0.3, "partial") else st)
                           inputWords st
               else st)
            symptomWords st.

(** The loop of the substring pass. *)
Definition substringPass (text : string) (symptomWords : list string) (st : Q * string)
  : Q * string :=
  fold_left (fun st symptomWord =>
               if (3 <? String.length symptomWord)%nat && JS.includes text symptomWord
               then (fst st + 0.5, "substring") else st)
            symptomWords st.

(** The [else] branch of the loop body of [extractSymptoms]: the score and
    the match type accumulated for a symptom that is not in the text. *)
Definition accumulateScore (text symptomLower : string) : Q * string :=
  let symptomWords := JS.splitSpace symptomLower in
  let inputWords := JS.splitSpace text in
  let st := partialWordPass symptomWords inputWords (0, "") in
  let st := substringPass text symptomWords st in
  let semanticMatches := getSemanticMatches symptomLower text in
  let matchScore := fst st + JS.num semanticMatches * 0.4 in
  (matchScore, if (0 <? semanticMatches)%nat then "semantic" else snd st).

(** The score and match type of one candidate symptom. *)
Definition scoreSymptom (text symptom : string) : Q * string :=
  let symptomLower := JS.toLowerCase symptom in
  if JS.includes text symptomLower then (1.0, "exact")
  else accumulateScore text symptomLower.

(** The first loop of [extractSymptoms]: [matchedSymptoms] after it. *)
Definition matchSymptoms (text : string) (plantSymptoms allSymptoms : list string)
  : list SymptomMatch.t :=
  flat_map (fun symptom =>
              let (matchScore, matchType) := scoreSymptom text symptom in
              if JS.gt matchScore 0.2 then
                [ SymptomMatch.mk symptom
                    (if JS.arrayIncludes plantSymptoms symptom
                     then "plant_specific" else "generic")
                    (JS.Math_min matchScore 1.0)
                    (Some matchType) ]
              else [])
           allSymptoms.

Definition byWeightDescending (a b : SymptomMatch.t) : Q :=
  SymptomMatch.weight b - SymptomMatch.weight a.

(** [None] is the [TypeError] raised when the catalog has no generic record
    or that record has no [symptoms]. *)
Definition extractSymptoms (inputText : string) (plant : Plant.t)
  : option (list SymptomMatch.t) :=
  let text := JS.toLowerCase inputText in
  let plantSymptoms := default [] (Plant.symptoms plant) in
  match findGeneric with
  | None => None
  | Some genericPlant =>
      match Plant.symptoms genericPlant with
      | None => None
      | Some genericSymptoms =>
          let allSymptoms := (plantSymptoms ++ genericSymptoms)%list in
          let matchedSymptoms := matchSymptoms text plantSymptoms allSymptoms in
          let uniqueSymptoms :=
            JS.keepFirstBy SymptomMatch.symptom ∅
                           (JS.sort byWeightDescending matchedSymptoms) in
          Some (JS.slice0 uniqueSymptoms 10)
      end
  end.

Definition calculateSymptomScore (symptoms : list SymptomMatch.t) : Q :=
  if (length symptoms =? 0)%nat then 0
  else
    let totalWeight := fold_left (fun sum s => sum + SymptomMatch.weight s) symptoms 0 in
    let maxPossibleWeight := JS.num (Nat.max (length symptoms) 3) in
    JS.Math_min (totalWeight / maxPossibleWeight) 1.0.

Definition calculateEnhancedConfidence (matchedKeywords : list string) (totalKeywords : nat)
  (symptoms enhancedSymptoms : list SymptomMatch.t) : Q :=
  let keywordScore := JS.num (length matchedKeywords) / JS.num (Nat.max totalKeywords 1) in
  let symptomScore := calculateSymptomScore symptoms in
  let enhancedScore := calculateSymptomScore enhancedSymptoms in
  let combinedScore :=
    JS.Math_min
      (Config.plantMatchWeight (Config.diagnosis (config this)) * keywordScore +
       Config.symptomMatchWeight (Config.diagnosis (config this)) *
         (symptomScore + enhancedScore) / 2)
      1.0 in
  JS.Math_max combinedScore 0.3.

Definition enhancedSymptomDetection (inputText : string) (plant : Plant.t)
  : list SymptomMatch.t :=
  let plantSymptoms := default [] (Plant.symptoms plant) in
  flat_map (fun symptom =>
              let symptomLower := JS.toLowerCase symptom in
              if JS.includes inputText symptomLower then
                [ SymptomMatch.mk symptom "enhanced_direct" 1.0 None ]
              else if existsb (fun word => (2 <? String.length word)%nat &&
                                           JS.includes inputText word)
                              (JS.splitSpace symptomLower) then
                [ SymptomMatch.mk symptom "enhanced_partial" 0.7 None ]
              else [])
           plantSymptoms.

Definition getCauseLabel (causeId : string) : string :=
  let labels :=
    [ ("underwatering", "Underwatering & Dehydration");
      ("overwatering", "Overwatering & Root Rot");
      ("light_issues", "Light Problems & Photosynthesis Issues");
      ("pests", "Pest Infestation & Disease") ] in
  match find (fun entry => String.eqb (fst entry) causeId) labels with
  | Some entry => snd entry
  | None => "Plant Health Issue"
  end.

Definition patterns : list (string * list string) :=
  [ ("underwatering", ["dry"; "crispy"; "brown"; "wilting"; "drooping"; "thirsty"]);
    ("overwatering", ["yellow"; "mushy"; "wet"; "soggy"; "dropping"; "falling"]);
    ("light_issues", ["pale"; "stretching"; "weak"; "small"; "not growing"; "leggy"]);
    ("pests", ["bugs"; "holes"; "spots"; "webs"; "tiny"; "insects"]) ].

(** The loop returns at the first pattern with a keyword in the text;
    [None] is the [null] returned after the loop. *)
Definition detectGenericCause (inputText : string) (plant : Plant.t) : option Cause.t :=
  match find (fun entry =>
                let matches := List.filter (fun keyword => JS.includes inputText keyword)
                                           (snd entry) in
                (0 <? length matches)%nat)
             patterns with
  | Some (causeId, keywords) => Some (Cause.mk causeId (getCauseLabel causeId) (Some keywords))
  | None => None
  end.

Definition generateEnhancedWhyExplanation (matchedKeywords : list string) (cause : Cause.t)
  (inputText : string) (enhancedSymptoms : list SymptomMatch.t) : string :=
  if (length matchedKeywords =? 0)%nat && (length enhancedSymptoms =? 0)%nat then
    "Based on general plant care patterns, this could be a " +:+
    JS.toLowerCase (Cause.label cause) +:+ " issue."
  else
    let keywordList := JS.join "', '" (JS.slice0 matchedKeywords 3) in
    let symptomList :=
      JS.join "', '" (map SymptomMatch.symptom (JS.slice0 enhancedSymptoms 2)) in
    let explanation := "Detected keywords: '" +:+ keywordList +:+ "'" in
    let explanation :=
      if negb (String.eqb symptomList "")
      then explanation +:+ " and symptoms: '" +:+ symptomList +:+ "'"
      else explanation in
    explanation +:+ " suggesting " +:+ JS.toLowerCase (Cause.label cause) +:+ ".".

Definition generateGenericWhyExplanation (inputText : string) (cause : Cause.t) : string :=
  let commonWords := ["yellow"; "brown"; "dry"; "wet"; "pale"; "small"; "weak"] in
  let foundWords := List.filter (fun word => JS.includes inputText word) commonWords in
  if (0 <? length foundWords)%nat then
    "Detected common symptoms like '" +:+ JS.join "', '" foundWords +:+
    "' suggesting " +:+ JS.toLowerCase (Cause.label cause) +:+ "."
  else
    "Based on the plant type and common issues, this appears to be a " +:+
    JS.toLowerCase (Cause.label cause) +:+ " problem.".

(** The diagnosis returned when neither symptom list has an entry. *)
Definition noSymptomsDiagnosis : Diagnosis.t :=
  Diagnosis.mk
    (Cause.mk "no_symptoms" "Unclear Symptoms" None)
    0.2
    "I couldn't detect specific symptoms in your description. Try mentioning specific issues like 'yellow leaves', 'drooping', or 'brown spots'."
    [ "Provide more specific details about what you're seeing";
      "Mention the plant name if you know it";
      "Describe the symptoms more clearly";
      "Include information about watering, light, and recent changes" ]
    "When in doubt, less water is usually better than more water for most plants!".

(** [plant.solutions[causeId] || plant.solutions['watering_issues'] || [...]].
    The ids of the causes are taken not to be names of members of
    [Object.prototype]: under such a name the lookup finds the inherited
    member, which is not a list of actions. *)
Definition actionsFor (plant : Plant.t) (causeId : string) : list string :=
  match Plant.solutions plant !! causeId with
  | Some actions => actions
  | None =>
      match Plant.solutions plant !! "watering_issues" with
      | Some actions => actions
      | None =>
          [ "Check soil moisture with your finger";
            "Ensure proper drainage";
            "Adjust watering schedule";
            "Monitor plant response" ]
      end
  end.

(** [allMatches] of the cause loop of [generateDiagnoses]. *)
Definition allMatchesOf (inputLower : string) (causeKeywords : list string) : list string :=
  let matchedKeywords :=
    List.filter (fun keyword => JS.includes inputLower (JS.toLowerCase keyword))
                causeKeywords in
  let partialMatches :=
    List.filter (fun keyword =>
                   let keywordLower := JS.toLowerCase keyword in
                   existsb (fun word => (2 <? String.length word)%nat &&
                                        JS.includes inputLower word)
                           (JS.splitSpace keywordLower))
                causeKeywords in
  JS.unique (matchedKeywords ++ partialMatches)%list.

(** The body of the cause loop: what one cause pushes on [diagnoses]. *)
Definition scoreCause (plant : Plant.t) (symptoms enhancedSymptoms : list SymptomMatch.t)
  (inputText inputLower : string) (cause : Cause.t) : list Diagnosis.t :=
  let causeKeywords := default [] (Cause.keywords cause) in
  let allMatches := allMatchesOf inputLower causeKeywords in
  if (0 <? length allMatches)%nat || String.eqb (Plant.id plant) "generic" then
    let confidence :=
      calculateEnhancedConfidence allMatches (length causeKeywords)
                                  symptoms enhancedSymptoms in
    if JS.ge confidence (Config.minConfidenceThreshold (Config.diagnosis (config this)))
    then
      [ Diagnosis.mk cause confidence
          (generateEnhancedWhyExplanation allMatches cause inputText enhancedSymptoms)
          (actionsFor plant (Cause.id cause))
          (Plant.eco_tip plant) ]
    else []
  else [].

(** [diagnoses] after the cause loop. *)
Definition scoreCauses (plant : Plant.t) (symptoms enhancedSymptoms : list SymptomMatch.t)
  (inputText inputLower : string) : list Diagnosis.t :=
  flat_map (scoreCause plant symptoms enhancedSymptoms inputText inputLower)
           (Plant.causes plant).

(** The diagnosis of the last-resort pattern detector. *)
Definition genericDiagnosis (plant : Plant.t) (inputLower : string) (genericCause : Cause.t)
  : Diagnosis.t :=
  Diagnosis.mk genericCause 0.4
    (generateGenericWhyExplanation inputLower genericCause)
    (actionsFor plant (Cause.id genericCause))
    (Plant.eco_tip plant).

Definition byConfidenceDescending (a b : Diagnosis.t) : Q :=
  Diagnosis.confidence b - Diagnosis.confidence a.

Definition generateDiagnoses (plant : Plant.t) (symptoms : list SymptomMatch.t)
  (inputText : string) : list Diagnosis.t :=
  let inputLower := JS.toLowerCase inputText in
  let enhancedSymptoms := enhancedSymptomDetection inputLower plant in
  if (length symptoms =? 0)%nat && (length enhancedSymptoms =? 0)%nat then
    [ noSymptomsDiagnosis ]
  else
    let diagnoses := scoreCauses plant symptoms enhancedSymptoms inputText inputLower in
    let diagnoses :=
      if (length diagnoses =? 0)%nat then
        match detectGenericCause inputLower plant with
        | Some genericCause =>
            (diagnoses ++ [ genericDiagnosis plant inputLower genericCause ])%list
        | None => diagnoses
        end
      else diagnoses in
    JS.slice0 (JS.sort byConfidenceDescending diagnoses)
              (Config.maxDiagnoses (Config.diagnosis (config this))).

(** The one diagnosis of the object returned for an empty or blank input. *)
Definition emptyInputDiagnosis : Diagnosis.t :=
  Diagnosis.mk
    (Cause.mk "empty_input" "No Input Provided" None)
    0
    "Please provide a description of your plant's problem."
    [ "Describe what you're seeing (yellow leaves, drooping, etc.)";
      "Mention the plant name if you know it";
      "Include details about watering and light conditions";
      "Describe any recent changes to the plant's environment" ]
    "The more details you provide, the better I can help diagnose the issue!".

(** The object returned for an empty or blank input. *)
Definition emptyInputResult (now : string) : DiagnosisResult.t :=
  DiagnosisResult.mk "generic" 0 [ emptyInputDiagnosis ] now None None None.

(** [inputText.length > maxInputLength ? inputText.substring(0, maxInputLength) + '...' : inputText] *)
Definition truncateInput (inputText : string) : string :=
  let maxInputLength := Config.maxInputLength (Config.ui (config this)) in
  if (maxInputLength <? Z.of_nat (String.length inputText))%Z
  then JS.substring0 inputText maxInputLength +:+ "..."
  else inputText.

(** [diagnose].  [now] is the clock reading of [new Date()]; [None] is an
    exception: [plantDetection.plant] is [undefined], or [extractSymptoms]
    throws. *)
Definition diagnose (now : string) (inputText : string) : option DiagnosisResult.t :=
  if String.eqb inputText "" || (String.length (JS.trim inputText) =? 0)%nat then
    Some (emptyInputResult now)
  else
    let truncatedInput := truncateInput inputText in
    let plantDetection := detectPlant truncatedInput in
    match Detection.plant plantDetection with
    | None => None
    | Some plant =>
        match extractSymptoms truncatedInput plant with
        | None => None
        | Some symptoms =>
            let diagnoses := generateDiagnoses plant symptoms truncatedInput in
            Some (DiagnosisResult.mk
                    (Plant.name plant)
                    (Detection.score plantDetection)
                    diagnoses
                    now
                    (Some truncatedInput)
                    (Some (Plant.id plant))
                    (Some (Detection.method plantDetection)))
        end
    end.

End Methods.

(** ** A small catalog to run the engine on

    [data/plants.json] is not part of the sources at hand; the statements
    below hold for every catalog, and this one serves to evaluate them. *)

Module Sample.

Definition snakePlant : Plant.t :=
  Plant.mk "snake_plant" "Snake Plant" ["sansevieria"; "mother in law tongue"]
    (Some ["yellow leaves"; "mushy base"; "leaf curl"])
    [ Cause.mk "overwatering" "Overwatering" (Some ["yellow"; "mushy"; "soggy soil"]);
      Cause.mk "cold_damage" "Cold Damage" (Some ["cold"; "frost"]) ]
    {[ "overwatering" := ["Let the soil dry out completely"; "Water once a month"] ]}
    "Snake plants thrive on neglect.".

Definition tulsi : Plant.t :=
  Plant.mk "tulsi" "Tulsi" ["holy basil"]
    (Some ["leaf curl"; "black stems"])
    [ Cause.mk "overwatering" "Overwatering" (Some ["soggy soil"]) ]
    {[ "watering_issues" := ["Water in the morning"] ]}
    "Use kitchen water for tulsi.".

Definition generic : Plant.t :=
  Plant.mk "generic" "Generic Plant" []
    (Some ["yellow leaves"; "dry soil"; "brown spots"])
    [ Cause.mk "watering_issues" "Watering Issues" (Some ["water"; "soil"]);
      Cause.mk "light_issues" "Light Issues" (Some ["light"; "sun"]) ]
    {[ "watering_issues" := ["Check soil moisture with your finger"];
       "light_issues" := ["Move the plant closer to a window"] ]}
    "Collect rainwater for your plants.".

Definition catalog : list Plant.t := [snakePlant; tulsi; generic].

(** A search index without hits. *)
Definition noHits (inputText : string) : list FuseResult.t := [].

Definition engine : PlantDiagnosisEngine :=
  mkEngine Config.defaults catalog noHits.

(** The same catalog under a stricter threshold. *)
Definition strictConfig : Config.t :=
  Config.mk (Config.mkDiagnosis 0.5 3 0.4 0.6 0.6) (Config.mkUi "friendly-sassy" 500).

Definition strictEngine : PlantDiagnosisEngine :=
  mkEngine strictConfig catalog noHits.

(** The same catalog with a negative [maxDiagnoses]. *)
Definition negativeMaxConfig : Config.t :=
  Config.mk (Config.mkDiagnosis 0.3 (-1) 0.4 0.6 0.6) (Config.mkUi "friendly-sassy" 500).

Definition negativeMaxEngine : PlantDiagnosisEngine :=
  mkEngine negativeMaxConfig catalog noHits.

(** A catalog without a generic record. *)
Definition bareEngine : PlantDiagnosisEngine :=
  mkEngine Config.defaults [snakePlant; tulsi] noHits.

(** The symptom matches of two inputs, as [extractSymptoms] computes them. *)
Definition yellowSymptoms : list SymptomMatch.t :=
  default [] (extractSymptoms strictEngine "yellow" generic).

Definition curlSymptoms : list SymptomMatch.t :=
  default [] (extractSymptoms engine "my tulsi has curl" tulsi).

Definition snakeSymptoms : list SymptomMatch.t :=
  default [] (extractSymptoms engine "My snake plant has yellow mushy leaves" snakePlant).

End Sample.

(** ** Definitions that follow the words of the specification *)

Module Spec.

(** A string all of whose characters are white space (the empty string
    included). *)
Fixpoint allWhiteSpace (s : string) : bool :=
  match s with
  | EmptyString => true
  | String c s' => JS.isWhiteSpace c && allWhiteSpace s'
  end.

(** A string without a white-space character. *)
Fixpoint noWhiteSpace (s : string) : bool :=
  match s with
  | EmptyString => true
  | String c s' => negb (JS.isWhiteSpace c) && noWhiteSpace s'
  end.

(** [sub] occurs in [s]. *)
Definition isSubstring (sub s : string) : Prop :=
  exists pre post, s = pre +:+ sub +:+ post.

(** Every word of the plant's lower-cased name equals, or is a substring of,
    some word of the lower-cased input. *)
Definition nameContained (inputText : string) (plant : Plant.t) : Prop :=
  let words := JS.splitWhiteSpace (JS.toLowerCase inputText) in
  Forall (fun nameWord =>
            Exists (fun word => word = nameWord \/ isSubstring nameWord word) words)
         (JS.splitWhiteSpace (JS.toLowerCase (Plant.name plant))).

(** A symptom word and an input word, one of which contains the other. *)
Definition wordsOverlap (symptomWord inputWord : string) : bool :=
  JS.includes inputWord symptomWord || JS.includes symptomWord inputWord.

(** The symptom words longer than 2 that overlap with some input word: the
    count the specification multiplies by 0.3. *)
Definition overlappingWords (symptomWords inputWords : list string) : nat :=
  length (List.filter (fun symptomWord =>
                         (2 <? String.length symptomWord)%nat &&
                         existsb (wordsOverlap symptomWord) inputWords)
                      symptomWords).

(** The pairs of a symptom word longer than 2 and an input word that
    overlap: the count the word-level loops add 0.3 for. *)
Definition overlappingPairs (symptomWords inputWords : list string) : nat :=
  length (List.filter (fun pair => wordsOverlap (fst pair) (snd pair))
                      (list_prod (List.filter (fun symptomWord =>
                                                 (2 <? String.length symptomWord)%nat)
                                              symptomWords)
                                 inputWords)).

(** The symptom words longer than 3 that occur in the text. *)
Definition wordsInText (text : string) (symptomWords : list string) : nat :=
  length (List.filter (fun symptomWord =>
                         (3 <? String.length symptomWord)%nat &&
                         JS.includes text symptomWord)
                      symptomWords).

(** The semantic groups with a keyword in the symptom and a keyword in the
    text. *)
Definition sharedGroups (symptomLower text : string) : nat :=
  length (List.filter (fun group =>
                         existsb (fun keyword => JS.includes symptomLower keyword) (snd group) &&
                         existsb (fun keyword => JS.includes text keyword) (snd group))
                      semanticGroups).

(** The accumulated weight as the specification states it: per symptom
    word. *)
Definition statedScore (text symptomLower : string) : Q :=
  0.3 * JS.num (overlappingWords (JS.splitSpace symptomLower) (JS.splitSpace text)) +
  0.5 * JS.num (wordsInText text (JS.splitSpace symptomLower)) +
  0.4 * JS.num (sharedGroups symptomLower text).

(** The accumulated weight with the word-level term counted per pair. *)
Definition pairwiseScore (text symptomLower : string) : Q :=
  0.3 * JS.num (overlappingPairs (JS.splitSpace symptomLower) (JS.splitSpace text)) +
  0.5 * JS.num (wordsInText text (JS.splitSpace symptomLower)) +
  0.4 * JS.num (sharedGroups symptomLower text).

(** The catalog has a generic record with a symptom list: what
    [extractSymptoms] needs in order not to throw. *)
Definition catalogReady (this : PlantDiagnosisEngine) : bool :=
  match findGeneric this with
  | Some genericPlant =>
      match Plant.symptoms genericPlant with
      | Some _ => true
      | None => false
      end
  | None => false
  end.

(** A confidence within the configured threshold and 1. *)
Definition inRange (this : PlantDiagnosisEngine) (d : Diagnosis.t) : Prop :=
  Config.minConfidenceThreshold (Config.diagnosis (config this)) <= Diagnosis.confidence d /\
  Diagnosis.confidence d <= 1.0.

(** The bounds on a result as the specification states them: the two
    sentinel results apart, at most [maxDiagnoses] diagnoses, each with a
    confidence in range. *)
Definition statedBounds (this : PlantDiagnosisEngine) (r : DiagnosisResult.t) : Prop :=
  DiagnosisResult.diagnoses r = [emptyInputDiagnosis] \/
  DiagnosisResult.diagnoses r = [noSymptomsDiagnosis] \/
  ((Z.of_nat (length (DiagnosisResult.diagnoses r))
    <= Config.maxDiagnoses (Config.diagnosis (config this)))%Z /\
   Forall (inRange this) (DiagnosisResult.diagnoses r)).

(** Some keyword of the last-resort patterns occurs in the text. *)
Definition patternKeywordIn (inputLower : string) : bool :=
  existsb (fun keyword => JS.includes inputLower keyword) (concat (map snd patterns)).

End Spec.

(** ** The engine in binary64 arithmetic

    The methods above read [+], [-], [*] and [/] as the exact operations
    on rationals; they serve for the statements on order, bounds and
    structure.  The program computes in IEEE 754 binary64: every operation
    yields the binary64 value nearest to the exact result, the one with the
    even significand of two nearest.  A finite binary64 value is a
    rational, and [round64] below maps a rational to the nearest binary64
    value, gradual underflow included.  The methods that do arithmetic are
    embedded a second time over these operations; a numeric literal, and a
    number of the configuration or of a search hit, is the binary64 value
    nearest to its decimal, as the parser gives it.

    The zero with a sign is not told apart from zero, which no operation
    of the engine does either.  [round64] has no largest value: a result
    beyond the binary64 range is not [Infinity] here; the engine gets there
    only under a configured weight of more than 2^1021. *)

Module Binary64.

(** For [0 < x], the [e] with [2^e <= x < 2^(e+1)]: the quotient of the
    binary lengths of numerator and denominator, corrected by one test. *)
Definition floorLog2 (x : Q) : Z :=
  let k := (Z.log2 (Qnum x) - Z.log2 (Zpos (Qden x)))%Z in
  if Qle_bool (2 ^ k) x then k else (k - 1)%Z.

(** Rounding to the nearest integer, to the even one of two nearest. *)
Definition roundHalfEven (x : Q) : Z :=
  let f := Qfloor x in
  match Qcompare (x - inject_Z f) (1 # 2) with
  | Lt => f
  | Gt => (f + 1)%Z
  | Eq => if Z.even f then f else (f + 1)%Z
  end.

(** The exponent of the unit in the last place: 53 significant bits, and
    2^-1074 for the subnormal values. *)
Definition ulpExponent (x : Q) : Z :=
  Z.max (floorLog2 x - 52) (-1074).

(** Rounding of a magnitude. *)
Definition roundMagnitude (x : Q) : Q :=
  let e := ulpExponent x in
  Qred (inject_Z (roundHalfEven (x * 2 ^ (- e))) * 2 ^ e).

Definition round64 (x : Q) : Q :=
  match Qcompare x 0 with
  | Lt => - roundMagnitude (- x)
  | _ => roundMagnitude x
  end.

(** A binary64 value: rounding leaves it as it is. *)
Definition representable (x : Q) : Prop := round64 x == x.

(** A literal of the source, or a number read from JSON. *)
Definition lit (decimal : Q) : Q := round64 decimal.

Definition add (a b : Q) : Q := round64 (a + b).
Definition sub (a b : Q) : Q := round64 (a - b).
Definition mul (a b : Q) : Q := round64 (a * b).
Definition div (a b : Q) : Q := round64 (a / b).

Section Methods.

Variable this : PlantDiagnosisEngine.

Definition genericFallback : Detection.t :=
  Detection.mk (findGeneric this) (lit 0.1) "generic_fallback".

Definition detectPlant (inputText : string) : Detection.t :=
  let text := JS.toLowerCase inputText in
  let words := JS.splitWhiteSpace text in
  match find (plantNameMatch words) (plants this) with
  | Some plant => Detection.mk (Some plant) (lit 1.0) "plant_name_match"
  | None =>
      match find (fun plant => existsb (aliasMatch text words) (Plant.aliases plant))
                 (plants this) with
      | Some plant => Detection.mk (Some plant) (lit 0.9) "alias_match"
      | None =>
          match fuse this inputText with
          | best :: _ =>
              if JS.lt (lit (FuseResult.score best))
                       (lit (Config.fuzzyThreshold (Config.diagnosis (config this))))
              then Detection.mk (Some (FuseResult.item best))
                                (sub 1 (lit (FuseResult.score best))) "fuzzy_match"
              else genericFallback
          | [] => genericFallback
          end
      end
  end.

(** [matchScore += 0.3] in the two nested loops of the word-level pass. *)
Definition partialWordPass (symptomWords inputWords : list string) (st : Q * string)
  : Q * string :=
  fold_left (fun st symptomWord =>
               if (2 <? String.length symptomWord)%nat then
                 fold_left (fun st inputWord =>
                              if JS.includes inputWord symptomWord ||
                                 JS.includes symptomWord inputWord
                              then (add (fst st) (lit 0.3), "partial") else st)
                           inputWords st
               else st)
            symptomWords st.

(** [matchScore += 0.5] in the loop of the substring pass. *)
Definition substringPass (text : string) (symptomWords : list string) (st : Q * string)
  : Q * string :=
  fold_left (fun st symptomWord =>
               if (3 <? String.length symptomWord)%nat && JS.includes text symptomWord
               then (add (fst st) (lit 0.5), "substring") else st)
            symptomWords st.

(** The [else] branch of the loop body of [extractSymptoms]; the last
    step is [matchScore += semanticMatches * 0.4]. *)
Definition accumulateScore (text symptomLower : string) : Q * string :=
  let symptomWords := JS.splitSpace symptomLower in
  let inputWords := JS.splitSpace text in
  let st := partialWordPass symptomWords inputWords (0, "") in
  let st := substringPass text symptomWords st in
  let semanticMatches := getSemanticMatches symptomLower text in
  let matchScore := add (fst st) (mul (JS.num semanticMatches) (lit 0.4)) in
  (matchScore, if (0 <? semanticMatches)%nat then "semantic" else snd st).

Definition scoreSymptom (text symptom : string) : Q * string :=
  let symptomLower := JS.toLowerCase symptom in
  if JS.includes text symptomLower then (lit 1.0, "exact")
  else accumulateScore text symptomLower.

Definition matchSymptoms (text : string) (plantSymptoms allSymptoms : list string)
  : list SymptomMatch.t :=
  flat_map (fun symptom =>
              let (matchScore, matchType) := scoreSymptom text symptom in
              if JS.gt matchScore (lit 0.2) then
                [ SymptomMatch.mk symptom
                    (if JS.arrayIncludes plantSymptoms symptom
                     then "plant_specific" else "generic")
                    (JS.Math_min matchScore (lit 1.0))
                    (Some matchType) ]
              else [])
           allSymptoms.

Definition byWeightDescending (a b : SymptomMatch.t) : Q :=
  sub (SymptomMatch.weight b) (SymptomMatch.weight a).

Definition extractSymptoms (inputText : string) (plant : Plant.t)
  : option (list SymptomMatch.t) :=
  let text := JS.toLowerCase inputText in
  let plantSymptoms := default [] (Plant.symptoms plant) in
  match findGeneric this with
  | None => None
  | Some genericPlant =>
      match Plant.symptoms genericPlant with
      | None => None
      | Some genericSymptoms =>
          let allSymptoms := (plantSymptoms ++ genericSymptoms)%list in
          let matchedSymptoms := matchSymptoms text plantSymptoms allSymptoms in
          let uniqueSymptoms :=
            JS.keepFirstBy SymptomMatch.symptom ∅
                           (JS.sort byWeightDescending matchedSymptoms) in
          Some (JS.slice0 uniqueSymptoms 10)
      end
  end.

(** [symptoms.reduce((sum, s) => sum + s.weight, 0)] and the quotient by
    [Math.max(symptoms.length, 3)]. *)
Definition calculateSymptomScore (symptoms : list SymptomMatch.t) : Q :=
  if (length symptoms =? 0)%nat then 0
  else
    let totalWeight := fold_left (fun sum s => add sum (SymptomMatch.weight s)) symptoms 0 in
    let maxPossibleWeight := JS.num (Nat.max (length symptoms) 3) in
    JS.Math_min (div totalWeight maxPossibleWeight) (lit 1.0).

(** The product with [symptomMatchWeight] is divided by 2, as the
    expression of the source associates. *)
Definition calculateEnhancedConfidence (matchedKeywords : list string) (totalKeywords : nat)
  (symptoms enhancedSymptoms : list SymptomMatch.t) : Q :=
  let keywordScore := div (JS.num (length matchedKeywords)) (JS.num (Nat.max totalKeywords 1)) in
  let symptomScore := calculateSymptomScore symptoms in
  let enhancedScore := calculateSymptomScore enhancedSymptoms in
  let combinedScore :=
    JS.Math_min
      (add (mul (lit (Config.plantMatchWeight (Config.diagnosis (config this)))) keywordScore)
           (div (mul (lit (Config.symptomMatchWeight (Config.diagnosis (config this))))
                     (add symptomScore enhancedScore))
                2))
      (lit 1.0) in
  JS.Math_max combinedScore (lit 0.3).

Definition enhancedSymptomDetection (inputText : string) (plant : Plant.t)
  : list SymptomMatch.t :=
  let plantSymptoms := default [] (Plant.symptoms plant) in
  flat_map (fun symptom =>
              let symptomLower := JS.toLowerCase symptom in
              if JS.includes inputText symptomLower then
                [ SymptomMatch.mk symptom "enhanced_direct" (lit 1.0) None ]
              else if existsb (fun word => (2 <? String.length word)%nat &&
                                           JS.includes inputText word)
                              (JS.splitSpace symptomLower) then
                [ SymptomMatch.mk symptom "enhanced_partial" (lit 0.7) None ]
              else [])
           plantSymptoms.

(** The diagnosis of unclear symptoms, its confidence being the literal
    0.2. *)
Definition noSymptomsDiagnosis : Diagnosis.t :=
  Diagnosis.mk (Diagnosis.cause noSymptomsDiagnosis) (lit 0.2)
               (Diagnosis.why noSymptomsDiagnosis)
               (Diagnosis.actions noSymptomsDiagnosis)
               (Diagnosis.eco_tip noSymptomsDiagnosis).

Definition scoreCause (plant : Plant.t) (symptoms enhancedSymptoms : list SymptomMatch.t)
  (inputText inputLower : string) (cause : Cause.t) : list Diagnosis.t :=
  let causeKeywords := default [] (Cause.keywords cause) in
  let allMatches := allMatchesOf inputLower causeKeywords in
  if (0 <? length allMatches)%nat || String.eqb (Plant.id plant) "generic" then
    let confidence :=
      calculateEnhancedConfidence allMatches (length causeKeywords)
                                  symptoms enhancedSymptoms in
    if JS.ge confidence
             (lit (Config.minConfidenceThreshold (Config.diagnosis (config this))))
    then
      [ Diagnosis.mk cause confidence
          (generateEnhancedWhyExplanation allMatches cause inputText enhancedSymptoms)
          (actionsFor plant (Cause.id cause))
          (Plant.eco_tip plant) ]
    else []
  else [].

Definition scoreCauses (plant : Plant.t) (symptoms enhancedSymptoms : list SymptomMatch.t)
  (inputText inputLower : string) : list Diagnosis.t :=
  flat_map (scoreCause plant symptoms enhancedSymptoms inputText inputLower)
           (Plant.causes plant).

Definition genericDiagnosis (plant : Plant.t) (inputLower : string) (genericCause : Cause.t)
  : Diagnosis.t :=
  Diagnosis.mk genericCause (lit 0.4)
    (generateGenericWhyExplanation inputLower genericCause)
    (actionsFor plant (Cause.id genericCause))
    (Plant.eco_tip plant).

Definition byConfidenceDescending (a b : Diagnosis.t) : Q :=
  sub (Diagnosis.confidence b) (Diagnosis.confidence a).

Definition generateDiagnoses (plant : Plant.t) (symptoms : list SymptomMatch.t)
  (inputText : string) : list Diagnosis.t :=
  let inputLower := JS.toLowerCase inputText in
  let enhancedSymptoms := enhancedSymptomDetection inputLower plant in
  if (length symptoms =? 0)%nat && (length enhancedSymptoms =? 0)%nat then
    [ noSymptomsDiagnosis ]
  else
    let diagnoses := scoreCauses plant symptoms enhancedSymptoms inputText inputLower in
    let diagnoses :=
      if (length diagnoses =? 0)%nat then
        match detectGenericCause inputLower plant with
        | Some genericCause =>
            (diagnoses ++ [ genericDiagnosis plant inputLower genericCause ])%list
        | None => diagnoses
        end
      else diagnoses in
    JS.slice0 (JS.sort byConfidenceDescending diagnoses)
              (Config.maxDiagnoses (Config.diagnosis (config this))).

Definition diagnose (now : string) (inputText : string) : option DiagnosisResult.t :=
  if String.eqb inputText "" || (String.length (JS.trim inputText) =? 0)%nat then
    Some (emptyInputResult now)
  else
    let truncatedInput := truncateInput this inputText in
    let plantDetection := detectPlant truncatedInput in
    match Detection.plant plantDetection with
    | None => None
    | Some plant =>
        match extractSymptoms truncatedInput plant with
        | None => None
        | Some symptoms =>
            let diagnoses := generateDiagnoses plant symptoms truncatedInput in
            Some (DiagnosisResult.mk
                    (Plant.name plant)
                    (Detection.score plantDetection)
                    diagnoses
                    now
                    (Some truncatedInput)
                    (Some (Plant.id plant))
                    (Some (Detection.method plantDetection)))
        end
    end.

End Methods.

End Binary64.

(** ** The stated formulas in binary64 arithmetic *)

Module Spec64.

(** [w] added [n] times to [start], one addition after the other. *)
Definition addTimes (w : Q) (n : nat) (start : Q) : Q :=
  Nat.iter n (fun sum => Binary64.add sum w) start.

(** The accumulated weight for given counts of overlapping pairs, of
    symptom words in the text and of shared semantic groups: 0.3 added once
    per pair, then 0.5 added once per word, then 0.4 times the number of
    groups added. *)
Definition accumulated (pairs words groups : nat) : Q :=
  Binary64.add
    (addTimes (Binary64.lit 0.5) words (addTimes (Binary64.lit 0.3) pairs 0))
    (Binary64.mul (JS.num groups) (Binary64.lit 0.4)).

(** The accumulated weight as the specification states it, by products
    and per symptom word, computed in binary64. *)
Definition statedScore (text symptomLower : string) : Q :=
  Binary64.add
    (Binary64.add
       (Binary64.mul (Binary64.lit 0.3)
          (JS.num (Spec.overlappingWords (JS.splitSpace symptomLower) (JS.splitSpace text))))
       (Binary64.mul (Binary64.lit 0.5)
          (JS.num (Spec.wordsInText text (JS.splitSpace symptomLower)))))
    (Binary64.mul (Binary64.lit 0.4) (JS.num (Spec.sharedGroups symptomLower text))).

(** The sum of the weights, from the first to the last. *)
Definition sumWeights (S : list SymptomMatch.t) : Q :=
  fold_left (fun sum s => Binary64.add sum (SymptomMatch.weight s)) S 0.

(** [avgSymptomScore(S)]: 0 for an empty [S], else the sum of the weights
    over [max(|S|, 3)]. *)
Definition avgSymptomScore (S : list SymptomMatch.t) : Q :=
  match S with
  | [] => 0
  | _ => Binary64.div (sumWeights S) (JS.num (Nat.max (length S) 3))
  end.

(** The confidence formula of the specification, each operation in
    binary64 and in the order in which the formula is written. *)
Definition confidenceFormula (cfg : Config.t) (allMatches causeKeywords : nat)
  (symptoms enhancedSymptoms : list SymptomMatch.t) : Q :=
  Qmax (Binary64.lit 0.3)
    (Qmin (Binary64.lit 1.0)
       (Binary64.add
          (Binary64.mul (Binary64.lit (Config.plantMatchWeight (Config.diagnosis cfg)))
             (Binary64.div (JS.num allMatches) (JS.num (Nat.max causeKeywords 1))))
          (Binary64.div
             (Binary64.mul (Binary64.lit (Config.symptomMatchWeight (Config.diagnosis cfg)))
                (Binary64.add (avgSymptomScore symptoms) (avgSymptomScore enhancedSymptoms)))
             2))).

End Spec64.

(** ** The engine as an object with state

    The methods above are functions of the engine: that a call leaves the
    object as it found it is built into their form.  Here the methods that
    touch the object are embedded once more, statement by statement, over
    the state they can reach: the three fields [this.config], [this.plants]
    and [this.fuse] that the constructor sets (the class has no other
    field, and the module no variable besides the class), and the clock
    behind [new Date()].  A read of a field is a step of its own; an
    exception is the result [None] and leaves the state as it is at the
    throw.  Local arrays ([matchedSymptoms], [diagnoses]) are built, sorted
    and cut by the call that creates them and are values here.  The
    arithmetic is the binary64 arithmetic.  [fuse.search] is taken to
    answer from the index alone. *)

Module Stateful.

Record World := mkWorld {
  this : PlantDiagnosisEngine;
  clock : nat -> string;
  readings : nat
}.

(** A computation on the state that returns a value or throws. *)
Definition M (A : Type) : Type := World -> option A * World.

Definition ret {A} (a : A) : M A := fun w => (Some a, w).

Definition throw {A} : M A := fun w => (None, w).

Definition bind {A B} (m : M A) (k : A -> M B) : M B :=
  fun w =>
    match m w with
    | (Some a, w') => k a w'
    | (None, w') => (None, w')
    end.

(** [this.field] *)
Definition read {A} (field : PlantDiagnosisEngine -> A) : M A :=
  fun w => (Some (field (this w)), w).

(** [this.plants.push(plantData)]: the array of the catalog grows in
    place. *)
Definition pushPlant (plantData : Plant.t) : M unit :=
  fun w =>
    (Some tt,
     mkWorld (mkEngine (config (this w)) (plants (this w) ++ [plantData])%list (fuse (this w)))
             (clock w) (readings w)).

(** [this.fuse = index] *)
Definition assignFuse (index : string -> list FuseResult.t) : M unit :=
  fun w =>
    (Some tt,
     mkWorld (mkEngine (config (this w)) (plants (this w)) index) (clock w) (readings w)).

(** [new Date().toISOString()]: the next reading of the clock. *)
Definition newDate : M string :=
  fun w => (Some (clock w (readings w)), mkWorld (this w) (clock w) (S (readings w))).

Notation "'let*' x ':=' m 'in' k" := (bind m (fun x => k))
  (at level 10, x name, m at level 100, k at level 200).

(** A loop that pushes on a local array: [for (const x of arr) { ... }]. *)
Fixpoint forEach {A B} (body : A -> M (list B)) (arr : list A) : M (list B) :=
  match arr with
  | [] => ret []
  | x :: arr' =>
      let* pushed := body x in
      let* rest := forEach body arr' in
      ret (pushed ++ rest)%list
  end.

Definition genericFallback : M Detection.t :=
  let* catalog := read plants in
  ret (Detection.mk (find (fun p => String.eqb (Plant.id p) "generic") catalog)
                    (Binary64.lit 0.1) "generic_fallback").

Definition detectPlant (inputText : string) : M Detection.t :=
  let text := JS.toLowerCase inputText in
  let words := JS.splitWhiteSpace text in
  let* catalog := read plants in
  match find (plantNameMatch words) catalog with
  | Some plant => ret (Detection.mk (Some plant) (Binary64.lit 1.0) "plant_name_match")
  | None =>
      let* catalog := read plants in
      match find (fun plant => existsb (aliasMatch text words) (Plant.aliases plant))
                 catalog with
      | Some plant => ret (Detection.mk (Some plant) (Binary64.lit 0.9) "alias_match")
      | None =>
          let* index := read fuse in
          match index inputText with
          | best :: _ =>
              let* cfg := read config in
              if JS.lt (Binary64.lit (FuseResult.score best))
                       (Binary64.lit (Config.fuzzyThreshold (Config.diagnosis cfg)))
              then ret (Detection.mk (Some (FuseResult.item best))
                                     (Binary64.sub 1 (Binary64.lit (FuseResult.score best)))
                                     "fuzzy_match")
              else genericFallback
          | [] => genericFallback
          end
      end
  end.

(** [plant] is [plantDetection.plant], which may be [undefined]. *)
Definition extractSymptoms (inputText : string) (plant : option Plant.t)
  : M (list SymptomMatch.t) :=
  let text := JS.toLowerCase inputText in
  match plant with
  | None => throw
  | Some plant =>
      let plantSymptoms := default [] (Plant.symptoms plant) in
      let* catalog := read plants in
      match find (fun p => String.eqb (Plant.id p) "generic") catalog with
      | None => throw
      | Some genericPlant =>
          match Plant.symptoms genericPlant with
          | None => throw
          | Some genericSymptoms =>
              let allSymptoms := (plantSymptoms ++ genericSymptoms)%list in
              let matchedSymptoms := Binary64.matchSymptoms text plantSymptoms allSymptoms in
              let uniqueSymptoms :=
                JS.keepFirstBy SymptomMatch.symptom ∅
                               (JS.sort Binary64.byWeightDescending matchedSymptoms) in
              ret (JS.slice0 uniqueSymptoms 10)
          end
      end
  end.

Definition calculateEnhancedConfidence (matchedKeywords : list string) (totalKeywords : nat)
  (symptoms enhancedSymptoms : list SymptomMatch.t) : M Q :=
  let keywordScore :=
    Binary64.div (JS.num (length matchedKeywords)) (JS.num (Nat.max totalKeywords 1)) in
  let symptomScore := Binary64.calculateSymptomScore symptoms in
  let enhancedScore := Binary64.calculateSymptomScore enhancedSymptoms in
  let* cfg := read config in
  let plantMatchWeight := Binary64.lit (Config.plantMatchWeight (Config.diagnosis cfg)) in
  let* cfg := read config in
  let symptomMatchWeight := Binary64.lit (Config.symptomMatchWeight (Config.diagnosis cfg)) in
  let combinedScore :=
    JS.Math_min
      (Binary64.add (Binary64.mul plantMatchWeight keywordScore)
                    (Binary64.div
                       (Binary64.mul symptomMatchWeight
                                     (Binary64.add symptomScore enhancedScore))
                       2))
      (Binary64.lit 1.0) in
  ret (JS.Math_max combinedScore (Binary64.lit 0.3)).

(** The body of the cause loop of [generateDiagnoses]. *)
Definition scoreCause (plant : Plant.t) (symptoms enhancedSymptoms : list SymptomMatch.t)
  (inputText inputLower : string) (cause : Cause.t) : M (list Diagnosis.t) :=
  let causeKeywords := default [] (Cause.keywords cause) in
  let allMatches := allMatchesOf inputLower causeKeywords in
  if (0 <? length allMatches)%nat || String.eqb (Plant.id plant) "generic" then
    let* confidence := calculateEnhancedConfidence allMatches (length causeKeywords)
                                                   symptoms enhancedSymptoms in
    let* cfg := read config in
    if JS.ge confidence (Binary64.lit (Config.minConfidenceThreshold (Config.diagnosis cfg)))
    then
      ret [ Diagnosis.mk cause confidence
              (generateEnhancedWhyExplanation allMatches cause inputText enhancedSymptoms)
              (actionsFor plant (Cause.id cause))
              (Plant.eco_tip plant) ]
    else ret []
  else ret [].

Definition generateDiagnoses (plant : Plant.t) (symptoms : list SymptomMatch.t)
  (inputText : string) : M (list Diagnosis.t) :=
  let inputLower := JS.toLowerCase inputText in
  let enhancedSymptoms := Binary64.enhancedSymptomDetection inputLower plant in
  if (length symptoms =? 0)%nat && (length enhancedSymptoms =? 0)%nat then
    ret [ Binary64.noSymptomsDiagnosis ]
  else
    let* diagnoses := forEach (scoreCause plant symptoms enhancedSymptoms inputText inputLower)
                              (Plant.causes plant) in
    let diagnoses :=
      if (length diagnoses =? 0)%nat then
        match detectGenericCause inputLower plant with
        | Some genericCause =>
            (diagnoses ++ [ Binary64.genericDiagnosis plant inputLower genericCause ])%list
        | None => diagnoses
        end
      else diagnoses in
    let* cfg := read config in
    ret (JS.slice0 (JS.sort Binary64.byConfidenceDescending diagnoses)
                   (Config.maxDiagnoses (Config.diagnosis cfg))).

Definition diagnose (inputText : string) : M DiagnosisResult.t :=
  if String.eqb inputText "" || (String.length (JS.trim inputText) =? 0)%nat then
    let* now := newDate in
    ret (emptyInputResult now)
  else
    let* cfg := read config in
    let* truncatedInput :=
      (if (Config.maxInputLength (Config.ui cfg) <? Z.of_nat (String.length inputText))%Z
       then let* cfg := read config in
            ret (JS.substring0 inputText (Config.maxInputLength (Config.ui cfg)) +:+ "...")
       else ret inputText) in
    let* plantDetection := detectPlant truncatedInput in
    let* symptoms := extractSymptoms truncatedInput (Detection.plant plantDetection) in
    match Detection.plant plantDetection with
    | None => throw
    | Some plant =>
        let* diagnoses := generateDiagnoses plant symptoms truncatedInput in
        let* now := newDate in
        ret (DiagnosisResult.mk
               (Plant.name plant)
               (Detection.score plantDetection)
               diagnoses
               now
               (Some truncatedInput)
               (Some (Plant.id plant))
               (Some (Detection.method plantDetection)))
    end.

(** [addPlant]; [newFuse] builds the index as in [initializeFuzzySearch],
    and [savePlantData] writes a file and swallows its errors. *)
Definition addPlant (newFuse : list Plant.t -> Q -> string -> list FuseResult.t)
  (plantData : Plant.t) : M unit :=
  let* _ := pushPlant plantData in
  let* catalog := read plants in
  let* cfg := read config in
  assignFuse (newFuse catalog (Config.fuzzyThreshold (Config.diagnosis cfg))).

(** A computation that reads the engine and nothing else: its result is a
    function of the three fields, and it leaves the state as it is. *)
Definition readsOnly {A} (m : M A) (result : PlantDiagnosisEngine -> option A)
  : Prop :=
  forall w, m w = (result (this w), w).

(** The state after [diagnose] has been called on each text in turn. *)
Definition afterDiagnoses (inputs : list string) (w : World) : World :=
  fold_left (fun w inputText => snd (diagnose inputText w)) inputs w.

End Stateful.

(** ** Catalog administration *)

Section Administration.

(** [new Fuse(plants, { keys, threshold, ... })], as the search function of
    the index it builds; Fuse.js is outside the sources. *)
Variable newFuse : list Plant.t -> Q -> string -> list FuseResult.t.

Definition initializeFuzzySearch (cfg : Config.t) (catalog : list Plant.t)
  : string -> list FuseResult.t :=
  newFuse catalog (Config.fuzzyThreshold (Config.diagnosis cfg)).

(** [addPlant]: the record is pushed at the end of the catalog and the index
    is built again.  [savePlantData] then writes the catalog to its file and
    swallows any error, which leaves the engine as it is. *)
Definition addPlant (this : PlantDiagnosisEngine) (plantData : Plant.t)
  : PlantDiagnosisEngine :=
  let catalog := (plants this ++ [plantData])%list in
  mkEngine (config this) catalog (initializeFuzzySearch (config this) catalog).

End Administration.

(** ** The interaction logger

    The class [Logger] keeps the last interactions in memory and, when
    logging to files is enabled, appends them to the log file of the day.
    The file system is outside the model: the entries read from the log file
    are a parameter of [loadTodayLogs], and writing the file changes nothing
    below.  The counters of [getLogStats] are plain objects used as maps,
    so a key that names a member of [Object.prototype] finds the inherited
    member.  The sum and the quotient of [getLogStats] are the binary64
    operations. *)

Module LogEntry.
Record t := mk {
  timestamp : string;
  originalInput : option string;
  detectedPlant : option string;
  plantName : string;
  plantMatchScore : Q;
  detectionMethod : option string;
  diagnoses : list Diagnosis.t
}.
End LogEntry.

(** An own member of a counter object: a count, or, under a key that names
    an inherited function, the text that [(counts[key] || 0) + 1] makes of
    it: the text of the function [member] followed by [ones] characters
    1. *)
Module Counter.
Inductive t :=
| Count (n : nat)
| Text (member : string) (ones : nat).
End Counter.

Module LogStats.
Record t := mk {
  totalInteractions : nat;
  plantsDetected : gmap string Counter.t;
  averageConfidence : Q;
  mostCommonIssues : gmap string Counter.t
}.
End LogStats.

Module Logger.

(** [this.config.logging.enabled], [this.logsDir] ([null] is [None]) and
    [this.memoryLogs]. *)
Record t := mk {
  loggingEnabled : bool;
  logsDir : option string;
  memoryLogs : list LogEntry.t
}.

(** [this.maxMemoryLogs], set once by the constructor. *)
Definition maxMemoryLogs : nat := 250.

(** The state the constructor leaves: no entry in memory. *)
Definition create (enabled : bool) (directory : option string) : t :=
  mk enabled directory [].

(** [!this.config.logging.enabled || !this.logsDir] *)
Definition memoryOnly (this : t) : bool :=
  negb (loggingEnabled this) ||
  match logsDir this with
  | None => true
  | Some directory => String.eqb directory ""
  end.

(** The object [logEntry] built by [logInteraction]. *)
Definition entryOf (diagnosisResult : DiagnosisResult.t) : LogEntry.t :=
  LogEntry.mk
    (DiagnosisResult.timestamp diagnosisResult)
    (DiagnosisResult.originalInput diagnosisResult)
    (DiagnosisResult.detectedPlant diagnosisResult)
    (DiagnosisResult.plantName diagnosisResult)
    (DiagnosisResult.plantMatchScore diagnosisResult)
    (DiagnosisResult.detectionMethod diagnosisResult)
    (map (fun d => Diagnosis.mk (Diagnosis.cause d) (Diagnosis.confidence d)
                                (Diagnosis.why d) (Diagnosis.actions d)
                                (Diagnosis.eco_tip d))
         (DiagnosisResult.diagnoses diagnosisResult)).

(** [logInteraction], on the state of the logger: the entry is pushed on
    [memoryLogs] and the oldest entry is shifted out once there are more than
    [maxMemoryLogs]. *)
Definition logInteraction (this : t) (diagnosisResult : DiagnosisResult.t) : t :=
  let logs := (memoryLogs this ++ [entryOf diagnosisResult])%list in
  mk (loggingEnabled this) (logsDir this)
     (if (maxMemoryLogs <? length logs)%nat then tl logs else logs).

(** A run of calls of [logInteraction]. *)
Definition logAll (this : t) (results : list DiagnosisResult.t) : t :=
  fold_left logInteraction results this.

(** [loadTodayLogs]; [fileLogs] is the content of the log file of the day,
    [None] when there is none or it cannot be read. *)
Definition loadTodayLogs (this : t) (fileLogs : option (list LogEntry.t))
  : list LogEntry.t :=
  if memoryOnly this then memoryLogs this else default [] fileLogs.

(** The names of the members of [Object.prototype]. *)
Definition objectPrototypeMembers : list string :=
  [ "constructor"; "__defineGetter__"; "__defineSetter__"; "hasOwnProperty";
    "__lookupGetter__"; "__lookupSetter__"; "isPrototypeOf"; "propertyIsEnumerable";
    "toString"; "valueOf"; "__proto__"; "toLocaleString" ].

(** [counts[key] = (counts[key] || 0) + 1].  An own count is incremented,
    and an own text gets a 1 appended.  Without an own member the read
    falls through to [Object.prototype]: under [__proto__] it finds the
    prototype, and the assignment of the resulting text to [__proto__] is
    ignored; under the name of an inherited function it finds the function,
    and the text of the function followed by 1 becomes an own member; under
    any other key it finds nothing and the count 1 is stored. *)
Definition countUp (counts : gmap string Counter.t) (key : string)
  : gmap string Counter.t :=
  match counts !! key with
  | Some (Counter.Count n) => <[key := Counter.Count (n + 1)]> counts
  | Some (Counter.Text member ones) => <[key := Counter.Text member (ones + 1)]> counts
  | None =>
      if String.eqb key "__proto__" then counts
      else if JS.arrayIncludes objectPrototypeMembers key
           then <[key := Counter.Text key 1]> counts
           else <[key := Counter.Count 1]> counts
  end.

(** [Math.max(...log.diagnoses.map(d => d.confidence))] on a log with at
    least one diagnosis. *)
Definition maxConfidence (first : Diagnosis.t) (others : list Diagnosis.t) : Q :=
  fold_left JS.Math_max (map Diagnosis.confidence others) (Diagnosis.confidence first).

(** The body of the [forEach] of [getLogStats]; the state is
    [(stats.plantsDetected, totalConfidence, stats.mostCommonIssues)]. *)
Definition statsStep (state : gmap string Counter.t * Q * gmap string Counter.t)
  (log : LogEntry.t) : gmap string Counter.t * Q * gmap string Counter.t :=
  let '(plantsDetected, totalConfidence, mostCommonIssues) := state in
  (countUp plantsDetected (LogEntry.plantName log),
   match LogEntry.diagnoses log with
   | [] => totalConfidence
   | first :: others => Binary64.add totalConfidence (maxConfidence first others)
   end,
   fold_left (fun issues diagnosis => countUp issues (Cause.id (Diagnosis.cause diagnosis)))
             (LogEntry.diagnoses log) mostCommonIssues).

(** The statistics over the loaded entries. *)
Definition statsOf (logs : list LogEntry.t) : LogStats.t :=
  if (length logs =? 0)%nat then LogStats.mk (length logs) ∅ 0 ∅
  else
    let '(plantsDetected, totalConfidence, mostCommonIssues) :=
      fold_left statsStep logs (∅, 0, ∅) in
    LogStats.mk (length logs) plantsDetected
                (Binary64.div totalConfidence (JS.num (length logs))) mostCommonIssues.

Definition getLogStats (this : t) (fileLogs : option (list LogEntry.t)) : LogStats.t :=
  statsOf (loadTodayLogs this fileLogs).

End Logger.

(** ** The diagnosis endpoint

    The handler of [api/diagnose.js].  The request is its method and its
    body; the response is the status and the JSON document sent.  The
    instances that [getEngine()] and [getLogger()] of [api/_shared.js] hand
    out are given as they are at the request, [None] when the constructor
    throws (the plant data cannot be loaded).  [JSON.parse] is a function
    from the text to the value, [None] for a [SyntaxError]. *)

Module Api.

(** The values of a request body.  An object is the list of its members,
    looked up from the front. *)
#[local] Unset Elimination Schemes.
Inductive value :=
| VUndefined
| VNull
| VBoolean (b : bool)
| VNumber (n : Q)
| VString (s : string)
| VArray (items : list value)
| VObject (members : list (string * value)).
#[local] Set Elimination Schemes.

Record Request := mkRequest {
  method : string;
  body : value
}.

(** [res.status(status).json({ error, message })] and
    [res.status(200).json(result)]. *)
Inductive Reply :=
| ErrorReply (status : Z) (error message : string)
| ResultReply (result : DiagnosisResult.t).

Definition statusOf (reply : Reply) : Z :=
  match reply with
  | ErrorReply status _ _ => status
  | ResultReply _ => 200%Z
  end.

Definition methodNotAllowed : Reply :=
  ErrorReply 405%Z "method_not_allowed" "Use POST to analyze plant data.".

Definition invalidJson : Reply :=
  ErrorReply 400%Z "invalid_json" "Unable to parse request body as JSON.".

Definition invalidInput : Reply :=
  ErrorReply 400%Z "invalid_input" "Provide a text field describing your plant condition.".

Definition internalError : Reply :=
  ErrorReply 500%Z "internal_error" "Failed to process diagnosis request.".

(** [payload?.text]: only an object can have the member; no prototype of
    the other values defines [text]. *)
Definition textOf (payload : value) : value :=
  match payload with
  | VObject members =>
      match find (fun member => String.eqb (fst member) "text") members with
      | Some member => snd member
      | None => VUndefined
      end
  | _ => VUndefined
  end.

(** The text that passes [!text || typeof text !== 'string']. *)
Definition acceptedText (text : value) : option string :=
  match text with
  | VString s => if String.eqb s "" then None else Some s
  | _ => None
  end.

(** What [loadTodayLogs] returns to a logger that writes to files: the
    entries of [Logger.loadTodayLogs], or the content of a file of the day
    that holds JSON other than an array. *)
Inductive DayFile :=
| Entries (fileLogs : option (list LogEntry.t))
| NotAnArray.

Section Handler.

Variable JSON_parse : string -> option value.
Variable getEngine : option PlantDiagnosisEngine.
Variable getLogger : option Logger.t.
Variable dayFile : DayFile.
Variable now : string.

(** [payload] after the [typeof payload === 'string'] step; [None] is the
    caught [SyntaxError]. *)
Definition payloadOf (requestBody : value) : option value :=
  match requestBody with
  | VString s => JSON_parse s
  | payload => Some payload
  end.

(** [logs.push(logEntry)] of [logInteraction] throws when the logger writes
    to files and the file of the day does not hold an array. *)
Definition logThrows (logger : Logger.t) : bool :=
  negb (Logger.memoryOnly logger) &&
  match dayFile with
  | NotAnArray => true
  | Entries _ => false
  end.

(** The handler: the reply, and the logger as the request leaves it.  The
    entry is pushed on [memoryLogs] before the file of the day is read, so
    it stays in memory when the write throws. *)
Definition handler (req : Request) : Reply * option Logger.t :=
  if negb (String.eqb (method req) "POST") then (methodNotAllowed, getLogger)
  else
    match payloadOf (body req) with
    | None => (invalidJson, getLogger)
    | Some payload =>
        match acceptedText (textOf payload) with
        | None => (invalidInput, getLogger)
        | Some text =>
            match getEngine, getLogger with
            | Some engine, Some logger =>
                match diagnose engine now text with
                | Some result =>
                    let logged := Logger.logInteraction logger result in
                    if logThrows logger then (internalError, Some logged)
                    else (ResultReply result, Some logged)
                | None => (internalError, Some logger)
                end
            | _, _ => (internalError, getLogger)
            end
        end
    end.

End Handler.

End Api.

(** ** Notions used to state further properties *)

Module Notion.

(** A string without the space character. *)
Fixpoint noSpace (s : string) : bool :=
  match s with
  | EmptyString => true
  | String c s' => negb (Ascii.eqb c " ") && noSpace s'
  end.

(** The plant has an alias of more than 2 characters whose lower-cased form
    occurs in the lower-cased input. *)
Definition aliasOccurs (inputText : string) (plant : Plant.t) : Prop :=
  Exists (fun alias =>
            (2 < String.length (JS.toLowerCase alias))%nat /\
            Spec.isSubstring (JS.toLowerCase alias) (JS.toLowerCase inputText))
         (Plant.aliases plant).

(** The index has a hit whose distance is below the configured threshold,
    both as binary64 values. *)
Definition fuzzyHit (this : PlantDiagnosisEngine) (inputText : string) : Prop :=
  exists best rest,
    fuse this inputText = best :: rest /\
    Binary64.lit (FuseResult.score best)
    < Binary64.lit (Config.fuzzyThreshold (Config.diagnosis (config this))).

(** The number of entries under a plant name, and of logged diagnoses under
    a cause id. *)
Definition entriesOf (plantName : string) (logs : list LogEntry.t) : nat :=
  length (List.filter (fun log => String.eqb (LogEntry.plantName log) plantName) logs).

Definition diagnosesOf (causeId : string) (logs : list LogEntry.t) : nat :=
  length (List.filter (fun d => String.eqb (Cause.id (Diagnosis.cause d)) causeId)
                      (flat_map LogEntry.diagnoses logs)).

(** What a counter object holds under a key after [count] increments: no
    member for a count of zero and under [__proto__], a text under the name
    of an inherited function, the count under any other key. *)
Definition shownAs (key : string) (count : nat) : option Counter.t :=
  match count with
  | O => None
  | _ =>
      if String.eqb key "__proto__" then None
      else if JS.arrayIncludes Logger.objectPrototypeMembers key
           then Some (Counter.Text key count)
           else Some (Counter.Count count)
  end.

(** The largest confidence of an entry, 0 for an entry without diagnoses. *)
Definition topConfidence (log : LogEntry.t) : Q :=
  match LogEntry.diagnoses log with
  | [] => 0
  | first :: others => Logger.maxConfidence first others
  end.

(** The largest confidences of the entries that have a diagnosis, added
    up from the first to the last. *)
Definition totalTopConfidence (logs : list LogEntry.t) : Q :=
  fold_left Binary64.add
            (map topConfidence
                 (List.filter (fun log => negb (length (LogEntry.diagnoses log) =? 0)%nat)
                              logs))
            0.

(** The two conditions above as tests, to evaluate them on given lists. *)
Definition unitConfidences (logs : list LogEntry.t) : bool :=
  forallb (fun log =>
             forallb (fun d => Qle_bool 0 (Diagnosis.confidence d) &&
                               Qle_bool (Diagnosis.confidence d) 1)
                     (LogEntry.diagnoses log))
          logs.

Fixpoint descending (ds : list Diagnosis.t) : bool :=
  match ds with
  | [] => true
  | d :: ds' =>
      forallb (fun later => Qle_bool (Diagnosis.confidence later) (Diagnosis.confidence d)) ds'
      && descending ds'
  end.

(** Sorted by confidence, largest first. *)
Definition byConfidence (ds : list Diagnosis.t) : Prop :=
  StronglySorted (fun a b => Diagnosis.confidence b <= Diagnosis.confidence a) ds.

End Notion.

(** ** Further engines and values to evaluate on *)

Module Fixture.

(** The sample catalog with inputs cut at 8 characters. *)
Definition shortInputEngine : PlantDiagnosisEngine :=
  mkEngine (Config.mk (Config.mkDiagnosis 0.3 3 0.4 0.6 0.6) (Config.mkUi "friendly-sassy" 8))
           Sample.catalog Sample.noHits.

(** The sample catalog with a negative [maxInputLength]. *)
Definition negativeInputEngine : PlantDiagnosisEngine :=
  mkEngine (Config.mk (Config.mkDiagnosis 0.3 3 0.4 0.6 0.6) (Config.mkUi "friendly-sassy" (-1)))
           Sample.catalog Sample.noHits.

(** The sample catalog behind an index that offers the tulsi record at a
    distance of 0.25 for every input. *)
Definition fuzzyEngine : PlantDiagnosisEngine :=
  mkEngine Config.defaults Sample.catalog
           (fun inputText => [FuseResult.mk Sample.tulsi 0.25]).

(** A record with an empty name, put in front of the sample catalog. *)
Definition blankPlant : Plant.t :=
  Plant.mk "unnamed" "" [] (Some ["leaf curl"]) [] ∅ "".

Definition blankEngine : PlantDiagnosisEngine :=
  mkEngine Config.defaults (blankPlant :: Sample.catalog) Sample.noHits.

(** An index constructor whose indexes have no hits. *)
Definition emptyIndex (catalog : list Plant.t) (threshold : Q) (inputText : string)
  : list FuseResult.t := [].

(** A record whose name occurs in the holy-basil alias of the tulsi record. *)
Definition basilPlant : Plant.t :=
  Plant.mk "basil" "Basil" ["sweet basil"] (Some ["black spots"]) [] ∅ "".

(** The first cause of the snake plant record. *)
Definition overwatering : Cause.t :=
  Cause.mk "overwatering" "Overwatering" (Some ["yellow"; "mushy"; "soggy soil"]).

(** A second record with the id [generic]. *)
Definition secondGeneric : Plant.t :=
  Plant.mk "generic" "Fallback" [] (Some ["wilting"]) [] ∅ "".

(** The result of the sample engine on "yellow and dry soil". *)
Definition yellowDryResult : DiagnosisResult.t :=
  default (emptyInputResult "")
          (diagnose Sample.engine "2024-01-01T00:00:00.000Z" "yellow and dry soil").

(** The first diagnosis of that result. *)
Definition yellowDryFirst : Diagnosis.t :=
  hd emptyInputDiagnosis (DiagnosisResult.diagnoses yellowDryResult).

(** Three logged interactions: two diagnoses, no diagnosis, the sentinel of
    the empty input. *)
Definition sampleLogs : list LogEntry.t :=
  [ Logger.entryOf yellowDryResult;
    Logger.entryOf
      (default (emptyInputResult "")
               (diagnose Sample.engine "2024-01-01T00:00:01.000Z" "my tulsi has curl"));
    Logger.entryOf (emptyInputResult "2024-01-01T00:00:02.000Z") ].

(** The JSON text of an object with the member [text], and a [JSON.parse]
    that accepts this one document. *)
Definition quote : string := String (Ascii.Ascii false true false false false true false false) "".

Definition yellowDocument : string :=
  "{" +:+ quote +:+ "text" +:+ quote +:+ ":" +:+ quote +:+ "yellow and dry soil" +:+ quote +:+ "}".

Definition parseYellow (s : string) : option Api.value :=
  if String.eqb s yellowDocument
  then Some (Api.VObject [("text", Api.VString "yellow and dry soil")])
  else None.

(** Requests: a description sent as text to parse, and a blank description
    in a body that is an object already. *)
Definition yellowRequest : Api.Request :=
  Api.mkRequest "POST" (Api.VString yellowDocument).

Definition blankRequest : Api.Request :=
  Api.mkRequest "POST" (Api.VObject [("text", Api.VString "   ")]).

(** The symptom matches of the snake plant input in binary64
    arithmetic. *)
Definition snakeSymptoms64 : list SymptomMatch.t :=
  default [] (Binary64.extractSymptoms Sample.engine
                                       "My snake plant has yellow mushy leaves"
                                       Sample.snakePlant).

(** A log entry without diagnoses under a given plant name, and one with a
    single diagnosis of confidence 1.0. *)
Definition namedEntry (plantName : string) : LogEntry.t :=
  LogEntry.mk "2024-01-01T00:00:00.000Z" None None plantName 0 None [].

Definition certainEntry : LogEntry.t :=
  LogEntry.mk "2024-01-01T00:00:00.000Z" None None "Tulsi" 1 None
              [ Diagnosis.mk overwatering 1 "" [] "" ].

End Fixture.

(** ** Facts about the built-ins *)

Example splitWhiteSpace_ex :
  JS.splitWhiteSpace "  my snake	plant " = [""; "my"; "snake"; "plant"; ""].
Proof. reflexivity. Qed.

Example splitSpace_ex : JS.splitSpace "a  b " = ["a"; ""; "b"; ""].
Proof. reflexivity. Qed.

Example trim_ex : JS.trim "  a b  " = "a b" /\ JS.trim "   " = "".
Proof. split; reflexivity. Qed.

Example includes_ex :
  JS.includes "yellow leaves" "low le" = true /\
  JS.includes "abc" "" = true /\ JS.includes "abc" "abd" = false.
Proof. repeat split; reflexivity. Qed.

Example sort_ex :
  JS.sort (fun a b => snd b - snd a) [("a", 0.3); ("b", 1.0); ("c", 0.3); ("d", 0.5)]
  = [("b", 1.0); ("d", 0.5); ("a", 0.3); ("c", 0.3)].
Proof. reflexivity. Qed.

Example unique_ex : JS.unique ["a"; "b"; "a"; "c"; "b"] = ["a"; "b"; "c"].
Proof. vm_compute. reflexivity. Qed.

Lemma gt_true (a b : Q) : JS.gt a b = true <-> b < a.
Proof.
  unfold JS.gt. rewrite negb_true_iff, <- not_true_iff_false, Qle_bool_iff.
  split; [apply Qnot_le_lt | apply Qlt_not_le].
Qed.

Lemma ge_true (a b : Q) : JS.ge a b = true <-> b <= a.
Proof. unfold JS.ge. apply Qle_bool_iff. Qed.

Lemma num_nonneg (n : nat) : 0 <= JS.num n.
Proof.
  unfold JS.num. change 0 with (inject_Z 0). rewrite <- Zle_Qle. lia.
Qed.

Lemma num_le (n m : nat) : (n <= m)%nat -> JS.num n <= JS.num m.
Proof. intros H. unfold JS.num. rewrite <- Zle_Qle. lia. Qed.

Lemma num_succ (n : nat) : JS.num (S n) == JS.num n + 1.
Proof.
  unfold JS.num. rewrite Nat2Z.inj_succ, <- Z.add_1_r, inject_Z_plus. reflexivity.
Qed.

Lemma num_pos (n : nat) : (0 < n)%nat -> 0 < JS.num n.
Proof.
  intros H. unfold JS.num. change 0 with (inject_Z 0). rewrite <- Zlt_Qlt. lia.
Qed.

(** *** Strings *)

Lemma trimStart_allWhiteSpace (s : string) :
  Spec.allWhiteSpace (JS.trimStart s) = Spec.allWhiteSpace s.
Proof.
  induction s as [|c s IH]; simpl; [reflexivity|].
  destruct (JS.isWhiteSpace c) eqn:Hc; simpl.
  - exact IH.
  - rewrite Hc. reflexivity.
Qed.

Lemma trimEnd_empty_iff (s : string) :
  JS.trimEnd s = EmptyString <-> Spec.allWhiteSpace s = true.
Proof.
  induction s as [|c s IH]; simpl; [tauto|].
  destruct (JS.trimEnd s) eqn:Ht.
  - destruct (JS.isWhiteSpace c); simpl.
    + tauto.
    + split; discriminate.
  - split; [discriminate|]. intros H.
    apply andb_true_iff in H as [_ H]. apply IH in H. discriminate.
Qed.

Lemma trim_empty_iff (s : string) :
  JS.trim s = EmptyString <-> Spec.allWhiteSpace s = true.
Proof.
  unfold JS.trim. rewrite trimEnd_empty_iff, trimStart_allWhiteSpace. tauto.
Qed.

Lemma string_length_zero (s : string) : String.length s = 0%nat <-> s = EmptyString.
Proof. destruct s; simpl; split; intros H; congruence. Qed.

(** The guard of [diagnose] is the white-space test. *)
Lemma blank_guard (s : string) :
  String.eqb s "" || (String.length (JS.trim s) =? 0)%nat = Spec.allWhiteSpace s.
Proof.
  apply eq_true_iff_eq. rewrite orb_true_iff, Nat.eqb_eq, string_length_zero.
  rewrite trim_empty_iff, String.eqb_eq. split; [|tauto].
  intros [->|H]; [reflexivity|exact H].
Qed.

Lemma append_cons (c : ascii) (s t : string) : String c s +:+ t = String c (s +:+ t).
Proof. reflexivity. Qed.

Lemma append_empty (t : string) : EmptyString +:+ t = t.
Proof. reflexivity. Qed.

Lemma prefix_spec (p s : string) :
  String.prefix p s = true <-> exists post, s = p +:+ post.
Proof.
  revert s. induction p as [|c p IH]; intros [|d s]; simpl.
  - split; [intros _; exists EmptyString; reflexivity | reflexivity].
  - split; [intros _; exists (String d s); reflexivity | reflexivity].
  - split; [discriminate | intros [post H]; discriminate].
  - destruct (ascii_dec c d) as [->|Hne].
    + rewrite IH. split; intros [post H]; exists post;
        rewrite append_cons in *; congruence.
    + split; [discriminate|]. intros [post H]. rewrite append_cons in H. congruence.
Qed.

Lemma includes_empty (sub : string) :
  JS.includes EmptyString sub = String.prefix sub EmptyString.
Proof. unfold JS.includes. apply orb_false_r. Qed.

Lemma includes_cons (c : ascii) (s sub : string) :
  JS.includes (String c s) sub = String.prefix sub (String c s) || JS.includes s sub.
Proof. reflexivity. Qed.

Lemma includes_spec (s sub : string) :
  JS.includes s sub = true <-> Spec.isSubstring sub s.
Proof.
  unfold Spec.isSubstring. induction s as [|c s IH].
  - rewrite includes_empty, prefix_spec. split.
    + intros [post H]. exists EmptyString, post. exact H.
    + intros [pre [post H]]. destruct pre; [exists post; exact H | discriminate].
  - rewrite includes_cons, orb_true_iff, prefix_spec, IH. split.
    + intros [[post H]|[pre [post H]]].
      * exists EmptyString, post. exact H.
      * exists (String c pre), post. rewrite append_cons. congruence.
    + intros [pre [post H]]. destruct pre as [|d pre].
      * left. exists post. exact H.
      * right. exists pre, post. rewrite append_cons in H. congruence.
Qed.

Lemma consFirst_nonempty (c : ascii) (pieces : list string) : JS.consFirst c pieces <> [].
Proof. destruct pieces; discriminate. Qed.

Lemma splitWhiteSpace_nonempty (s : string) : JS.splitWhiteSpace s <> [].
Proof.
  induction s as [|c s IH]; simpl; [discriminate|].
  destruct (JS.isWhiteSpace c); [|apply consFirst_nonempty].
  destruct (JS.startsWithWhiteSpace s); [exact IH | discriminate].
Qed.

(** *** Arrays *)

Lemma slice0_sublist {A} (l : list A) (e : Z) : JS.slice0 l e `sublist_of` l.
Proof. unfold JS.slice0. destruct (e <? 0)%Z; apply sublist_take. Qed.

Lemma slice0_elem_of {A} (l : list A) (e : Z) (x : A) : x ∈ JS.slice0 l e -> x ∈ l.
Proof. apply sublist_subseteq, slice0_sublist. Qed.

Lemma slice0_length {A} (l : list A) (e : Z) :
  (0 <= e)%Z -> (Z.of_nat (length (JS.slice0 l e)) <= e)%Z.
Proof.
  intros He. unfold JS.slice0. destruct (Z.ltb_spec e 0); [lia|].
  rewrite length_take. lia.
Qed.

Lemma slice0_single {A} (x : A) (e : Z) : (1 <= e)%Z -> JS.slice0 [x] e = [x].
Proof.
  intros He. unfold JS.slice0. destruct (Z.ltb_spec e 0); [lia|].
  destruct (Z.to_nat e) as [|n] eqn:Hn; [lia | destruct n; reflexivity].
Qed.

Lemma sublist_StronglySorted {A} (R : A -> A -> Prop) (l1 l2 : list A) :
  l1 `sublist_of` l2 -> StronglySorted R l2 -> StronglySorted R l1.
Proof.
  induction 1 as [|x l1 l2 Hsub IH|x l1 l2 Hsub IH]; intros Hs.
  - constructor.
  - apply StronglySorted_inv in Hs as [Hs Hx]. constructor; [apply IH, Hs|].
    rewrite Forall_forall in *. intros y Hy. apply Hx.
    eapply sublist_subseteq; eassumption.
  - apply StronglySorted_inv in Hs as [Hs _]. apply IH, Hs.
Qed.

Lemma find_first {A} (f : A -> bool) (l : list A) (x : A) :
  find f l = Some x ->
  exists before after,
    l = (before ++ x :: after)%list /\ f x = true /\ Forall (fun y => f y = false) before.
Proof.
  induction l as [|y l IH]; simpl; [discriminate|].
  destruct (f y) eqn:Hy.
  - intros [= ->]. exists [], l. repeat split; [exact Hy | constructor].
  - intros H. destruct (IH H) as (before & after & -> & Hx & Hb).
    exists (y :: before), after. repeat split; [exact Hx | constructor; assumption].
Qed.

Lemma find_exists {A} (f : A -> bool) (l : list A) (y : A) :
  y ∈ l -> f y = true -> exists x, find f l = Some x.
Proof.
  intros Hin Hy. destruct (find f l) as [x|] eqn:Hf; [exists x; reflexivity|].
  apply list_elem_of_In in Hin.
  rewrite (find_none f l Hf y Hin) in Hy. discriminate.
Qed.

(** *** Sorting by a numeric key, largest first *)

Lemma insertBy_Permutation {A} (cmp : A -> A -> Q) (x : A) (l : list A) :
  JS.insertBy cmp x l ≡ₚ x :: l.
Proof.
  induction l as [|y l IH]; simpl; [reflexivity|].
  destruct (Qle_bool (cmp x y)); [reflexivity|].
  rewrite IH. apply Permutation_swap.
Qed.

Lemma sort_Permutation {A} (cmp : A -> A -> Q) (l : list A) : JS.sort cmp l ≡ₚ l.
Proof.
  induction l as [|x l IH]; simpl; [reflexivity|].
  rewrite insertBy_Permutation, IH. reflexivity.
Qed.

Lemma sort_elem_of {A} (cmp : A -> A -> Q) (l : list A) (x : A) :
  x ∈ JS.sort cmp l <-> x ∈ l.
Proof. rewrite sort_Permutation. reflexivity. Qed.

Lemma sort_length {A} (cmp : A -> A -> Q) (l : list A) :
  length (JS.sort cmp l) = length l.
Proof. rewrite sort_Permutation. reflexivity. Qed.

Lemma insertBy_sorted {A} (key : A -> Q) (x : A) (l : list A) :
  StronglySorted (fun a b => key b <= key a) l ->
  StronglySorted (fun a b => key b <= key a) (JS.insertBy (fun a b => key b - key a) x l).
Proof.
  induction 1 as [|y l Hs IH Hy]; simpl; [repeat constructor|].
  destruct (Qle_bool (key y - key x)) eqn:Hc.
  - apply Qle_bool_iff in Hc. constructor; [constructor; assumption|].
    constructor; [lra|].
    rewrite Forall_forall in *. intros z Hz. specialize (Hy z Hz). lra.
  - assert (key x < key y) as Hlt.
    { apply Qnot_le_lt. intros Hle.
      assert (Qle_bool (key y - key x) 0 = true) as Ht by (apply Qle_bool_iff; lra).
      congruence. }
    constructor; [exact IH|].
    rewrite Forall_forall in *. intros z Hz.
    rewrite insertBy_Permutation in Hz. apply elem_of_cons in Hz as [->|Hz].
    + lra.
    + apply Hy, Hz.
Qed.

Lemma sort_sorted {A} (key : A -> Q) (l : list A) :
  StronglySorted (fun a b => key b <= key a) (JS.sort (fun a b => key b - key a) l).
Proof.
  induction l as [|x l IH]; simpl; [constructor|].
  apply insertBy_sorted, IH.
Qed.

(** *** Keeping the first element of every key *)

Lemma keepFirstBy_sublist {A} (key : A -> string) (seen : gset string) (l : list A) :
  JS.keepFirstBy key seen l `sublist_of` l.
Proof.
  revert seen. induction l as [|x l IH]; intros seen; simpl; [constructor|].
  destruct (bool_decide (key x ∈ seen)); [apply sublist_cons | apply sublist_skip]; apply IH.
Qed.

Lemma keepFirstBy_unseen {A} (key : A -> string) (seen : gset string) (l : list A) (x : A) :
  x ∈ JS.keepFirstBy key seen l -> key x ∉ seen.
Proof.
  revert seen. induction l as [|y l IH]; intros seen; simpl; [intros H; inversion H|].
  case_bool_decide as Hy.
  - apply IH.
  - intros H. apply elem_of_cons in H as [->|H]; [exact Hy|].
    apply IH in H. set_solver.
Qed.

Lemma keepFirstBy_NoDup {A} (key : A -> string) (seen : gset string) (l : list A) :
  NoDup (key <$> JS.keepFirstBy key seen l).
Proof.
  revert seen. induction l as [|x l IH]; intros seen; simpl; [constructor|].
  case_bool_decide as Hx; [apply IH|].
  rewrite fmap_cons. constructor; [|apply IH].
  intros Hin. apply list_elem_of_fmap in Hin as (y & Hk & Hy).
  apply keepFirstBy_unseen in Hy. set_solver.
Qed.

(** An element that is kept is the first of its key in the array. *)
Lemma keepFirstBy_first {A} (key : A -> string) (seen : gset string) (l : list A) (x : A) :
  x ∈ JS.keepFirstBy key seen l ->
  exists before after,
    l = (before ++ x :: after)%list /\ Forall (fun y => key y <> key x) before.
Proof.
  revert seen. induction l as [|y l IH]; intros seen; simpl; [intros H; inversion H|].
  case_bool_decide as Hy.
  - intros H. pose proof (keepFirstBy_unseen _ _ _ _ H) as Hx.
    destruct (IH _ H) as (before & after & -> & Hb).
    exists (y :: before), after. split; [reflexivity|].
    constructor; [congruence | exact Hb].
  - intros H. apply elem_of_cons in H as [->|H].
    + exists [], l. split; [reflexivity | constructor].
    + pose proof (keepFirstBy_unseen _ _ _ _ H) as Hx.
      destruct (IH _ H) as (before & after & -> & Hb).
      exists (y :: before), after. split; [reflexivity|].
      constructor; [set_solver | exact Hb].
Qed.

(** *** The pieces of a split at white space *)

Lemma isSubstring_refl (s : string) : Spec.isSubstring s s.
Proof.
  exists EmptyString, EmptyString. rewrite append_empty.
  induction s as [|c s IH]; [reflexivity|]. rewrite append_cons, <- IH. reflexivity.
Qed.

Lemma isSubstring_empty (s : string) : Spec.isSubstring EmptyString s.
Proof. exists EmptyString, s. reflexivity. Qed.

Lemma isSubstring_skip (c : ascii) (sub s : string) :
  Spec.isSubstring sub s -> Spec.isSubstring sub (String c s).
Proof.
  intros (pre & post & ->). exists (String c pre), post. reflexivity.
Qed.

Lemma append_assoc (a b c : string) : (a +:+ b) +:+ c = a +:+ (b +:+ c).
Proof.
  induction a as [|x a IH]; [reflexivity|]. rewrite !append_cons, IH. reflexivity.
Qed.

Lemma isSubstring_trans (a b c : string) :
  Spec.isSubstring a b -> Spec.isSubstring b c -> Spec.isSubstring a c.
Proof.
  intros (pre1 & post1 & ->) (pre2 & post2 & ->).
  exists (pre2 +:+ pre1), (post1 +:+ post2).
  rewrite !append_assoc. reflexivity.
Qed.

Lemma prefix_isSubstring (p s : string) :
  String.prefix p s = true -> Spec.isSubstring p s.
Proof.
  intros H. apply prefix_spec in H as [post ->]. exists EmptyString, post. reflexivity.
Qed.

(** An occurrence of [sub] in [String c s] starts at the first character
    or lies in [s]. *)
Lemma isSubstring_cons_inv (c : ascii) (sub s : string) :
  Spec.isSubstring sub (String c s) ->
  String.prefix sub (String c s) = true \/ Spec.isSubstring sub s.
Proof.
  intros H. apply includes_spec in H. rewrite includes_cons in H.
  apply orb_true_iff in H as [H|H]; [left; exact H | right; apply includes_spec, H].
Qed.

Lemma splitWhiteSpace_cons (c : ascii) (s : string) :
  JS.splitWhiteSpace (String c s)
  = if JS.isWhiteSpace c then
      if JS.startsWithWhiteSpace s then JS.splitWhiteSpace s
      else EmptyString :: JS.splitWhiteSpace s
    else JS.consFirst c (JS.splitWhiteSpace s).
Proof. reflexivity. Qed.

(** The first piece of a split is the longest prefix without white space:
    it is a prefix of the string, and every prefix without white space is a
    prefix of it. *)
Lemma first_piece_leading_space (s : string) :
  JS.startsWithWhiteSpace s = true -> hd EmptyString (JS.splitWhiteSpace s) = EmptyString.
Proof.
  induction s as [|c s IH]; [discriminate|]. intros Hc. simpl in Hc.
  rewrite splitWhiteSpace_cons, Hc.
  destruct (JS.startsWithWhiteSpace s); [apply IH; reflexivity | reflexivity].
Qed.

Lemma first_piece_prefix (s : string) :
  String.prefix (hd EmptyString (JS.splitWhiteSpace s)) s = true.
Proof.
  induction s as [|c s IH]; [reflexivity|].
  destruct (JS.isWhiteSpace c) eqn:Hc.
  - rewrite (first_piece_leading_space (String c s) Hc). reflexivity.
  - rewrite splitWhiteSpace_cons, Hc.
    destruct (JS.splitWhiteSpace s) as [|w ws]; simpl in *.
    + destruct (ascii_dec c c); [|congruence]. destruct s; reflexivity.
    + destruct (ascii_dec c c); [exact IH | congruence].
Qed.

Lemma first_piece_longest (u s : string) :
  Spec.noWhiteSpace u = true ->
  String.prefix u s = true ->
  String.prefix u (hd EmptyString (JS.splitWhiteSpace s)) = true.
Proof.
  revert s. induction u as [|d u IH]; intros s Hu Hp.
  - destruct (hd _ _); reflexivity.
  - destruct s as [|c s]; [discriminate|]. simpl in Hp, Hu.
    destruct (ascii_dec d c) as [->|]; [|discriminate].
    apply andb_true_iff in Hu as [Hc Hu]. apply negb_true_iff in Hc.
    rewrite splitWhiteSpace_cons, Hc. specialize (IH s Hu Hp).
    destruct (JS.splitWhiteSpace s) as [|w ws]; simpl in *.
    + destruct (ascii_dec c c); [|congruence]. destruct u; [reflexivity | discriminate].
    + destruct (ascii_dec c c); [exact IH | congruence].
Qed.

(** Every piece is free of white space and occurs in the string. *)
Lemma splitWhiteSpace_pieces (s : string) :
  Forall (fun w => Spec.noWhiteSpace w = true /\ Spec.isSubstring w s) (JS.splitWhiteSpace s).
Proof.
  induction s as [|c s IH].
  - repeat constructor. apply isSubstring_refl.
  - assert (Forall (fun w => Spec.noWhiteSpace w = true /\ Spec.isSubstring w (String c s))
                   (JS.splitWhiteSpace s)) as IH'.
    { eapply Forall_impl; [exact IH|]. intros w [Hw Hs].
      split; [exact Hw | apply isSubstring_skip, Hs]. }
    rewrite splitWhiteSpace_cons. destruct (JS.isWhiteSpace c) eqn:Hc.
    + destruct (JS.startsWithWhiteSpace s); [exact IH'|].
      constructor; [|exact IH']. split; [reflexivity | apply isSubstring_empty].
    + pose proof (first_piece_prefix s) as Hfirst.
      pose proof (splitWhiteSpace_nonempty s) as Hne.
      destruct (JS.splitWhiteSpace s) as [|w ws]; [congruence|]. simpl in Hfirst |- *.
      apply Forall_cons in IH as [[Hw _] _]. apply Forall_cons in IH' as [_ IH'].
      constructor; [|exact IH']. split; [simpl; rewrite Hc, Hw; reflexivity|].
      apply prefix_isSubstring. simpl. destruct (ascii_dec c c); [exact Hfirst | congruence].
Qed.

(** A run without white space that occurs in the string occurs in one of
    its pieces. *)
Lemma splitWhiteSpace_covers (u s : string) :
  Spec.noWhiteSpace u = true ->
  Spec.isSubstring u s ->
  Exists (fun w => Spec.isSubstring u w) (JS.splitWhiteSpace s).
Proof.
  intros Hu. induction s as [|c s IH]; intros Hs.
  - apply Exists_cons_hd. exact Hs.
  - apply isSubstring_cons_inv in Hs as [Hp|Hs].
    + pose proof (first_piece_longest u (String c s) Hu Hp) as Hfirst.
      pose proof (splitWhiteSpace_nonempty (String c s)) as Hne.
      destruct (JS.splitWhiteSpace (String c s)) as [|w ws]; [congruence|].
      apply Exists_cons_hd. apply prefix_isSubstring. exact Hfirst.
    + specialize (IH Hs). rewrite splitWhiteSpace_cons.
      destruct (JS.isWhiteSpace c).
      * destruct (JS.startsWithWhiteSpace s); [exact IH | apply Exists_cons_tl, IH].
      * destruct (JS.splitWhiteSpace s) as [|w ws]; [inversion IH|]. simpl.
        apply Exists_cons in IH as [IH|IH].
        -- apply Exists_cons_hd. apply isSubstring_skip, IH.
        -- apply Exists_cons_tl, IH.
Qed.

(** A name that occurs verbatim in the input is contained word by word. *)
Lemma verbatim_nameContained (inputText : string) (plant : Plant.t) :
  Spec.isSubstring (JS.toLowerCase (Plant.name plant)) (JS.toLowerCase inputText) ->
  Spec.nameContained inputText plant.
Proof.
  intros Hverbatim. unfold Spec.nameContained.
  eapply Forall_impl; [apply splitWhiteSpace_pieces|].
  intros nameWord [Hfree Hin]. simpl.
  eapply Exists_impl; [|intros word Hword; right; exact Hword].
  apply splitWhiteSpace_covers; [exact Hfree|].
  eapply isSubstring_trans; eassumption.
Qed.

(** ** Rounding to binary64 *)

Lemma pow2_pos (e : Z) : 0 < 2 ^ e.
Proof. apply Qpower_0_lt. reflexivity. Qed.

Lemma pow2_le (a b : Z) : (a <= b)%Z -> 2 ^ a <= 2 ^ b.
Proof. intros H. apply Qpower_le_compat_l; [exact H|]. discriminate. Qed.

Lemma pow2_lt (a b : Z) : (a < b)%Z -> 2 ^ a < 2 ^ b.
Proof. intros H. apply Qpower_lt_compat_l; [exact H|]. reflexivity. Qed.

Lemma pow2_lt_inv (a b : Z) : 2 ^ a < 2 ^ b -> (a < b)%Z.
Proof. intros H. apply (Qpower_lt_compat_l_inv 2); [exact H|]. reflexivity. Qed.

Lemma pow2_add (a b : Z) : 2 ^ (a + b) == 2 ^ a * 2 ^ b.
Proof. apply Qpower_plus. discriminate. Qed.

Lemma pow2_opp (a : Z) : 2 ^ (- a) == / 2 ^ a.
Proof. apply Qpower_opp. Qed.

Lemma pow2_cancel (a : Z) : 2 ^ a * 2 ^ (- a) == 1.
Proof. rewrite <- pow2_add, Z.add_opp_diag_r. reflexivity. Qed.

Lemma pow2_Z (a : Z) : (0 <= a)%Z -> inject_Z (2 ^ a) == 2 ^ a.
Proof. intros H. rewrite Zpower_Qpower by exact H. reflexivity. Qed.

Lemma log2_bounds (n : Z) :
  (0 < n)%Z -> 2 ^ Z.log2 n <= inject_Z n /\ inject_Z n < 2 ^ (Z.log2 n + 1).
Proof.
  intros Hn. destruct (Z.log2_spec n Hn) as [Hlow Hhigh].
  pose proof (Z.log2_nonneg n) as Hnonneg. split.
  - rewrite <- pow2_Z by exact Hnonneg. rewrite <- Zle_Qle. exact Hlow.
  - rewrite <- pow2_Z by lia. rewrite <- Zlt_Qlt. exact Hhigh.
Qed.

Lemma floorLog2_spec (x : Q) :
  0 < x -> 2 ^ Binary64.floorLog2 x <= x /\ x < 2 ^ (Binary64.floorLog2 x + 1).
Proof.
  intros Hx. destruct x as [n d]. unfold Binary64.floorLog2. cbn [Qnum Qden].
  assert (0 < n)%Z as Hn by (unfold Qlt in Hx; simpl in Hx; lia).
  destruct (log2_bounds n Hn) as [Hnl Hnh].
  destruct (log2_bounds (Zpos d) eq_refl) as [Hdl Hdh].
  set (a := Z.log2 n) in *. set (b := Z.log2 (Zpos d)) in *.
  assert (n # d == inject_Z n / inject_Z (Zpos d)) as Hq by apply Qmake_Qdiv.
  assert (0 < inject_Z (Zpos d)) as Hd by reflexivity.
  pose proof (pow2_pos b) as Hb. pose proof (pow2_pos (a - b)) as Hk.
  assert (2 ^ a == 2 ^ (a - b) * 2 ^ b) as Ha.
  { rewrite <- pow2_add. replace (a - b + b)%Z with a by lia. reflexivity. }
  assert (2 ^ (a - b + 1) == 2 * 2 ^ (a - b)) as Hk1.
  { rewrite pow2_add. change (2 ^ 1) with 2. ring. }
  assert (2 ^ (a - b - 1) == 2 ^ (a - b) / 2) as Hk0.
  { replace (a - b - 1)%Z with (a - b + (-1))%Z by lia. rewrite pow2_add.
    change (2 ^ (-1)) with (/ 2). reflexivity. }
  assert (2 ^ (a + 1) == 2 * 2 ^ a) as Ha1.
  { rewrite pow2_add. change (2 ^ 1) with 2. ring. }
  assert (2 ^ (b + 1) == 2 * 2 ^ b) as Hb1.
  { rewrite pow2_add. change (2 ^ 1) with 2. ring. }
  rewrite Ha1 in Hnh. rewrite Hb1 in Hdh. rewrite Ha in Hnl, Hnh.
  set (p := 2 ^ (a - b)) in *. set (q := 2 ^ b) in *.
  set (N := inject_Z n) in *. set (D := inject_Z (Zpos d)) in *.
  assert (n # d < 2 * p) as Hupper.
  { rewrite Hq. apply Qlt_shift_div_r; [exact Hd|]. nra. }
  assert (p / 2 <= n # d) as Hlower.
  { rewrite Hq. apply Qle_shift_div_l; [exact Hd|]. 
    unfold Qdiv. change (/ 2) with (1 # 2). nra. }
  destruct (Qle_bool p (n # d)) eqn:Htest.
  - apply Qle_bool_iff in Htest. split; [exact Htest|]. rewrite Hk1. exact Hupper.
  - split; [rewrite Hk0; exact Hlower|].
    replace (a - b - 1 + 1)%Z with (a - b)%Z by lia. fold p.
    apply Qnot_le_lt. intros Hle. apply Qle_bool_iff in Hle. congruence.
Qed.

Lemma floorLog2_unique (x : Q) (e : Z) :
  2 ^ e <= x -> x < 2 ^ (e + 1) -> Binary64.floorLog2 x = e.
Proof.
  intros Hlow Hhigh.
  assert (0 < x) as Hx by (pose proof (pow2_pos e); lra).
  destruct (floorLog2_spec x Hx) as [Hl Hh].
  assert (Binary64.floorLog2 x < e + 1)%Z by (apply pow2_lt_inv; lra).
  assert (e < Binary64.floorLog2 x + 1)%Z by (apply pow2_lt_inv; lra).
  lia.
Qed.

Lemma floorLog2_le (x y : Q) : 0 < x -> x <= y -> (Binary64.floorLog2 x <= Binary64.floorLog2 y)%Z.
Proof.
  intros Hx Hxy. destruct (floorLog2_spec x Hx) as [Hl _].
  destruct (floorLog2_spec y ltac:(lra)) as [_ Hh].
  assert (Binary64.floorLog2 x < Binary64.floorLog2 y + 1)%Z by (apply pow2_lt_inv; lra).
  lia.
Qed.

Lemma floorLog2_eq (x y : Q) : 0 < x -> x == y -> Binary64.floorLog2 x = Binary64.floorLog2 y.
Proof.
  intros Hx Hxy. destruct (floorLog2_spec x Hx) as [Hl Hh].
  symmetry. apply floorLog2_unique; rewrite <- Hxy; assumption.
Qed.

Lemma ulpExponent_le (x y : Q) : 0 < x -> x <= y -> (Binary64.ulpExponent x <= Binary64.ulpExponent y)%Z.
Proof.
  intros Hx Hxy. unfold Binary64.ulpExponent. pose proof (floorLog2_le x y Hx Hxy). lia.
Qed.

(** *** Rounding to an integer *)

Lemma roundHalfEven_eq (x y : Q) : x == y -> Binary64.roundHalfEven x = Binary64.roundHalfEven y.
Proof.
  intros Hxy. unfold Binary64.roundHalfEven. rewrite (Qfloor_comp x y Hxy).
  replace (Qcompare (x - inject_Z (Qfloor y)) (1 # 2))
    with (Qcompare (y - inject_Z (Qfloor y)) (1 # 2)); [reflexivity|].
  apply Qcompare_comp; [rewrite Hxy|]; reflexivity.
Qed.

Lemma roundHalfEven_Z (z : Z) : Binary64.roundHalfEven (inject_Z z) = z.
Proof.
  unfold Binary64.roundHalfEven. rewrite Qfloor_Z.
  replace (Qcompare (inject_Z z - inject_Z z) (1 # 2)) with Lt; [reflexivity|].
  symmetry. apply Qlt_alt. setoid_replace (inject_Z z - inject_Z z) with 0 using relation Qeq by ring.
  reflexivity.
Qed.

Lemma roundHalfEven_bounds (x : Q) :
  (Qfloor x <= Binary64.roundHalfEven x <= Qfloor x + 1)%Z.
Proof.
  unfold Binary64.roundHalfEven. destruct (Qcompare _ _); [destruct (Z.even _)| |]; lia.
Qed.

Lemma roundHalfEven_le (x y : Q) : x <= y -> (Binary64.roundHalfEven x <= Binary64.roundHalfEven y)%Z.
Proof.
  intros Hxy. pose proof (Qfloor_resp_le x y Hxy) as Hfloor.
  destruct (Z.eq_dec (Qfloor x) (Qfloor y)) as [Hsame|Hdiff].
  - unfold Binary64.roundHalfEven. rewrite Hsame.
    destruct (Qcompare_spec (x - inject_Z (Qfloor y)) (1 # 2)) as [Hx|Hx|Hx];
      destruct (Qcompare_spec (y - inject_Z (Qfloor y)) (1 # 2)) as [Hy|Hy|Hy];
      try (destruct (Z.even (Qfloor y))); try lia; exfalso; lra.
  - pose proof (roundHalfEven_bounds x). pose proof (roundHalfEven_bounds y). lia.
Qed.

(** *** Rounding to binary64 *)

Lemma roundMagnitude_eq (x y : Q) : 0 < x -> x == y -> Binary64.roundMagnitude x = Binary64.roundMagnitude y.
Proof.
  intros Hx Hxy. unfold Binary64.roundMagnitude, Binary64.ulpExponent.
  rewrite (floorLog2_eq x y Hx Hxy).
  set (e := Z.max _ _). apply Qred_complete.
  rewrite (roundHalfEven_eq (x * 2 ^ (- e)) (y * 2 ^ (- e))); [reflexivity|].
  rewrite Hxy. reflexivity.
Qed.

Lemma roundMagnitude_value (x : Q) :
  Binary64.roundMagnitude x
  == inject_Z (Binary64.roundHalfEven (x * 2 ^ (- Binary64.ulpExponent x))) * 2 ^ Binary64.ulpExponent x.
Proof. unfold Binary64.roundMagnitude. apply Qred_correct. Qed.

Lemma roundMagnitude_le (x y : Q) :
  0 < x -> x <= y -> Binary64.roundMagnitude x <= Binary64.roundMagnitude y.
Proof.
  intros Hx Hxy. rewrite !roundMagnitude_value.
  pose proof (ulpExponent_le x y Hx Hxy) as He.
  set (ex := Binary64.ulpExponent x) in *. set (ey := Binary64.ulpExponent y) in *.
  pose proof (pow2_pos ex) as Hpx. pose proof (pow2_pos ey) as Hpy.
  pose proof (pow2_pos (- ex)) as Hnx. pose proof (pow2_pos (- ey)) as Hny.
  destruct (Z.eq_dec ex ey) as [Hsame|Hdiff].
  - rewrite <- Hsame.
    assert (Binary64.roundHalfEven (x * 2 ^ (- ex)) <= Binary64.roundHalfEven (y * 2 ^ (- ex)))%Z as Hm.
    { apply roundHalfEven_le. nra. }
    rewrite Zle_Qle in Hm. nra.
  - assert (ex < ey)%Z as Hlt by lia.
    assert (ey = Binary64.floorLog2 y - 52)%Z as Hey by (unfold ey, Binary64.ulpExponent in *; lia).
    assert (Binary64.floorLog2 x - 52 <= ex)%Z as Hex by (unfold ex, Binary64.ulpExponent; lia).
    destruct (floorLog2_spec x Hx) as [_ Hxh].
    destruct (floorLog2_spec y ltac:(lra)) as [Hyl _].
    (* x * 2^-ex < 2^53 *)
    assert (x * 2 ^ (- ex) <= inject_Z (2 ^ 53)) as Hxm.
    { rewrite pow2_Z by lia.
      assert (2 ^ (Binary64.floorLog2 x + 1) <= 2 ^ (53 + ex)) by (apply pow2_le; lia).
      rewrite (pow2_add 53 ex) in H. pose proof (pow2_cancel ex) as Hc.
      set (P := 2 ^ 53) in *. set (A := 2 ^ ex) in *. set (B := 2 ^ (- ex)) in *.
      assert (x * B <= P * A * B) as Hs by (apply Qmult_le_compat_r; lra).
      setoid_replace (P * A * B) with (P * (A * B)) using relation Qeq in Hs by ring.
      rewrite Hc in Hs. lra. }
    assert (inject_Z (2 ^ 52) <= y * 2 ^ (- ey)) as Hym.
    { rewrite pow2_Z by lia.
      assert (2 ^ (52 + ey) <= 2 ^ Binary64.floorLog2 y) by (apply pow2_le; lia).
      rewrite (pow2_add 52 ey) in H. pose proof (pow2_cancel ey) as Hc.
      set (P := 2 ^ 52) in *. set (A := 2 ^ ey) in *. set (B := 2 ^ (- ey)) in *.
      assert (P * A * B <= y * B) as Hs by (apply Qmult_le_compat_r; lra).
      setoid_replace (P * A * B) with (P * (A * B)) using relation Qeq in Hs by ring.
      rewrite Hc in Hs. lra. }
    apply roundHalfEven_le in Hxm, Hym. rewrite roundHalfEven_Z in Hxm, Hym.
    rewrite Zle_Qle in Hxm, Hym. rewrite pow2_Z in Hxm, Hym by lia.
    assert (2 ^ 53 * 2 ^ ex <= 2 ^ 52 * 2 ^ ey) as Hstep.
    { rewrite <- !pow2_add. apply pow2_le. lia. }
    set (mx := inject_Z (Binary64.roundHalfEven (x * 2 ^ (- ex)))) in *.
    set (my := inject_Z (Binary64.roundHalfEven (y * 2 ^ (- ey)))) in *.
    set (P53 := 2 ^ 53) in *. set (P52 := 2 ^ 52) in *.
    apply Qle_trans with (P53 * 2 ^ ex).
    { apply Qmult_le_compat_r; lra. }
    apply Qle_trans with (P52 * 2 ^ ey); [exact Hstep|].
    apply Qmult_le_compat_r; lra.
Qed.

Lemma roundMagnitude_zero (x : Q) : x == 0 -> Binary64.roundMagnitude x = 0.
Proof.
  intros Hx. unfold Binary64.roundMagnitude. set (e := Binary64.ulpExponent x).
  rewrite (roundHalfEven_eq (x * 2 ^ (- e)) (inject_Z 0)) by (rewrite Hx; ring).
  rewrite roundHalfEven_Z. change 0 with (Qred 0). apply Qred_complete. ring.
Qed.

Lemma roundMagnitude_nonneg (x : Q) : 0 <= x -> 0 <= Binary64.roundMagnitude x.
Proof.
  intros Hx. rewrite roundMagnitude_value. set (e := Binary64.ulpExponent x).
  pose proof (pow2_pos e). pose proof (pow2_pos (- e)).
  assert (0 <= Binary64.roundHalfEven (x * 2 ^ (- e)))%Z as Hm.
  { rewrite <- (roundHalfEven_Z 0). apply roundHalfEven_le.
    change (inject_Z 0) with 0. apply Qmult_le_0_compat; lra. }
  rewrite Zle_Qle in Hm. apply Qmult_le_0_compat; [exact Hm | lra].
Qed.



Lemma round64_le (x y : Q) : x <= y -> Binary64.round64 x <= Binary64.round64 y.
Proof.
  intros Hxy. unfold Binary64.round64.
  destruct (Qcompare_spec x 0) as [Hx|Hx|Hx];
    destruct (Qcompare_spec y 0) as [Hy|Hy|Hy]; try (exfalso; lra).
  - rewrite (roundMagnitude_zero x Hx), (roundMagnitude_zero y Hy). lra.
  - rewrite (roundMagnitude_zero x Hx). apply roundMagnitude_nonneg. lra.
  - rewrite (roundMagnitude_zero y Hy).
    pose proof (roundMagnitude_nonneg (- x)). lra.
  - pose proof (roundMagnitude_le (- y) (- x)). lra.
  - pose proof (roundMagnitude_nonneg (- x)). pose proof (roundMagnitude_nonneg y). lra.
  - apply roundMagnitude_le; assumption.
Qed.

Lemma round64_upper (x c : Q) : Binary64.representable c -> x <= c -> Binary64.round64 x <= c.
Proof.
  intros Hc Hx. unfold Binary64.representable in Hc.
  apply Qle_trans with (Binary64.round64 c); [apply round64_le, Hx | rewrite Hc; apply Qle_refl].
Qed.

Lemma round64_lower (x c : Q) : Binary64.representable c -> c <= x -> c <= Binary64.round64 x.
Proof.
  intros Hc Hx. unfold Binary64.representable in Hc.
  apply Qle_trans with (Binary64.round64 c); [rewrite Hc; apply Qle_refl | apply round64_le, Hx].
Qed.


Lemma floorLog2_scaled (m e : Z) :
  (0 < m)%Z -> Binary64.floorLog2 (inject_Z m * 2 ^ e) = (Z.log2 m + e)%Z.
Proof.
  intros Hm. destruct (log2_bounds m Hm) as [Hl Hh]. pose proof (pow2_pos e).
  apply floorLog2_unique.
  - rewrite pow2_add. apply Qmult_le_compat_r; lra.
  - replace (Z.log2 m + e + 1)%Z with (Z.log2 m + 1 + e)%Z by lia.
    rewrite pow2_add. apply Qmult_lt_compat_r; lra.
Qed.

Lemma roundMagnitude_scaled (m e : Z) :
  (0 <= m <= 2 ^ 53)%Z -> (-1074 <= e)%Z ->
  Binary64.roundMagnitude (inject_Z m * 2 ^ e) == inject_Z m * 2 ^ e.
Proof.
  intros Hm He. destruct (Z.eq_dec m 0%Z) as [->|Hnz].
  { rewrite (roundMagnitude_zero (inject_Z 0 * 2 ^ e)) by ring. ring. }
  rewrite roundMagnitude_value. unfold Binary64.ulpExponent.
  rewrite floorLog2_scaled by lia.
  assert (Z.log2 m <= 53)%Z as Hlog.
  { change 53%Z with (Z.log2 (2 ^ 53)). apply Z.log2_le_mono. lia. }
  set (E := Z.max (Z.log2 m + e - 52) (-1074)).
  assert (exists k, (0 <= k)%Z /\ inject_Z m * 2 ^ e * 2 ^ (- E) == inject_Z k) as (k & Hk & Hscaled).
  { destruct (Z.eq_dec (Z.log2 m) 53%Z) as [Htop|Hlow].
    - assert (m = 2 ^ 53)%Z as ->.
      { destruct (Z.log2_spec m) as [Hl _]; [lia|]. rewrite Htop in Hl. lia. }
      assert (E = e + 1)%Z as -> by (unfold E; rewrite Htop; lia).
      exists (2 ^ 52)%Z. split; [lia|].
      rewrite !pow2_Z by lia. rewrite <- !pow2_add.
      match goal with |- 2 ^ ?a == _ => replace a with 52%Z by lia end. reflexivity.
    - assert (E <= e)%Z as HE by (unfold E; lia).
      exists (m * 2 ^ (e - E))%Z. split; [apply Z.mul_nonneg_nonneg; lia|].
      rewrite inject_Z_mult, pow2_Z by lia.
      setoid_replace (inject_Z m * 2 ^ e * 2 ^ (- E)) with (inject_Z m * (2 ^ e * 2 ^ (- E))) using relation Qeq
        by ring.
      rewrite <- pow2_add. replace (e + - E)%Z with (e - E)%Z by lia. reflexivity. }
  rewrite (roundHalfEven_eq _ _ Hscaled), roundHalfEven_Z, <- Hscaled.
  setoid_replace (inject_Z m * 2 ^ e * 2 ^ (- E) * 2 ^ E)
    with (inject_Z m * 2 ^ e * (2 ^ E * 2 ^ (- E))) using relation Qeq by ring.
  rewrite pow2_cancel. ring.
Qed.

Lemma representable_Z (n : Z) :
  (Z.abs n <= 2 ^ 53)%Z -> Binary64.representable (inject_Z n).
Proof.
  assert (forall m, (0 <= m <= 2 ^ 53)%Z ->
                    Binary64.roundMagnitude (inject_Z m) == inject_Z m) as Hpos.
  { intros m Hm. pose proof (roundMagnitude_scaled m 0 Hm ltac:(lia)) as Hs.
    change (2 ^ 0) with 1 in Hs.
    destruct (Z.eq_dec m 0%Z) as [->|Hnz].
    { rewrite (roundMagnitude_zero (inject_Z 0)); reflexivity. }
    rewrite (roundMagnitude_eq (inject_Z m) (inject_Z m * 1)).
    - rewrite Hs. ring.
    - rewrite <- (Zlt_Qlt 0). lia.
    - ring. }
  intros Hn. unfold Binary64.representable, Binary64.round64.
  destruct (Qcompare_spec (inject_Z n) 0) as [Hz|Hz|Hz].
  - rewrite (roundMagnitude_zero _ Hz). symmetry. exact Hz.
  - assert (n < 0)%Z as Hneg by (rewrite Zlt_Qlt; exact Hz).
    rewrite <- inject_Z_opp, Hpos by lia. rewrite inject_Z_opp. ring.
  - assert (0 < n)%Z as Hp by (rewrite Zlt_Qlt; exact Hz).
    apply Hpos. lia.
Qed.

Lemma round64_nonneg (x : Q) : 0 <= x -> 0 <= Binary64.round64 x.
Proof. apply round64_lower. apply (representable_Z 0). simpl. lia. Qed.






Lemma lit_one : Binary64.lit 1.0 = 1.
Proof. vm_compute. reflexivity. Qed.

Lemma representable_one : Binary64.representable 1.
Proof. apply (representable_Z 1). simpl. lia. Qed.

Lemma Math_min_left (a b : Q) : a <= b -> JS.Math_min a b = a.
Proof.
  intros Hab. unfold JS.Math_min, Qmin, GenericMinMax.gmin.
  destruct (Qcompare_spec a b) as [H|H|H]; try reflexivity. exfalso. lra.
Qed.

(** ** Plant detection *)

Lemma wordFound_spec (words : list string) (phraseWord : string) :
  existsb (fun word => String.eqb word phraseWord || JS.includes word phraseWord) words = true
  <-> Exists (fun word => word = phraseWord \/ Spec.isSubstring phraseWord word) words.
Proof.
  induction words as [|w words IH]; simpl.
  - rewrite Exists_nil. split; [discriminate | tauto].
  - rewrite Exists_cons, !orb_true_iff, IH, String.eqb_eq, includes_spec. tauto.
Qed.

Lemma everyWordFound_spec (words phraseWords : list string) :
  everyWordFound words phraseWords = true
  <-> Forall (fun phraseWord =>
                Exists (fun word => word = phraseWord \/ Spec.isSubstring phraseWord word) words)
             phraseWords.
Proof.
  unfold everyWordFound. induction phraseWords as [|pw pws IH]; simpl.
  - split; [constructor | reflexivity].
  - rewrite Forall_cons, andb_true_iff, IH, wordFound_spec. tauto.
Qed.

Lemma plantNameMatch_spec (inputText : string) (plant : Plant.t) :
  plantNameMatch (JS.splitWhiteSpace (JS.toLowerCase inputText)) plant = true
  <-> Spec.nameContained inputText plant.
Proof.
  unfold plantNameMatch, Spec.nameContained.
  rewrite andb_true_iff, everyWordFound_spec. split; [tauto|].
  intros H. split; [exact H|].
  pose proof (splitWhiteSpace_nonempty (JS.toLowerCase (Plant.name plant))) as Hne.
  destruct (JS.splitWhiteSpace (JS.toLowerCase (Plant.name plant))); [congruence | reflexivity].
Qed.

(** C7. When the input contains the full name of some plant of the catalog,
    verbatim or word by word (every word of the lower-cased name equals, or
    is a substring of, a word of the lower-cased input), [detectPlant]
    answers with method [plant_name_match] and score 1.0, whatever the
    aliases and the fuzzy index say, and the plant it returns is the first
    one of the catalog whose name is contained. *)
Theorem detectPlant_exact_name (this : PlantDiagnosisEngine) (inputText : string)
  (candidate : Plant.t) :
  candidate ∈ plants this ->
  Spec.isSubstring (JS.toLowerCase (Plant.name candidate)) (JS.toLowerCase inputText) \/
  Spec.nameContained inputText candidate ->
  exists before plant after,
    plants this = (before ++ plant :: after)%list /\
    Spec.nameContained inputText plant /\
    Forall (fun earlier => ~ Spec.nameContained inputText earlier) before /\
    detectPlant this inputText = Detection.mk (Some plant) 1.0 "plant_name_match".
Proof.
  intros Hin Hname.
  assert (Spec.nameContained inputText candidate) as Hwords.
  { destruct Hname as [Hverbatim|Hwords]; [apply verbatim_nameContained, Hverbatim|].
    exact Hwords. }
  apply plantNameMatch_spec in Hwords.
  destruct (find_exists _ _ _ Hin Hwords) as [plant Hfind].
  destruct (find_first _ _ _ Hfind) as (before & after & Hsplit & Hplant & Hbefore).
  exists before, plant, after. split; [exact Hsplit|].
  split; [apply plantNameMatch_spec, Hplant|]. split.
  - eapply Forall_impl; [exact Hbefore|]. intros earlier Hfalse Hcontained.
    apply plantNameMatch_spec in Hcontained. congruence.
  - unfold detectPlant. rewrite Hfind. reflexivity.
Qed.

Lemma detectPlant_exact_name_witness :
  Sample.snakePlant ∈ plants Sample.engine /\
  Spec.isSubstring (JS.toLowerCase (Plant.name Sample.snakePlant))
                   (JS.toLowerCase "My snake plant has yellow mushy leaves") /\
  exists before plant after,
    plants Sample.engine = (before ++ plant :: after)%list /\
    Spec.nameContained "My snake plant has yellow mushy leaves" plant /\
    Forall (fun earlier =>
              ~ Spec.nameContained "My snake plant has yellow mushy leaves" earlier) before /\
    detectPlant Sample.engine "My snake plant has yellow mushy leaves"
    = Detection.mk (Some plant) 1.0 "plant_name_match".
Proof.
  assert (Sample.snakePlant ∈ plants Sample.engine) as Hin.
  { apply list_elem_of_In. simpl. left. reflexivity. }
  assert (Spec.isSubstring (JS.toLowerCase (Plant.name Sample.snakePlant))
                           (JS.toLowerCase "My snake plant has yellow mushy leaves"))
    as Hname.
  { apply includes_spec. vm_compute. reflexivity. }
  split; [exact Hin|]. split; [exact Hname|].
  exact (detectPlant_exact_name Sample.engine "My snake plant has yellow mushy leaves"
                                Sample.snakePlant Hin (or_introl Hname)).
Defined.

(** The same through [diagnose]: the result reports the method and the
    score of the detection. *)
Example diagnose_exact_name_sample :
  exists r,
    diagnose Sample.engine "2024-01-01T00:00:00.000Z" "My snake plant has yellow mushy leaves"
    = Some r /\
    DiagnosisResult.detectedPlant r = Some "snake_plant" /\
    DiagnosisResult.detectionMethod r = Some "plant_name_match" /\
    DiagnosisResult.plantMatchScore r = 1.0.
Proof.
  eexists. split; [vm_compute; reflexivity|]. repeat split; reflexivity.
Qed.

(** An input that names no plant falls back to the generic record. *)
Example diagnose_generic_fallback_sample :
  exists r,
    diagnose Sample.engine "2024-01-01T00:00:00.000Z" "My plant is not looking good" = Some r /\
    DiagnosisResult.detectedPlant r = Some "generic" /\
    DiagnosisResult.detectionMethod r = Some "generic_fallback" /\
    DiagnosisResult.plantMatchScore r = 0.1.
Proof.
  eexists. split; [vm_compute; reflexivity|]. repeat split; reflexivity.
Qed.

(** With a generic record in the catalog [detectPlant] always names a
    plant. *)
Lemma detectPlant_plant_defined (this : PlantDiagnosisEngine) (inputText : string) :
  Spec.catalogReady this = true ->
  exists plant, Detection.plant (detectPlant this inputText) = Some plant.
Proof.
  intros Hready. unfold Spec.catalogReady in Hready.
  assert (exists g, Detection.plant (genericFallback this) = Some g) as Hfallback.
  { unfold genericFallback. simpl. destruct (findGeneric this) as [g|]; [eauto | discriminate]. }
  unfold detectPlant.
  destruct (find _ (plants this)) as [plant|]; [eexists; reflexivity|].
  destruct (find _ (plants this)) as [plant|]; [eexists; reflexivity|].
  destruct (fuse this inputText) as [|best rest]; [exact Hfallback|].
  destruct (JS.lt _ _); [eexists; reflexivity | exact Hfallback].
Qed.

(** ** Symptom extraction *)

Lemma matchSymptoms_weight (text : string) (plantSymptoms allSymptoms : list string)
  (m : SymptomMatch.t) :
  m ∈ matchSymptoms text plantSymptoms allSymptoms ->
  0.2 < SymptomMatch.weight m /\ SymptomMatch.weight m <= 1.0.
Proof.
  unfold matchSymptoms. rewrite list_elem_of_In, in_flat_map.
  intros (symptom & _ & Hm).
  destruct (scoreSymptom text symptom) as [matchScore matchType].
  destruct (JS.gt matchScore 0.2) eqn:Hgt; [|destruct Hm].
  apply gt_true in Hgt. destruct Hm as [<-|[]]. simpl. unfold JS.Math_min. split.
  - apply Q.min_glb_lt; [exact Hgt | reflexivity].
  - apply Q.le_min_r.
Qed.

Lemma extractSymptoms_defined (this : PlantDiagnosisEngine) (inputText : string)
  (plant : Plant.t) :
  Spec.catalogReady this = true ->
  exists genericPlant genericSymptoms,
    findGeneric this = Some genericPlant /\
    Plant.symptoms genericPlant = Some genericSymptoms /\
    extractSymptoms this inputText plant
    = Some (JS.slice0
              (JS.keepFirstBy SymptomMatch.symptom ∅
                 (JS.sort byWeightDescending
                    (matchSymptoms (JS.toLowerCase inputText)
                       (default [] (Plant.symptoms plant))
                       (default [] (Plant.symptoms plant) ++ genericSymptoms))))
              10).
Proof.
  unfold Spec.catalogReady, extractSymptoms. intros Hready.
  destruct (findGeneric this) as [genericPlant|]; [|discriminate].
  destruct (Plant.symptoms genericPlant) as [genericSymptoms|] eqn:Hgs; [|discriminate].
  exists genericPlant, genericSymptoms.
  split; [reflexivity|]. split; [exact Hgs | reflexivity].
Qed.

(** C6. With a generic record in the catalog, [extractSymptoms] returns a
    list of at most 10 entries, sorted by weight from the largest down, with
    no symptom text twice, every weight above 0.2 and at most 1.0; each
    entry is one of the matched candidates and no candidate with the same
    symptom text has a larger weight. *)
Theorem extractSymptoms_contract (this : PlantDiagnosisEngine) (inputText : string)
  (plant : Plant.t) :
  Spec.catalogReady this = true ->
  exists genericPlant genericSymptoms result,
    findGeneric this = Some genericPlant /\
    Plant.symptoms genericPlant = Some genericSymptoms /\
    extractSymptoms this inputText plant = Some result /\
    (length result <= 10)%nat /\
    StronglySorted (fun a b => SymptomMatch.weight b <= SymptomMatch.weight a) result /\
    NoDup (SymptomMatch.symptom <$> result) /\
    Forall (fun m => 0.2 < SymptomMatch.weight m /\ SymptomMatch.weight m <= 1.0) result /\
    let candidates :=
      matchSymptoms (JS.toLowerCase inputText)
                    (default [] (Plant.symptoms plant))
                    (default [] (Plant.symptoms plant) ++ genericSymptoms) in
    Forall (fun m =>
              m ∈ candidates /\
              forall m', m' ∈ candidates ->
                         SymptomMatch.symptom m' = SymptomMatch.symptom m ->
                         SymptomMatch.weight m' <= SymptomMatch.weight m)
           result.
Proof.
  intros Hready.
  destruct (extractSymptoms_defined this inputText plant Hready)
    as (genericPlant & genericSymptoms & Hg & Hgs & Hex).
  exists genericPlant, genericSymptoms. eexists. split; [exact Hg|].
  split; [exact Hgs|]. split; [exact Hex|].
  set (candidates := matchSymptoms _ _ _).
  set (sorted := JS.sort byWeightDescending candidates).
  set (unique := JS.keepFirstBy SymptomMatch.symptom ∅ sorted).
  assert (StronglySorted (fun a b => SymptomMatch.weight b <= SymptomMatch.weight a) sorted)
    as Hsorted by apply (sort_sorted SymptomMatch.weight).
  assert (unique `sublist_of` sorted) as Hunique by apply keepFirstBy_sublist.
  assert (JS.slice0 unique 10 `sublist_of` unique) as Hslice by apply slice0_sublist.
  assert (forall m, m ∈ JS.slice0 unique 10 -> m ∈ candidates) as Hcand.
  { intros m Hm. apply (sort_elem_of byWeightDescending).
    eapply sublist_subseteq; [exact Hunique|].
    eapply sublist_subseteq; [exact Hslice | exact Hm]. }
  split.
  { pose proof (slice0_length unique 10). lia. }
  split.
  { eapply sublist_StronglySorted; [exact Hslice|].
    eapply sublist_StronglySorted; [exact Hunique | exact Hsorted]. }
  split.
  { apply (sublist_NoDup _ (SymptomMatch.symptom <$> unique)).
    - apply keepFirstBy_NoDup.
    - exact (fmap_sublist SymptomMatch.symptom _ _ Hslice). }
  split.
  { apply Forall_forall. intros m Hm. eapply matchSymptoms_weight, Hcand, Hm. }
  apply Forall_forall. intros m Hm. split; [apply Hcand, Hm|].
  intros m' Hm' Hsame.
  assert (m ∈ unique) as Hkept by (eapply sublist_subseteq; [exact Hslice | exact Hm]).
  destruct (keepFirstBy_first _ _ _ _ Hkept) as (before & after & Hsplit & Hbefore).
  apply (sort_elem_of byWeightDescending) in Hm'. fold sorted in Hm'.
  rewrite Hsplit in Hm', Hsorted.
  apply elem_of_app in Hm' as [Hm'|Hm'].
  - rewrite Forall_forall in Hbefore. destruct (Hbefore m' Hm' Hsame).
  - apply StronglySorted_app_1_r in Hsorted.
    apply elem_of_cons in Hm' as [->|Hm']; [apply Qle_refl|].
    apply StronglySorted_cons in Hsorted as [Hall _].
    rewrite Forall_forall in Hall. apply Hall, Hm'.
Qed.

Lemma extractSymptoms_contract_witness :
  Spec.catalogReady Sample.engine = true /\
  exists genericPlant genericSymptoms result,
    findGeneric Sample.engine = Some genericPlant /\
    Plant.symptoms genericPlant = Some genericSymptoms /\
    extractSymptoms Sample.engine "My snake plant has yellow mushy leaves" Sample.snakePlant
    = Some result /\
    (length result <= 10)%nat /\
    StronglySorted (fun a b => SymptomMatch.weight b <= SymptomMatch.weight a) result /\
    NoDup (SymptomMatch.symptom <$> result) /\
    Forall (fun m => 0.2 < SymptomMatch.weight m /\ SymptomMatch.weight m <= 1.0) result /\
    let candidates :=
      matchSymptoms (JS.toLowerCase "My snake plant has yellow mushy leaves")
                    (default [] (Plant.symptoms Sample.snakePlant))
                    (default [] (Plant.symptoms Sample.snakePlant) ++ genericSymptoms) in
    Forall (fun m =>
              m ∈ candidates /\
              forall m', m' ∈ candidates ->
                         SymptomMatch.symptom m' = SymptomMatch.symptom m ->
                         SymptomMatch.weight m' <= SymptomMatch.weight m)
           result.
Proof.
  split; [reflexivity|].
  apply (extractSymptoms_contract Sample.engine "My snake plant has yellow mushy leaves"
                                  Sample.snakePlant).
  reflexivity.
Defined.

(** ** Cause scoring *)

Lemma length_eqb_zero {A} (l : list A) : (length l =? 0)%nat = true <-> l = [].
Proof. destruct l; simpl; split; intros H; congruence. Qed.

Lemma both_empty_test {A B} (l : list A) (k : list B) :
  (length l =? 0)%nat && (length k =? 0)%nat = true <-> l = [] /\ k = [].
Proof. rewrite andb_true_iff, !length_eqb_zero. tauto. Qed.

Lemma calculateEnhancedConfidence_range (this : PlantDiagnosisEngine)
  (matchedKeywords : list string) (totalKeywords : nat)
  (symptoms enhancedSymptoms : list SymptomMatch.t) :
  0.3 <= calculateEnhancedConfidence this matchedKeywords totalKeywords symptoms enhancedSymptoms
  /\ calculateEnhancedConfidence this matchedKeywords totalKeywords symptoms enhancedSymptoms
     <= 1.0.
Proof.
  unfold calculateEnhancedConfidence, JS.Math_max, JS.Math_min. split.
  - apply Q.le_max_r.
  - apply Q.max_lub; [apply Q.le_min_r | discriminate].
Qed.

Lemma scoreCause_inRange (this : PlantDiagnosisEngine) (plant : Plant.t)
  (symptoms enhancedSymptoms : list SymptomMatch.t) (inputText inputLower : string)
  (cause : Cause.t) (d : Diagnosis.t) :
  d ∈ scoreCause this plant symptoms enhancedSymptoms inputText inputLower cause ->
  Spec.inRange this d.
Proof.
  unfold scoreCause. destruct (_ || _); [|intros H; inversion H].
  destruct (JS.ge _ _) eqn:Hge; [|intros H; inversion H].
  intros H. apply list_elem_of_singleton in H as ->.
  apply ge_true in Hge. split; [exact Hge|]. simpl.
  apply calculateEnhancedConfidence_range.
Qed.

Lemma scoreCauses_inRange (this : PlantDiagnosisEngine) (plant : Plant.t)
  (symptoms enhancedSymptoms : list SymptomMatch.t) (inputText inputLower : string)
  (d : Diagnosis.t) :
  d ∈ scoreCauses this plant symptoms enhancedSymptoms inputText inputLower ->
  Spec.inRange this d.
Proof.
  unfold scoreCauses. rewrite list_elem_of_In, in_flat_map.
  intros (cause & _ & Hd). eapply scoreCause_inRange. apply list_elem_of_In, Hd.
Qed.

Lemma filter_nonempty_existsb {A} (f : A -> bool) (l : list A) :
  (0 <? length (List.filter f l))%nat = existsb f l.
Proof.
  induction l as [|x l IH]; simpl; [reflexivity|].
  destruct (f x); simpl; [reflexivity | exact IH].
Qed.

Lemma find_pattern_none (f : string -> bool) (entries : list (string * list string)) :
  find (fun entry => (0 <? length (List.filter f (snd entry)))%nat) entries = None
  <-> existsb f (concat (map snd entries)) = false.
Proof.
  induction entries as [|entry entries IH]; simpl; [tauto|].
  rewrite existsb_app, orb_false_iff, <- IH, filter_nonempty_existsb.
  destruct (existsb f (snd entry)); split; try tauto; try discriminate.
  intros [H _]. discriminate.
Qed.

(** The last-resort detector answers exactly when a pattern keyword occurs
    in the text. *)
Lemma detectGenericCause_none (inputLower : string) (plant : Plant.t) :
  detectGenericCause inputLower plant = None <-> Spec.patternKeywordIn inputLower = false.
Proof.
  unfold detectGenericCause, Spec.patternKeywordIn.
  rewrite <- find_pattern_none.
  destruct (find _ patterns) as [[causeId keywords]|]; split; congruence.
Qed.

Lemma sort_single {A} (cmp : A -> A -> Q) (x : A) : JS.sort cmp [x] = [x].
Proof. reflexivity. Qed.

Lemma slice0_nonempty {A} (l : list A) (e : Z) :
  (1 <= e)%Z -> l <> [] -> JS.slice0 l e <> [].
Proof.
  intros He Hl. unfold JS.slice0. destruct (Z.ltb_spec e 0); [lia|].
  destruct (Z.to_nat e) as [|n] eqn:Hn; [lia|]. destruct l; [congruence | discriminate].
Qed.

Lemma slice0_nil {A} (e : Z) : JS.slice0 (@nil A) e = [].
Proof. unfold JS.slice0. destruct (e <? 0)%Z; apply take_nil. Qed.

Lemma sort_nonempty {A} (cmp : A -> A -> Q) (l : list A) : l <> [] -> JS.sort cmp l <> [].
Proof.
  intros Hl Hs. apply Hl. apply length_zero_iff_nil.
  rewrite <- (sort_length cmp), Hs. reflexivity.
Qed.

Lemma generateDiagnoses_both_empty (this : PlantDiagnosisEngine) (plant : Plant.t)
  (symptoms : list SymptomMatch.t) (inputText : string) :
  symptoms = [] ->
  enhancedSymptomDetection (JS.toLowerCase inputText) plant = [] ->
  generateDiagnoses this plant symptoms inputText = [noSymptomsDiagnosis].
Proof.
  intros Hsymptoms Henhanced. unfold generateDiagnoses.
  destruct (_ && _) eqn:Htest; [reflexivity|].
  apply not_true_iff_false in Htest. destruct Htest.
  apply both_empty_test. split; assumption.
Qed.

(** C8. When the list of symptom matches and the list of enhanced symptoms
    are both empty, [generateDiagnoses] returns the one fixed
    unclear-symptoms diagnosis, of confidence 0.2 and with its four guidance
    actions, for every plant and every configuration: no cause of the plant
    is scored and the result is neither sorted nor cut. *)
Theorem generateDiagnoses_no_symptoms (this : PlantDiagnosisEngine) (plant : Plant.t)
  (symptoms : list SymptomMatch.t) (inputText : string) :
  symptoms = [] ->
  enhancedSymptomDetection (JS.toLowerCase inputText) plant = [] ->
  generateDiagnoses this plant symptoms inputText = [noSymptomsDiagnosis] /\
  Cause.id (Diagnosis.cause noSymptomsDiagnosis) = "no_symptoms" /\
  Diagnosis.confidence noSymptomsDiagnosis = 0.2 /\
  length (Diagnosis.actions noSymptomsDiagnosis) = 4%nat.
Proof.
  intros Hsymptoms Henhanced.
  split; [apply generateDiagnoses_both_empty; assumption|].
  repeat split.
Qed.

Lemma generateDiagnoses_no_symptoms_witness :
  @nil SymptomMatch.t = [] /\
  enhancedSymptomDetection (JS.toLowerCase "hello there") Sample.generic = [] /\
  generateDiagnoses Sample.engine Sample.generic [] "hello there" = [noSymptomsDiagnosis] /\
  Cause.id (Diagnosis.cause noSymptomsDiagnosis) = "no_symptoms" /\
  Diagnosis.confidence noSymptomsDiagnosis = 0.2 /\
  length (Diagnosis.actions noSymptomsDiagnosis) = 4%nat.
Proof.
  split; [reflexivity|]. split; [reflexivity|].
  apply (generateDiagnoses_no_symptoms Sample.engine Sample.generic [] "hello there");
    reflexivity.
Defined.

(** The list [generateDiagnoses] sorts and cuts when some symptom was
    found. *)
Lemma generateDiagnoses_scored (this : PlantDiagnosisEngine) (plant : Plant.t)
  (symptoms : list SymptomMatch.t) (inputText : string) :
  let inputLower := JS.toLowerCase inputText in
  let enhancedSymptoms := enhancedSymptomDetection inputLower plant in
  let scored := scoreCauses this plant symptoms enhancedSymptoms inputText inputLower in
  ~ (symptoms = [] /\ enhancedSymptoms = []) ->
  generateDiagnoses this plant symptoms inputText
  = JS.slice0
      (JS.sort byConfidenceDescending
         (match scored with
          | [] => match detectGenericCause inputLower plant with
                  | Some genericCause => [genericDiagnosis plant inputLower genericCause]
                  | None => []
                  end
          | _ => scored
          end))
      (Config.maxDiagnoses (Config.diagnosis (config this))).
Proof.
  intros inputLower enhancedSymptoms scored Hsome. unfold generateDiagnoses.
  fold inputLower. fold enhancedSymptoms. fold scored.
  destruct (_ && _) eqn:Htest.
  { apply both_empty_test in Htest. contradiction. }
  destruct scored as [|d scored']; simpl; [|reflexivity].
  destruct (detectGenericCause inputLower plant); reflexivity.
Qed.

(** C2. The list returned by [generateDiagnoses] is not always inhabited.
    With both symptom lists empty it is the one unclear-symptoms diagnosis.
    Otherwise, when the cause loop accepts no diagnosis: if a keyword of the
    last-resort patterns occurs in the lower-cased input and [maxDiagnoses]
    is at least 1, it is the one last-resort diagnosis, of confidence 0.4;
    if no such keyword occurs, it is empty.  When the cause loop accepts
    some diagnosis and [maxDiagnoses] is at least 1, the list is
    inhabited. *)
Theorem generateDiagnoses_inhabited_cases (this : PlantDiagnosisEngine) (plant : Plant.t)
  (symptoms : list SymptomMatch.t) (inputText : string) :
  let inputLower := JS.toLowerCase inputText in
  let enhancedSymptoms := enhancedSymptomDetection inputLower plant in
  let scored := scoreCauses this plant symptoms enhancedSymptoms inputText inputLower in
  let result := generateDiagnoses this plant symptoms inputText in
  (symptoms = [] /\ enhancedSymptoms = [] -> result = [noSymptomsDiagnosis]) /\
  (~ (symptoms = [] /\ enhancedSymptoms = []) ->
   (scored = [] -> Spec.patternKeywordIn inputLower = true ->
    (1 <= Config.maxDiagnoses (Config.diagnosis (config this)))%Z ->
    exists genericCause,
      detectGenericCause inputLower plant = Some genericCause /\
      result = [genericDiagnosis plant inputLower genericCause] /\
      Diagnosis.confidence (genericDiagnosis plant inputLower genericCause) = 0.4) /\
   (scored = [] -> Spec.patternKeywordIn inputLower = false -> result = []) /\
   (scored <> [] ->
    (1 <= Config.maxDiagnoses (Config.diagnosis (config this)))%Z ->
    result <> [])).
Proof.
  intros inputLower enhancedSymptoms scored result. split.
  { intros [Hs He]. apply generateDiagnoses_both_empty; assumption. }
  intros Hsome. unfold result.
  rewrite (generateDiagnoses_scored this plant symptoms inputText Hsome).
  fold inputLower. fold enhancedSymptoms. fold scored. split; [|split].
  - intros -> Hkeyword Hmax.
    destruct (detectGenericCause inputLower plant) as [genericCause|] eqn:Hdetect.
    + exists genericCause. split; [reflexivity|]. split; [|reflexivity].
      rewrite sort_single. apply slice0_single, Hmax.
    + apply detectGenericCause_none in Hdetect. congruence.
  - intros -> Hkeyword. apply detectGenericCause_none with (plant := plant) in Hkeyword.
    rewrite Hkeyword. apply slice0_nil.
  - intros Hscored Hmax. apply slice0_nonempty; [exact Hmax|]. apply sort_nonempty.
    destruct scored; [congruence | discriminate].
Qed.

Lemma generateDiagnoses_inhabited_cases_witness :
  generateDiagnoses Sample.engine Sample.generic [] "hello there" = [noSymptomsDiagnosis] /\
  (exists genericCause,
     detectGenericCause "yellow" Sample.generic = Some genericCause /\
     generateDiagnoses Sample.strictEngine Sample.generic Sample.yellowSymptoms "yellow"
     = [genericDiagnosis Sample.generic "yellow" genericCause] /\
     Diagnosis.confidence (genericDiagnosis Sample.generic "yellow" genericCause) = 0.4) /\
  generateDiagnoses Sample.engine Sample.tulsi Sample.curlSymptoms "my tulsi has curl" = [] /\
  generateDiagnoses Sample.engine Sample.generic Sample.yellowSymptoms "yellow" <> [].
Proof.
  split; [|split; [|split]].
  - apply (proj1 (generateDiagnoses_inhabited_cases
                    Sample.engine Sample.generic [] "hello there")).
    split; reflexivity.
  - apply (proj1 (proj2 (generateDiagnoses_inhabited_cases
                           Sample.strictEngine Sample.generic Sample.yellowSymptoms "yellow")
                        ltac:(intros [H _]; vm_compute in H; discriminate))).
    + vm_compute. reflexivity.
    + reflexivity.
    + simpl. lia.
  - apply (proj1 (proj2 (proj2 (generateDiagnoses_inhabited_cases
                           Sample.engine Sample.tulsi Sample.curlSymptoms "my tulsi has curl")
                        ltac:(intros [H _]; vm_compute in H; discriminate)))).
    + vm_compute. reflexivity.
    + reflexivity.
  - apply (proj2 (proj2 (proj2 (generateDiagnoses_inhabited_cases
                           Sample.engine Sample.generic Sample.yellowSymptoms "yellow")
                        ltac:(intros [H _]; vm_compute in H; discriminate)))).
    + vm_compute. discriminate.
    + simpl. lia.
Defined.

(** C2, the claim as stated fails: on the sample catalog the input
    "my tulsi has curl" matches a symptom of the tulsi record, none of the
    keywords of its cause and no last-resort keyword, and [diagnose] returns
    an empty list of diagnoses. *)
Lemma diagnose_empty_list_counterexample :
  exists r,
    diagnose Sample.engine "2024-01-01T00:00:00.000Z" "my tulsi has curl" = Some r /\
    DiagnosisResult.detectedPlant r = Some "tulsi" /\
    DiagnosisResult.diagnoses r = [].
Proof.
  eexists. split; [vm_compute; reflexivity|]. split; reflexivity.
Qed.

(** ** The entry point *)

Lemma diagnose_blank (this : PlantDiagnosisEngine) (now inputText : string) :
  Spec.allWhiteSpace inputText = true ->
  diagnose this now inputText = Some (emptyInputResult now).
Proof.
  intros Hblank. unfold diagnose. rewrite blank_guard, Hblank. reflexivity.
Qed.

(** What [diagnose] returns on an input that is not blank, when the catalog
    has its generic record. *)
Lemma diagnose_nonblank (this : PlantDiagnosisEngine) (now inputText : string) :
  Spec.allWhiteSpace inputText = false ->
  Spec.catalogReady this = true ->
  exists plant symptoms,
    Detection.plant (detectPlant this (truncateInput this inputText)) = Some plant /\
    extractSymptoms this (truncateInput this inputText) plant = Some symptoms /\
    diagnose this now inputText
    = Some (DiagnosisResult.mk
              (Plant.name plant)
              (Detection.score (detectPlant this (truncateInput this inputText)))
              (generateDiagnoses this plant symptoms (truncateInput this inputText))
              now
              (Some (truncateInput this inputText))
              (Some (Plant.id plant))
              (Some (Detection.method (detectPlant this (truncateInput this inputText))))).
Proof.
  intros Hinput Hready.
  destruct (detectPlant_plant_defined this (truncateInput this inputText) Hready)
    as [plant Hplant].
  destruct (extractSymptoms_defined this (truncateInput this inputText) plant Hready)
    as (g & gs & _ & _ & Hextract).
  exists plant. eexists. split; [exact Hplant|]. split; [exact Hextract|].
  unfold diagnose. rewrite blank_guard, Hinput, Hplant, Hextract. reflexivity.
Qed.

(** C3. For the empty string and for every input made of white space only,
    [diagnose] returns the fixed empty-input result, whose one diagnosis has
    the cause id [empty_input] and confidence 0.  The equation holds for
    every engine, also for one whose catalog would make detection or
    extraction throw: neither is consulted. *)
Theorem diagnose_blank_input (this : PlantDiagnosisEngine) (now inputText : string) :
  Spec.allWhiteSpace inputText = true ->
  diagnose this now inputText = Some (emptyInputResult now) /\
  exists d,
    DiagnosisResult.diagnoses (emptyInputResult now) = [d] /\
    Cause.id (Diagnosis.cause d) = "empty_input" /\
    Diagnosis.confidence d = 0.
Proof.
  intros Hblank. split.
  - apply diagnose_blank, Hblank.
  - exists emptyInputDiagnosis. repeat split; reflexivity.
Qed.

Lemma diagnose_blank_input_witness :
  Spec.allWhiteSpace "" = true /\
  Spec.allWhiteSpace "  	 " = true /\
  (diagnose Sample.bareEngine "2024-01-01T00:00:00.000Z" ""
   = Some (emptyInputResult "2024-01-01T00:00:00.000Z") /\
   exists d,
     DiagnosisResult.diagnoses (emptyInputResult "2024-01-01T00:00:00.000Z") = [d] /\
     Cause.id (Diagnosis.cause d) = "empty_input" /\
     Diagnosis.confidence d = 0) /\
  (diagnose Sample.bareEngine "2024-01-01T00:00:00.000Z" "  	 "
   = Some (emptyInputResult "2024-01-01T00:00:00.000Z") /\
   exists d,
     DiagnosisResult.diagnoses (emptyInputResult "2024-01-01T00:00:00.000Z") = [d] /\
     Cause.id (Diagnosis.cause d) = "empty_input" /\
     Diagnosis.confidence d = 0).
Proof.
  split; [reflexivity|]. split; [reflexivity|]. split.
  - apply (diagnose_blank_input Sample.bareEngine "2024-01-01T00:00:00.000Z" "").
    reflexivity.
  - apply (diagnose_blank_input Sample.bareEngine "2024-01-01T00:00:00.000Z" "  	 ").
    reflexivity.
Defined.

(** On the catalog without a generic record an input that is not blank makes
    the engine throw, so the blank inputs above are answered without the
    catalog. *)
Example diagnose_bare_catalog_throws :
  diagnose Sample.bareEngine "2024-01-01T00:00:00.000Z" "my tulsi has curl" = None.
Proof. vm_compute. reflexivity. Qed.

(** C10. For an empty or blank input the result has the plant name
    "generic", the plant match score 0 and none of the fields
    [originalInput], [detectedPlant] and [detectionMethod]; for any other
    input (the catalog having its generic record) the result carries all
    three: the truncated input, the id of the detected plant and the method
    of the detection. *)
Theorem diagnose_result_fields (this : PlantDiagnosisEngine) (now inputText : string) :
  (Spec.allWhiteSpace inputText = true ->
   exists r,
     diagnose this now inputText = Some r /\
     DiagnosisResult.plantName r = "generic" /\
     DiagnosisResult.plantMatchScore r = 0 /\
     DiagnosisResult.originalInput r = None /\
     DiagnosisResult.detectedPlant r = None /\
     DiagnosisResult.detectionMethod r = None) /\
  (Spec.allWhiteSpace inputText = false ->
   Spec.catalogReady this = true ->
   exists r plant,
     diagnose this now inputText = Some r /\
     Detection.plant (detectPlant this (truncateInput this inputText)) = Some plant /\
     DiagnosisResult.originalInput r = Some (truncateInput this inputText) /\
     DiagnosisResult.detectedPlant r = Some (Plant.id plant) /\
     DiagnosisResult.detectionMethod r
     = Some (Detection.method (detectPlant this (truncateInput this inputText)))).
Proof.
  split.
  - intros Hblank. exists (emptyInputResult now).
    split; [apply diagnose_blank, Hblank | repeat split; reflexivity].
  - intros Hinput Hready.
    destruct (diagnose_nonblank this now inputText Hinput Hready)
      as (plant & symptoms & Hplant & _ & Hresult).
    eexists. exists plant. split; [exact Hresult|]. split; [exact Hplant|].
    repeat split; reflexivity.
Qed.

Lemma diagnose_result_fields_witness :
  (exists r,
     diagnose Sample.engine "2024-01-01T00:00:00.000Z" "   " = Some r /\
     DiagnosisResult.plantName r = "generic" /\
     DiagnosisResult.plantMatchScore r = 0 /\
     DiagnosisResult.originalInput r = None /\
     DiagnosisResult.detectedPlant r = None /\
     DiagnosisResult.detectionMethod r = None) /\
  (exists r plant,
     diagnose Sample.engine "2024-01-01T00:00:00.000Z" "My snake plant has yellow mushy leaves"
     = Some r /\
     Detection.plant
       (detectPlant Sample.engine
          (truncateInput Sample.engine "My snake plant has yellow mushy leaves"))
     = Some plant /\
     DiagnosisResult.originalInput r
     = Some (truncateInput Sample.engine "My snake plant has yellow mushy leaves") /\
     DiagnosisResult.detectedPlant r = Some (Plant.id plant) /\
     DiagnosisResult.detectionMethod r
     = Some (Detection.method
               (detectPlant Sample.engine
                  (truncateInput Sample.engine "My snake plant has yellow mushy leaves")))).
Proof.
  split.
  - apply (proj1 (diagnose_result_fields Sample.engine "2024-01-01T00:00:00.000Z" "   ")).
    reflexivity.
  - apply (proj2 (diagnose_result_fields Sample.engine "2024-01-01T00:00:00.000Z"
                    "My snake plant has yellow mushy leaves")); reflexivity.
Defined.

(** ** The state of the engine *)

Lemma readsOnly_ret {A} (a : A) : Stateful.readsOnly (Stateful.ret a) (fun _ => Some a).
Proof. intros w. reflexivity. Qed.

Lemma readsOnly_throw {A} : Stateful.readsOnly (@Stateful.throw A) (fun _ => None).
Proof. intros w. reflexivity. Qed.

Lemma readsOnly_read {A} (field : PlantDiagnosisEngine -> A) :
  Stateful.readsOnly (Stateful.read field) (fun e => Some (field e)).
Proof. intros w. reflexivity. Qed.

Lemma readsOnly_bind {A B} (m : Stateful.M A) (k : A -> Stateful.M B)
  (f : PlantDiagnosisEngine -> option A) (g : A -> PlantDiagnosisEngine -> option B) :
  Stateful.readsOnly m f -> (forall a, Stateful.readsOnly (k a) (g a)) ->
  Stateful.readsOnly (Stateful.bind m k)
            (fun e => match f e with Some a => g a e | None => None end).
Proof.
  intros Hm Hk w. unfold Stateful.bind. rewrite Hm.
  destruct (f (Stateful.this w)) as [a|]; [apply Hk | reflexivity].
Qed.

Lemma readsOnly_ext {A} (m : Stateful.M A) (f g : PlantDiagnosisEngine -> option A) :
  Stateful.readsOnly m f -> (forall e, f e = g e) -> Stateful.readsOnly m g.
Proof. intros Hm Hfg w. rewrite Hm, Hfg. reflexivity. Qed.

Lemma readsOnly_forEach {A B} (body : A -> Stateful.M (list B))
  (g : PlantDiagnosisEngine -> A -> list B) (arr : list A) :
  (forall x, Stateful.readsOnly (body x) (fun e => Some (g e x))) ->
  Stateful.readsOnly (Stateful.forEach body arr) (fun e => Some (flat_map (g e) arr)).
Proof.
  intros Hbody. induction arr as [|x arr IH]; [intros w; reflexivity|].
  intros w. cbn [Stateful.forEach]. unfold Stateful.bind.
  rewrite (Hbody x w), (IH w). reflexivity.
Qed.

Lemma genericFallback_reads :
  Stateful.readsOnly Stateful.genericFallback (fun e => Some (Binary64.genericFallback e)).
Proof. intros w. reflexivity. Qed.

Lemma detectPlant_reads (inputText : string) :
  Stateful.readsOnly (Stateful.detectPlant inputText)
            (fun e => Some (Binary64.detectPlant e inputText)).
Proof.
  intros w. unfold Stateful.detectPlant, Binary64.detectPlant, Stateful.bind, Stateful.read.
  destruct (find (plantNameMatch _) _); [reflexivity|].
  destruct (find _ _); [reflexivity|].
  destruct (fuse (Stateful.this w) inputText) as [|best rest];
    [apply genericFallback_reads|].
  destruct (JS.lt _ _); [reflexivity | apply genericFallback_reads].
Qed.

Lemma extractSymptoms_reads (inputText : string) (plant : Plant.t) :
  Stateful.readsOnly (Stateful.extractSymptoms inputText (Some plant))
            (fun e => Binary64.extractSymptoms e inputText plant).
Proof.
  intros w. unfold Stateful.extractSymptoms, Binary64.extractSymptoms, Stateful.bind,
    Stateful.read, findGeneric.
  destruct (find _ _) as [genericPlant|]; [|reflexivity].
  destruct (Plant.symptoms genericPlant); reflexivity.
Qed.

Lemma calculateEnhancedConfidence_reads (matchedKeywords : list string)
  (totalKeywords : nat) (symptoms enhancedSymptoms : list SymptomMatch.t) :
  Stateful.readsOnly (Stateful.calculateEnhancedConfidence matchedKeywords totalKeywords
                                                  symptoms enhancedSymptoms)
            (fun e => Some (Binary64.calculateEnhancedConfidence
                              e matchedKeywords totalKeywords symptoms enhancedSymptoms)).
Proof. intros w. reflexivity. Qed.

Lemma scoreCause_reads (plant : Plant.t) (symptoms enhancedSymptoms : list SymptomMatch.t)
  (inputText inputLower : string) (cause : Cause.t) :
  Stateful.readsOnly (Stateful.scoreCause plant symptoms enhancedSymptoms inputText inputLower cause)
            (fun e => Some (Binary64.scoreCause e plant symptoms enhancedSymptoms
                                                inputText inputLower cause)).
Proof.
  intros w. unfold Stateful.scoreCause, Binary64.scoreCause.
  destruct (_ || _); [|reflexivity].
  unfold Stateful.bind. rewrite calculateEnhancedConfidence_reads.
  unfold Stateful.read. destruct (JS.ge _ _); reflexivity.
Qed.

Lemma generateDiagnoses_reads (plant : Plant.t) (symptoms : list SymptomMatch.t)
  (inputText : string) :
  Stateful.readsOnly (Stateful.generateDiagnoses plant symptoms inputText)
            (fun e => Some (Binary64.generateDiagnoses e plant symptoms inputText)).
Proof.
  intros w. unfold Stateful.generateDiagnoses, Binary64.generateDiagnoses.
  destruct (_ && _); [reflexivity|].
  unfold Stateful.bind.
  rewrite (readsOnly_forEach _ (fun e => Binary64.scoreCause e plant symptoms _ inputText _)
                             _ (scoreCause_reads plant symptoms _ inputText _) w).
  reflexivity.
Qed.

(** [diagnose] on a state: the result is the one of the function of the
    engine at the next reading of the clock; the fields of the engine are
    left as they are, and the clock is read once when there is a result and
    not at all before a throw. *)
Lemma diagnose_run (inputText : string) (w : Stateful.World) :
  Stateful.diagnose inputText w
  = (Binary64.diagnose (Stateful.this w) (Stateful.clock w (Stateful.readings w)) inputText,
     Stateful.mkWorld
       (Stateful.this w) (Stateful.clock w)
       (match Binary64.diagnose (Stateful.this w) "" inputText with
        | Some _ => S (Stateful.readings w)
        | None => Stateful.readings w
        end)).
Proof.
  unfold Stateful.diagnose, Binary64.diagnose.
  destruct (_ || _); [reflexivity|].
  unfold Stateful.bind at 1. unfold Stateful.read at 1. cbn [fst snd].
  assert ((if (Config.maxInputLength (Config.ui (config (Stateful.this w)))
               <? Z.of_nat (String.length inputText))%Z
           then Stateful.bind (Stateful.read config)
                  (fun cfg => Stateful.ret
                     (JS.substring0 inputText (Config.maxInputLength (Config.ui cfg))
                      +:+ "..."))
           else Stateful.ret inputText) w
          = (Some (truncateInput (Stateful.this w) inputText), w)) as Htruncate.
  { unfold truncateInput. destruct (_ <? _)%Z; reflexivity. }
  unfold Stateful.bind at 1. rewrite Htruncate.
  set (truncatedInput := truncateInput (Stateful.this w) inputText).
  unfold Stateful.bind at 1. rewrite (detectPlant_reads truncatedInput w).
  set (plantDetection := Binary64.detectPlant (Stateful.this w) truncatedInput).
  unfold Stateful.bind at 1.
  destruct (Detection.plant plantDetection) as [plant|]; [|destruct w; reflexivity].
  rewrite (extractSymptoms_reads truncatedInput plant w).
  destruct (Binary64.extractSymptoms (Stateful.this w) truncatedInput plant) as [symptoms|];
    [|destruct w; reflexivity].
  unfold Stateful.bind. rewrite (generateDiagnoses_reads plant symptoms truncatedInput w).
  reflexivity.
Qed.

Lemma diagnose64_modulo_clock (e : PlantDiagnosisEngine) (now1 now2 inputText : string) :
  option_map DiagnosisResult.withoutTimestamp (Binary64.diagnose e now1 inputText)
  = option_map DiagnosisResult.withoutTimestamp (Binary64.diagnose e now2 inputText).
Proof.
  unfold Binary64.diagnose. destruct (_ || _); [reflexivity|].
  destruct (Detection.plant _) as [plant|]; [|reflexivity].
  destruct (Binary64.extractSymptoms _ _ _); reflexivity.
Qed.

Lemma diagnose64_timestamp (e : PlantDiagnosisEngine) (now inputText : string)
  (r : DiagnosisResult.t) :
  Binary64.diagnose e now inputText = Some r -> DiagnosisResult.timestamp r = now.
Proof.
  unfold Binary64.diagnose. destruct (_ || _); [intros [= <-]; reflexivity|].
  destruct (Detection.plant _) as [plant|]; [|discriminate].
  destruct (Binary64.extractSymptoms _ _ _); [|discriminate].
  intros [= <-]. reflexivity.
Qed.

Lemma afterDiagnoses_engine (inputs : list string) (w : Stateful.World) :
  Stateful.this (Stateful.afterDiagnoses inputs w) = Stateful.this w /\
  Stateful.clock (Stateful.afterDiagnoses inputs w) = Stateful.clock w.
Proof.
  revert w. induction inputs as [|inputText inputs IH]; intros w; [split; reflexivity|].
  change (Stateful.afterDiagnoses (inputText :: inputs) w)
    with (Stateful.afterDiagnoses inputs (snd (Stateful.diagnose inputText w))).
  destruct (IH (snd (Stateful.diagnose inputText w))) as [-> ->].
  rewrite diagnose_run. split; reflexivity.
Qed.

(** C9. A call of [diagnose] leaves the three fields of the engine as it
    found them, whether it returns or throws.  Hence a second call on the
    same input, directly after the first or after any number of calls of
    [diagnose] on other inputs, returns a result that agrees with the first
    in every field but [timestamp] (or both calls throw); the same holds
    for two calls in any two states with the same fields.  The [timestamp]
    of a result is the reading of the clock taken by the call. *)
Theorem diagnose_deterministic (w : Stateful.World) (inputText : string)
  (between : list string) :
  let first := Stateful.diagnose inputText w in
  let later := Stateful.diagnose inputText (Stateful.afterDiagnoses between (snd first)) in
  Stateful.this (snd first) = Stateful.this w /\
  Stateful.this (snd later) = Stateful.this w /\
  option_map DiagnosisResult.withoutTimestamp (fst later)
  = option_map DiagnosisResult.withoutTimestamp (fst first) /\
  (forall w' : Stateful.World,
     Stateful.this w' = Stateful.this w ->
     option_map DiagnosisResult.withoutTimestamp (fst (Stateful.diagnose inputText w'))
     = option_map DiagnosisResult.withoutTimestamp (fst first)) /\
  (forall r : DiagnosisResult.t,
     fst first = Some r ->
     DiagnosisResult.timestamp r = Stateful.clock w (Stateful.readings w) /\
     Stateful.readings (snd first) = S (Stateful.readings w)).
Proof.
  intros first later.
  assert (forall w' : Stateful.World,
             Stateful.this w' = Stateful.this w ->
             option_map DiagnosisResult.withoutTimestamp (fst (Stateful.diagnose inputText w'))
             = option_map DiagnosisResult.withoutTimestamp (fst first)) as Hsame.
  { intros w' Hfields. unfold first. rewrite !diagnose_run. cbn [fst].
    rewrite Hfields. apply diagnose64_modulo_clock. }
  assert (Stateful.this (snd first) = Stateful.this w) as Hfirst.
  { unfold first. rewrite diagnose_run. reflexivity. }
  split; [exact Hfirst|]. split.
  { unfold later. rewrite diagnose_run. cbn [snd Stateful.this].
    rewrite (proj1 (afterDiagnoses_engine between (snd first))). exact Hfirst. }
  split.
  { apply Hsame. rewrite (proj1 (afterDiagnoses_engine between (snd first))). exact Hfirst. }
  split; [exact Hsame|].
  intros r. unfold first. rewrite diagnose_run. cbn [fst snd Stateful.readings].
  intros Hr. split; [apply (diagnose64_timestamp _ _ _ _ Hr)|].
  pose proof (diagnose64_modulo_clock (Stateful.this w) ""
                (Stateful.clock w (Stateful.readings w)) inputText) as Hclock.
  rewrite Hr in Hclock. destruct (Binary64.diagnose (Stateful.this w) "" inputText);
    [reflexivity | discriminate Hclock].
Qed.

(** What the statement excludes does happen with a method that writes:
    after [addPlant] the same input is answered with another plant. *)
Example diagnose_after_addPlant :
  let input := "the basilisk is called holy basil" in
  let start := Stateful.mkWorld Sample.engine (fun _ => "2024-01-01T00:00:00.000Z") 0 in
  let first := Stateful.diagnose input start in
  let grown := snd (Stateful.addPlant Fixture.emptyIndex Fixture.basilPlant (snd first)) in
  let later := Stateful.diagnose input grown in
  DiagnosisResult.plantName <$> fst first = Some "Tulsi" /\
  DiagnosisResult.plantName <$> fst later = Some "Basil" /\
  plants (Stateful.this grown) = (plants Sample.engine ++ [Fixture.basilPlant])%list.
Proof. vm_compute. repeat split; reflexivity. Qed.

(** ** Bounds on the diagnoses *)

Lemma generateDiagnoses_bounds (this : PlantDiagnosisEngine) (plant : Plant.t)
  (symptoms : list SymptomMatch.t) (inputText : string) :
  (0 <= Config.maxDiagnoses (Config.diagnosis (config this)))%Z ->
  let result := generateDiagnoses this plant symptoms inputText in
  result = [noSymptomsDiagnosis] \/
  ((Z.of_nat (length result) <= Config.maxDiagnoses (Config.diagnosis (config this)))%Z /\
   Forall (fun d => Spec.inRange this d \/ (Diagnosis.confidence d = 0.4 /\ result = [d]))
          result).
Proof.
  intros Hmax result.
  destruct (decide (symptoms = [] /\
                    enhancedSymptomDetection (JS.toLowerCase inputText) plant = []))
    as [[Hs He]|Hsome].
  { left. apply generateDiagnoses_both_empty; assumption. }
  right. unfold result. rewrite (generateDiagnoses_scored this plant symptoms inputText Hsome).
  split; [apply slice0_length, Hmax|].
  apply Forall_forall. intros d Hd.
  destruct (scoreCauses this plant symptoms _ inputText _) as [|d0 scored] eqn:Hscored.
  - right. destruct (detectGenericCause _ plant) as [genericCause|].
    + rewrite sort_single in *.
      pose proof (slice0_elem_of _ _ _ Hd) as Hd'.
      apply list_elem_of_singleton in Hd' as ->. split; [reflexivity|].
      destruct (decide (1 <= Config.maxDiagnoses (Config.diagnosis (config this)))%Z)
        as [Hone|Hzero]; [apply slice0_single, Hone|].
      assert (Config.maxDiagnoses (Config.diagnosis (config this)) = 0%Z) as Hz by lia.
      rewrite Hz in Hd. inversion Hd.
    + change (JS.sort byConfidenceDescending []) with (@nil Diagnosis.t) in Hd.
      rewrite slice0_nil in Hd. inversion Hd.
  - left. apply slice0_elem_of, sort_elem_of in Hd. rewrite <- Hscored in Hd.
    eapply scoreCauses_inRange, Hd.
Qed.

(** C1. For every input, every catalog with a generic record and every
    configuration with a [maxDiagnoses] of at least 0, [diagnose] returns a
    result that is the empty-input sentinel or the unclear-symptoms sentinel,
    or else has at most [maxDiagnoses] diagnoses, each of them with a
    confidence between [minConfidenceThreshold] and 1.0 or being the single
    last-resort diagnosis of fixed confidence 0.4; every confidence is then
    in range when [minConfidenceThreshold] is at most 0.4. *)
Theorem diagnose_bounds (this : PlantDiagnosisEngine) (now inputText : string) :
  Spec.catalogReady this = true ->
  (0 <= Config.maxDiagnoses (Config.diagnosis (config this)))%Z ->
  exists r,
    diagnose this now inputText = Some r /\
    (DiagnosisResult.diagnoses r = [emptyInputDiagnosis] \/
     DiagnosisResult.diagnoses r = [noSymptomsDiagnosis] \/
     ((Z.of_nat (length (DiagnosisResult.diagnoses r))
       <= Config.maxDiagnoses (Config.diagnosis (config this)))%Z /\
      Forall (fun d => Spec.inRange this d \/
                       (Diagnosis.confidence d = 0.4 /\ DiagnosisResult.diagnoses r = [d]))
             (DiagnosisResult.diagnoses r) /\
      (Config.minConfidenceThreshold (Config.diagnosis (config this)) <= 0.4 ->
       Spec.statedBounds this r))).
Proof.
  intros Hready Hmax.
  destruct (Spec.allWhiteSpace inputText) eqn:Hinput.
  { exists (emptyInputResult now). split; [apply diagnose_blank, Hinput|].
    left. reflexivity. }
  destruct (diagnose_nonblank this now inputText Hinput Hready)
    as (plant & symptoms & _ & _ & Hresult).
  eexists. split; [exact Hresult|]. right. simpl.
  destruct (generateDiagnoses_bounds this plant symptoms (truncateInput this inputText) Hmax)
    as [Hsentinel|[Hlength Hall]]; [left; exact Hsentinel|].
  right. split; [exact Hlength|]. split; [exact Hall|].
  intros Hthreshold. right. right. simpl. split; [exact Hlength|].
  eapply Forall_impl; [exact Hall|].
  intros d [Hd|[Hd _]]; [exact Hd|].
  unfold Spec.inRange. rewrite Hd. split; [exact Hthreshold | discriminate].
Qed.

Lemma diagnose_bounds_witness :
  Spec.catalogReady Sample.engine = true /\
  (0 <= Config.maxDiagnoses (Config.diagnosis (config Sample.engine)))%Z /\
  exists r,
    diagnose Sample.engine "2024-01-01T00:00:00.000Z" "My snake plant has yellow mushy leaves"
    = Some r /\
    (DiagnosisResult.diagnoses r = [emptyInputDiagnosis] \/
     DiagnosisResult.diagnoses r = [noSymptomsDiagnosis] \/
     ((Z.of_nat (length (DiagnosisResult.diagnoses r))
       <= Config.maxDiagnoses (Config.diagnosis (config Sample.engine)))%Z /\
      Forall (fun d => Spec.inRange Sample.engine d \/
                       (Diagnosis.confidence d = 0.4 /\ DiagnosisResult.diagnoses r = [d]))
             (DiagnosisResult.diagnoses r) /\
      (Config.minConfidenceThreshold (Config.diagnosis (config Sample.engine)) <= 0.4 ->
       Spec.statedBounds Sample.engine r))).
Proof.
  split; [reflexivity|]. split; [simpl; lia|].
  apply (diagnose_bounds Sample.engine "2024-01-01T00:00:00.000Z"
                         "My snake plant has yellow mushy leaves").
  - reflexivity.
  - simpl. lia.
Defined.

(** C1, the claim as stated fails.  Under a threshold of 0.5 the input
    "yellow" gets the last-resort diagnosis, whose confidence 0.4 is below
    the threshold; under a [maxDiagnoses] of -1 the same input gets one
    diagnosis, more than [maxDiagnoses].  Neither result is a sentinel. *)
Lemma diagnose_bounds_counterexample :
  (exists r d,
     diagnose Sample.strictEngine "2024-01-01T00:00:00.000Z" "yellow" = Some r /\
     DiagnosisResult.diagnoses r = [d] /\
     Cause.id (Diagnosis.cause d) = "overwatering" /\
     Diagnosis.confidence d = 0.4 /\
     Config.minConfidenceThreshold (Config.diagnosis (config Sample.strictEngine)) = 0.5 /\
     ~ Spec.statedBounds Sample.strictEngine r) /\
  (exists r,
     diagnose Sample.negativeMaxEngine "2024-01-01T00:00:00.000Z" "yellow" = Some r /\
     length (DiagnosisResult.diagnoses r) = 1%nat /\
     Config.maxDiagnoses (Config.diagnosis (config Sample.negativeMaxEngine)) = (-1)%Z /\
     ~ Spec.statedBounds Sample.negativeMaxEngine r).
Proof.
  split.
  - eexists. eexists. split; [vm_compute; reflexivity|].
    split; [reflexivity|]. split; [reflexivity|]. split; [reflexivity|].
    split; [reflexivity|].
    intros [H|[H|[_ H]]]; try discriminate H.
    apply Forall_cons in H as [[H _] _]. vm_compute in H. apply H. reflexivity.
  - eexists. split; [vm_compute; reflexivity|].
    split; [reflexivity|]. split; [reflexivity|].
    intros [H|[H|[H _]]]; try discriminate H.
    vm_compute in H. apply H. reflexivity.
Qed.

(** ** The confidence formula *)

Lemma add_le_succ (a w : Q) (n : nat) :
  a <= JS.num n -> a <= inject_Z (2 ^ 53) -> w <= 1 ->
  Binary64.add a w <= JS.num (S n) /\ Binary64.add a w <= inject_Z (2 ^ 53).
Proof.
  intros Hn Hcap Hw. unfold Binary64.add.
  assert (Binary64.round64 (a + w) <= inject_Z (2 ^ 53)) as Hbound.
  { apply Qle_trans with (Binary64.round64 (inject_Z (2 ^ 53) + 1)).
    - apply round64_le. lra.
    - vm_compute. discriminate. }
  split; [|exact Hbound].
  destruct (Z.le_gt_cases (Z.of_nat (S n)) (2 ^ 53)) as [Hsmall|Hlarge].
  - apply round64_upper.
    + apply representable_Z. lia.
    + rewrite num_succ. lra.
  - apply Qle_trans with (inject_Z (2 ^ 53)); [exact Hbound|].
    unfold JS.num. rewrite <- Zle_Qle. lia.
Qed.

Lemma sum64_bounds (l : list SymptomMatch.t) (a : Q) (n : nat) :
  Forall (fun s => SymptomMatch.weight s <= 1) l ->
  a <= JS.num n -> a <= inject_Z (2 ^ 53) ->
  fold_left (fun sum s => Binary64.add sum (SymptomMatch.weight s)) l a
  <= JS.num (n + length l).
Proof.
  intros Hl. revert a n. induction Hl as [|s l Hs _ IH]; intros a n Hn Hcap.
  - simpl. rewrite Nat.add_0_r. exact Hn.
  - cbn [fold_left length]. destruct (add_le_succ a (SymptomMatch.weight s) n Hn Hcap Hs)
      as [Hstep Hkeep].
    replace (n + S (length l))%nat with (S n + length l)%nat by lia.
    apply IH; assumption.
Qed.

(** On weights of at most 1 the clamp of [calculateSymptomScore] does
    nothing, in binary64 as well: the rounded sum of [n] such weights is at
    most [n], and a rounded quotient of at most 1 is at most 1. *)
Lemma calculateSymptomScore_avg64 (l : list SymptomMatch.t) :
  Forall (fun s => SymptomMatch.weight s <= 1) l ->
  Binary64.calculateSymptomScore l = Spec64.avgSymptomScore l.
Proof.
  intros Hl. unfold Binary64.calculateSymptomScore, Spec64.avgSymptomScore.
  destruct l as [|s l]; [reflexivity|].
  change (length (s :: l) =? 0)%nat with false. cbv iota.
  set (k := s :: l) in *. rewrite lit_one. fold (Spec64.sumWeights k).
  apply Math_min_left. unfold Binary64.div.
  apply round64_upper; [exact representable_one|].
  assert (0 < JS.num (Nat.max (length k) 3)) as Hpos by (apply num_pos; lia).
  apply Qle_shift_div_r; [exact Hpos|].
  pose proof (sum64_bounds k 0 0 Hl) as Hsum. cbn [Nat.add] in Hsum.
  fold (Spec64.sumWeights k) in Hsum.
  pose proof (num_le (length k) (Nat.max (length k) 3) ltac:(lia)).
  assert (Spec64.sumWeights k <= JS.num (length k)) by (apply Hsum; [apply Qle_refl | discriminate]).
  lra.
Qed.

Lemma matchSymptoms64_weight (text : string) (plantSymptoms allSymptoms : list string)
  (m : SymptomMatch.t) :
  m ∈ Binary64.matchSymptoms text plantSymptoms allSymptoms ->
  Binary64.lit 0.2 < SymptomMatch.weight m /\ SymptomMatch.weight m <= 1.
Proof.
  unfold Binary64.matchSymptoms. rewrite list_elem_of_In, in_flat_map.
  intros (symptom & _ & Hm).
  destruct (Binary64.scoreSymptom text symptom) as [matchScore matchType].
  destruct (JS.gt matchScore (Binary64.lit 0.2)) eqn:Hgt; [|destruct Hm].
  apply gt_true in Hgt. destruct Hm as [<-|[]]. simpl. rewrite lit_one.
  unfold JS.Math_min. split.
  - apply Q.min_glb_lt; [exact Hgt | vm_compute; reflexivity].
  - apply Q.le_min_r.
Qed.

Lemma extractSymptoms64_weight (this : PlantDiagnosisEngine) (inputText : string)
  (plant : Plant.t) (symptoms : list SymptomMatch.t) :
  Binary64.extractSymptoms this inputText plant = Some symptoms ->
  Forall (fun s => SymptomMatch.weight s <= 1) symptoms.
Proof.
  unfold Binary64.extractSymptoms.
  destruct (findGeneric this) as [genericPlant|]; [|discriminate].
  destruct (Plant.symptoms genericPlant) as [genericSymptoms|]; [|discriminate].
  intros [= <-]. apply Forall_forall. intros s Hs.
  apply slice0_elem_of in Hs.
  apply (sublist_subseteq _ _ (keepFirstBy_sublist _ _ _)) in Hs.
  apply sort_elem_of in Hs. eapply matchSymptoms64_weight, Hs.
Qed.

Lemma enhancedSymptomDetection64_weight (inputLower : string) (plant : Plant.t) :
  Forall (fun s => SymptomMatch.weight s <= 1)
         (Binary64.enhancedSymptomDetection inputLower plant).
Proof.
  apply Forall_forall. intros s. unfold Binary64.enhancedSymptomDetection.
  rewrite list_elem_of_In, in_flat_map. intros (symptom & _ & Hs).
  destruct (JS.includes inputLower _).
  - destruct Hs as [<-|[]]. vm_compute. discriminate.
  - destruct (existsb _ _); [|destruct Hs].
    destruct Hs as [<-|[]]. vm_compute. discriminate.
Qed.

Lemma calculateEnhancedConfidence_formula64 (this : PlantDiagnosisEngine)
  (matchedKeywords : list string) (totalKeywords : nat)
  (symptoms enhancedSymptoms : list SymptomMatch.t) :
  Forall (fun s => SymptomMatch.weight s <= 1) symptoms ->
  Forall (fun s => SymptomMatch.weight s <= 1) enhancedSymptoms ->
  Binary64.calculateEnhancedConfidence this matchedKeywords totalKeywords
                                       symptoms enhancedSymptoms
  == Spec64.confidenceFormula (config this) (length matchedKeywords) totalKeywords
                              symptoms enhancedSymptoms.
Proof.
  intros Hs He. unfold Binary64.calculateEnhancedConfidence, Spec64.confidenceFormula.
  unfold JS.Math_max, JS.Math_min.
  rewrite (calculateSymptomScore_avg64 symptoms Hs).
  rewrite (calculateSymptomScore_avg64 enhancedSymptoms He).
  rewrite Q.max_comm. rewrite (Q.min_comm (Binary64.lit 1.0)). reflexivity.
Qed.

(** C4. With the symptom matches that [extractSymptoms] returns for the
    input and the enhanced symptoms of the same input, the confidence that
    the cause loop computes for a cause equals
    [max(0.3, min(1.0, plantMatchWeight * (|allMatches| / max(|causeKeywords|, 1))
    + symptomMatchWeight * (avgSymptomScore(symptoms) + avgSymptomScore(enhancedSymptoms)) / 2))],
    every operation of the formula being the binary64 operation, and every
    diagnosis that the loop accepts carries that value for its cause. *)
Theorem confidence_formula (this : PlantDiagnosisEngine) (inputText : string)
  (plant : Plant.t) (symptoms : list SymptomMatch.t) :
  Binary64.extractSymptoms this inputText plant = Some symptoms ->
  let inputLower := JS.toLowerCase inputText in
  let enhancedSymptoms := Binary64.enhancedSymptomDetection inputLower plant in
  (forall cause : Cause.t,
     let causeKeywords := default [] (Cause.keywords cause) in
     let allMatches := allMatchesOf inputLower causeKeywords in
     Binary64.calculateEnhancedConfidence this allMatches (length causeKeywords)
                                          symptoms enhancedSymptoms
     == Spec64.confidenceFormula (config this) (length allMatches) (length causeKeywords)
                                 symptoms enhancedSymptoms) /\
  (forall d : Diagnosis.t,
     d ∈ Binary64.scoreCauses this plant symptoms enhancedSymptoms inputText inputLower ->
     let causeKeywords := default [] (Cause.keywords (Diagnosis.cause d)) in
     let allMatches := allMatchesOf inputLower causeKeywords in
     Diagnosis.cause d ∈ Plant.causes plant /\
     ((0 < length allMatches)%nat \/ Plant.id plant = "generic") /\
     Diagnosis.confidence d
     == Spec64.confidenceFormula (config this) (length allMatches) (length causeKeywords)
                                 symptoms enhancedSymptoms).
Proof.
  intros Hextract inputLower enhancedSymptoms.
  pose proof (extractSymptoms64_weight _ _ _ _ Hextract) as Hs.
  pose proof (enhancedSymptomDetection64_weight inputLower plant) as He.
  split.
  - intros cause causeKeywords allMatches.
    apply calculateEnhancedConfidence_formula64; assumption.
  - intros d Hd causeKeywords allMatches. unfold Binary64.scoreCauses in Hd.
    apply list_elem_of_In, in_flat_map in Hd as (cause & Hcause & Hd).
    unfold Binary64.scoreCause in Hd.
    destruct (_ || _) eqn:Hguard; [|destruct Hd].
    destruct (JS.ge _ _); [|destruct Hd].
    destruct Hd as [<-|[]]. simpl in causeKeywords, allMatches |- *.
    split; [apply list_elem_of_In, Hcause|]. split.
    + apply orb_true_iff in Hguard as [Hguard|Hguard].
      * left. apply Nat.ltb_lt, Hguard.
      * right. apply String.eqb_eq, Hguard.
    + apply calculateEnhancedConfidence_formula64; assumption.
Qed.

Lemma confidence_formula_witness :
  Binary64.extractSymptoms Sample.engine "My snake plant has yellow mushy leaves"
                           Sample.snakePlant
  = Some Fixture.snakeSymptoms64 /\
  let inputLower := JS.toLowerCase "My snake plant has yellow mushy leaves" in
  let enhancedSymptoms := Binary64.enhancedSymptomDetection inputLower Sample.snakePlant in
  (forall cause : Cause.t,
     let causeKeywords := default [] (Cause.keywords cause) in
     let allMatches := allMatchesOf inputLower causeKeywords in
     Binary64.calculateEnhancedConfidence Sample.engine allMatches (length causeKeywords)
                                          Fixture.snakeSymptoms64 enhancedSymptoms
     == Spec64.confidenceFormula (config Sample.engine) (length allMatches)
                                 (length causeKeywords) Fixture.snakeSymptoms64
                                 enhancedSymptoms) /\
  (forall d : Diagnosis.t,
     d ∈ Binary64.scoreCauses Sample.engine Sample.snakePlant Fixture.snakeSymptoms64
                              enhancedSymptoms
                              "My snake plant has yellow mushy leaves" inputLower ->
     let causeKeywords := default [] (Cause.keywords (Diagnosis.cause d)) in
     let allMatches := allMatchesOf inputLower causeKeywords in
     Diagnosis.cause d ∈ Plant.causes Sample.snakePlant /\
     ((0 < length allMatches)%nat \/ Plant.id Sample.snakePlant = "generic") /\
     Diagnosis.confidence d
     == Spec64.confidenceFormula (config Sample.engine) (length allMatches)
                                 (length causeKeywords) Fixture.snakeSymptoms64
                                 enhancedSymptoms).
Proof.
  assert (Binary64.extractSymptoms Sample.engine "My snake plant has yellow mushy leaves"
                                   Sample.snakePlant
          = Some Fixture.snakeSymptoms64) as Hextract by (vm_compute; reflexivity).
  split; [exact Hextract|].
  exact (confidence_formula Sample.engine "My snake plant has yellow mushy leaves"
                            Sample.snakePlant Fixture.snakeSymptoms64 Hextract).
Defined.

(** The formula on the sample: two of the three keywords of the
    overwatering cause, symptom weights 1.0, 1.0 and 0.4, enhanced weights
    0.7 and 0.7.  The value is the binary64 value printed as
    0.6466666666666666, below the 97/150 of exact arithmetic. *)
Example confidence_formula_sample :
  Spec64.confidenceFormula Config.defaults 2 3 Fixture.snakeSymptoms64
    (Binary64.enhancedSymptomDetection "my snake plant has yellow mushy leaves"
                                       Sample.snakePlant)
  = Binary64.lit 0.6466666666666666 /\
  Binary64.lit 0.6466666666666666 < 97 # 150.
Proof. vm_compute. split; reflexivity. Qed.

(** Rounding decides a comparison: for two symptoms and three enhanced
    symptoms of weight 1.0 and no matched keyword, under the weights 0.4 and
    0.6, the confidence is the binary64 value printed as
    0.49999999999999994, which a threshold of 0.5 rejects, where exact
    arithmetic gives 1/2. *)
Example confidence_rounding_sample :
  let direct := SymptomMatch.mk "yellow leaves" "plant_specific" 1 (Some "exact") in
  let enhanced := SymptomMatch.mk "yellow leaves" "enhanced_direct" 1 None in
  Binary64.calculateEnhancedConfidence Sample.strictEngine [] 1
                                       [direct; direct] [enhanced; enhanced; enhanced]
  = Binary64.lit 0.49999999999999994 /\
  JS.ge (Binary64.lit 0.49999999999999994) (Binary64.lit 0.5) = false /\
  calculateEnhancedConfidence Sample.strictEngine [] 1
                              [direct; direct] [enhanced; enhanced; enhanced]
  == 1 # 2.
Proof. vm_compute. repeat split; reflexivity. Qed.

(** ** The accumulated weight of a symptom *)

Lemma num_add (n m : nat) : JS.num (n + m) == JS.num n + JS.num m.
Proof. unfold JS.num. rewrite Nat2Z.inj_add, inject_Z_plus. reflexivity. Qed.

Lemma inner_pass_score (symptomWord : string) (inputWords : list string) (st : Q * string) :
  fst (fold_left (fun st inputWord =>
                    if JS.includes inputWord symptomWord || JS.includes symptomWord inputWord
                    then (fst st + 0.3, "partial") else st)
                 inputWords st)
  == fst st + 0.3 * JS.num (length (List.filter (Spec.wordsOverlap symptomWord) inputWords)).
Proof.
  revert st. induction inputWords as [|inputWord inputWords IH]; intros st; simpl.
  - change (JS.num 0) with 0. lra.
  - rewrite IH. unfold Spec.wordsOverlap at 2.
    destruct (JS.includes inputWord symptomWord || JS.includes symptomWord inputWord).
    + change (length (inputWord :: ?l)) with (S (length l)).
      cbn [length fst]. rewrite num_succ. lra.
    + reflexivity.
Qed.

Lemma filter_pairs_length (f : string * string -> bool) (x : string) (ys : list string) :
  length (List.filter f (map (pair x) ys)) = length (List.filter (fun y => f (x, y)) ys).
Proof.
  induction ys as [|y ys IH]; simpl; [reflexivity|].
  destruct (f (x, y)); simpl; rewrite IH; reflexivity.
Qed.

Lemma overlappingPairs_cons (symptomWord : string) (symptomWords inputWords : list string) :
  Spec.overlappingPairs (symptomWord :: symptomWords) inputWords
  = ((if (2 <? String.length symptomWord)%nat
      then length (List.filter (Spec.wordsOverlap symptomWord) inputWords)
      else 0) + Spec.overlappingPairs symptomWords inputWords)%nat.
Proof.
  unfold Spec.overlappingPairs. simpl.
  destruct (2 <? String.length symptomWord)%nat; [|reflexivity].
  simpl. rewrite List.filter_app, length_app, filter_pairs_length. reflexivity.
Qed.

Lemma partialWordPass_score (symptomWords inputWords : list string) (st : Q * string) :
  fst (partialWordPass symptomWords inputWords st)
  == fst st + 0.3 * JS.num (Spec.overlappingPairs symptomWords inputWords).
Proof.
  unfold partialWordPass. revert st.
  induction symptomWords as [|symptomWord symptomWords IH]; intros st; simpl.
  - change (JS.num (Spec.overlappingPairs [] inputWords)) with 0. lra.
  - rewrite IH, overlappingPairs_cons, num_add.
    destruct (2 <? String.length symptomWord)%nat.
    + rewrite inner_pass_score. lra.
    + change (JS.num 0) with 0. lra.
Qed.

Lemma substringPass_score (text : string) (symptomWords : list string) (st : Q * string) :
  fst (substringPass text symptomWords st)
  == fst st + 0.5 * JS.num (Spec.wordsInText text symptomWords).
Proof.
  unfold substringPass, Spec.wordsInText. revert st.
  induction symptomWords as [|symptomWord symptomWords IH]; intros st; simpl.
  - change (JS.num 0) with 0. lra.
  - rewrite IH.
    destruct ((3 <? String.length symptomWord)%nat && JS.includes text symptomWord).
    + cbn [length fst]. rewrite num_succ. lra.
    + reflexivity.
Qed.

Lemma count_fold {A} (p : A -> bool) (l : list A) (n : nat) :
  fold_left (fun matches x => if p x then (matches + 1)%nat else matches) l n
  = (n + length (List.filter p l))%nat.
Proof.
  revert n. induction l as [|x l IH]; intros n; simpl; [lia|].
  rewrite IH. destruct (p x); simpl; lia.
Qed.

Lemma getSemanticMatches_sharedGroups (symptomLower text : string) :
  getSemanticMatches symptomLower text = Spec.sharedGroups symptomLower text.
Proof.
  unfold getSemanticMatches, Spec.sharedGroups.
  rewrite (count_fold (fun group =>
                         existsb (fun keyword => JS.includes symptomLower keyword) (snd group) &&
                         existsb (fun keyword => JS.includes text keyword) (snd group))).
  reflexivity.
Qed.

Lemma accumulateScore_pairwise (text symptomLower : string) :
  fst (accumulateScore text symptomLower) == Spec.pairwiseScore text symptomLower.
Proof.
  unfold accumulateScore, Spec.pairwiseScore. cbn [fst].
  rewrite substringPass_score, partialWordPass_score, getSemanticMatches_sharedGroups.
  cbn [fst]. lra.
Qed.

(** The same count for the binary64 additions of the loops. *)

Lemma addTimes_succ (w : Q) (n : nat) (start : Q) :
  Spec64.addTimes w (S n) start = Spec64.addTimes w n (Binary64.add start w).
Proof.
  unfold Spec64.addTimes. set (f := fun sum => Binary64.add sum w).
  change (Binary64.add start w) with (f start).
  induction n as [|n IH]; [reflexivity|].
  change (f (Nat.iter (S n) f start) = f (Nat.iter n f (f start))).
  rewrite IH. reflexivity.
Qed.

Lemma addTimes_add (w : Q) (n m : nat) (start : Q) :
  Spec64.addTimes w (n + m) start = Spec64.addTimes w m (Spec64.addTimes w n start).
Proof.
  revert start. induction n as [|n IH]; intros start; [reflexivity|].
  change (S n + m)%nat with (S (n + m)). rewrite !addTimes_succ. apply IH.
Qed.

Lemma inner_pass_accumulated (symptomWord : string) (inputWords : list string)
  (st : Q * string) :
  fst (fold_left (fun st inputWord =>
                    if JS.includes inputWord symptomWord || JS.includes symptomWord inputWord
                    then (Binary64.add (fst st) (Binary64.lit 0.3), "partial") else st)
                 inputWords st)
  = Spec64.addTimes (Binary64.lit 0.3)
      (length (List.filter (Spec.wordsOverlap symptomWord) inputWords)) (fst st).
Proof.
  revert st. induction inputWords as [|inputWord inputWords IH]; intros st; [reflexivity|].
  cbn [fold_left List.filter]. rewrite IH. unfold Spec.wordsOverlap at 2.
  destruct (JS.includes inputWord symptomWord || JS.includes symptomWord inputWord).
  - cbn [length fst]. rewrite addTimes_succ. reflexivity.
  - reflexivity.
Qed.

Lemma partialWordPass_accumulated (symptomWords inputWords : list string) (st : Q * string) :
  fst (Binary64.partialWordPass symptomWords inputWords st)
  = Spec64.addTimes (Binary64.lit 0.3) (Spec.overlappingPairs symptomWords inputWords)
                    (fst st).
Proof.
  unfold Binary64.partialWordPass. revert st.
  induction symptomWords as [|symptomWord symptomWords IH]; intros st; [reflexivity|].
  cbn [fold_left]. rewrite IH, overlappingPairs_cons, addTimes_add.
  destruct (2 <? String.length symptomWord)%nat.
  - rewrite inner_pass_accumulated. reflexivity.
  - reflexivity.
Qed.

Lemma substringPass_accumulated (text : string) (symptomWords : list string)
  (st : Q * string) :
  fst (Binary64.substringPass text symptomWords st)
  = Spec64.addTimes (Binary64.lit 0.5) (Spec.wordsInText text symptomWords) (fst st).
Proof.
  unfold Binary64.substringPass, Spec.wordsInText. revert st.
  induction symptomWords as [|symptomWord symptomWords IH]; intros st; [reflexivity|].
  cbn [fold_left List.filter]. rewrite IH.
  destruct ((3 <? String.length symptomWord)%nat && JS.includes text symptomWord).
  - cbn [length fst]. rewrite addTimes_succ. reflexivity.
  - reflexivity.
Qed.

(** C5. For a candidate symptom whose lower-cased phrase does not occur in
    the text, the accumulated score (before the clamp to 1.0) is what the
    binary64 additions of the loops leave: starting from 0, 0.3 is added
    once per pair of a symptom word longer than 2 and an input word of which
    one contains the other, then 0.5 is added once per symptom word longer
    than 3 that occurs in the text, then 0.4 times the number of semantic
    groups with a keyword in the symptom and a keyword in the text is
    added.  Symptom and text are cut at single spaces. *)
Theorem scoreSymptom_accumulated (text symptom : string) :
  JS.includes text (JS.toLowerCase symptom) = false ->
  fst (Binary64.scoreSymptom text symptom)
  = Spec64.accumulated
      (Spec.overlappingPairs (JS.splitSpace (JS.toLowerCase symptom)) (JS.splitSpace text))
      (Spec.wordsInText text (JS.splitSpace (JS.toLowerCase symptom)))
      (Spec.sharedGroups (JS.toLowerCase symptom) text).
Proof.
  intros Hnot. unfold Binary64.scoreSymptom. rewrite Hnot.
  unfold Binary64.accumulateScore, Spec64.accumulated. cbn [fst].
  rewrite substringPass_accumulated, partialWordPass_accumulated,
    getSemanticMatches_sharedGroups.
  reflexivity.
Qed.

Lemma scoreSymptom_accumulated_witness :
  JS.includes "sap sap sap sap sap sap" (JS.toLowerCase "Sap on") = false /\
  fst (Binary64.scoreSymptom "sap sap sap sap sap sap" "Sap on")
  = Spec64.accumulated
      (Spec.overlappingPairs (JS.splitSpace (JS.toLowerCase "Sap on"))
                             (JS.splitSpace "sap sap sap sap sap sap"))
      (Spec.wordsInText "sap sap sap sap sap sap" (JS.splitSpace (JS.toLowerCase "Sap on")))
      (Spec.sharedGroups (JS.toLowerCase "Sap on") "sap sap sap sap sap sap").
Proof.
  split; [reflexivity|].
  apply (scoreSymptom_accumulated "sap sap sap sap sap sap" "Sap on"). reflexivity.
Defined.

(** Six pairs and nothing else: the six additions of 0.3 leave the
    binary64 value 1.8, where the product of 0.3 and 6 is the value below
    it, 1.7999999999999998. *)
Example scoreSymptom_six_pairs :
  Spec.overlappingPairs (JS.splitSpace "sap on") (JS.splitSpace "sap sap sap sap sap sap")
  = 6%nat /\
  fst (Binary64.scoreSymptom "sap sap sap sap sap sap" "Sap on") = Binary64.lit 1.8 /\
  Binary64.mul (Binary64.lit 0.3) (JS.num 6) = Binary64.lit 1.7999999999999998 /\
  Binary64.lit 1.7999999999999998 < Binary64.lit 1.8.
Proof. vm_compute. repeat split; reflexivity. Qed.

(** C5, the claim as stated fails: for the symptom "dry soil" and the text
    "dry dry" the symptom word "dry" overlaps with two input words, the
    loops add 0.3 twice and with the shared water group the score is 1.0,
    where the count per symptom word gives 0.7, in binary64 as in exact
    arithmetic. *)
Lemma scoreSymptom_stated_counterexample :
  JS.includes "dry dry" (JS.toLowerCase "dry soil") = false /\
  fst (Binary64.scoreSymptom "dry dry" "dry soil") = 1 /\
  Spec64.statedScore "dry dry" (JS.toLowerCase "dry soil") = Binary64.lit 0.7 /\
  Spec.statedScore "dry dry" (JS.toLowerCase "dry soil") == 0.7 /\
  ~ fst (Binary64.scoreSymptom "dry dry" "dry soil")
    == Spec64.statedScore "dry dry" (JS.toLowerCase "dry soil") /\
  ~ fst (Binary64.scoreSymptom "dry dry" "dry soil")
    == Spec.statedScore "dry dry" (JS.toLowerCase "dry soil").
Proof.
  split; [reflexivity|]. split; [vm_compute; reflexivity|].
  split; [vm_compute; reflexivity|]. split; [vm_compute; reflexivity|].
  split; vm_compute; discriminate.
Qed.

(** ** Further properties of the engine *)

(** *** Truncation of the input *)

Lemma string_length_append (a b : string) :
  String.length (a +:+ b) = (String.length a + String.length b)%nat.
Proof.
  induction a as [|c a IH]; [reflexivity|].
  rewrite append_cons. simpl. rewrite IH. reflexivity.
Qed.

Lemma substring_prefix_split (n : nat) (s : string) :
  (n <= String.length s)%nat ->
  exists rest,
    s = String.substring 0 n s +:+ rest /\ String.length (String.substring 0 n s) = n.
Proof.
  revert s. induction n as [|n IH]; intros s Hn.
  - exists s. destruct s; split; reflexivity.
  - destruct s as [|c s]; simpl in Hn; [lia|].
    destruct (IH s ltac:(lia)) as (rest & Hs & Hlen).
    exists rest. simpl. rewrite append_cons, <- Hs, Hlen. split; reflexivity.
Qed.

Lemma substring_nothing (s : string) : String.substring 0 0 s = EmptyString.
Proof. destruct s; reflexivity. Qed.

(** X1. [truncateInput] leaves an input of at most [maxInputLength]
    characters as it is; a longer input keeps its first [maxInputLength]
    characters and gets the marker "..." appended, so the truncated text has
    [maxInputLength + 3] characters; under a negative [maxInputLength] every
    input becomes the marker alone. *)
Theorem truncateInput_cases (this : PlantDiagnosisEngine) (inputText : string) :
  let maxInputLength := Config.maxInputLength (Config.ui (config this)) in
  ((Z.of_nat (String.length inputText) <= maxInputLength)%Z ->
   truncateInput this inputText = inputText) /\
  ((0 <= maxInputLength < Z.of_nat (String.length inputText))%Z ->
   exists kept rest,
     inputText = kept +:+ rest /\
     Z.of_nat (String.length kept) = maxInputLength /\
     truncateInput this inputText = kept +:+ "..." /\
     Z.of_nat (String.length (truncateInput this inputText)) = (maxInputLength + 3)%Z) /\
  ((maxInputLength < 0)%Z -> truncateInput this inputText = "...").
Proof.
  intros maxInputLength. unfold truncateInput. fold maxInputLength.
  split; [|split].
  - intros Hshort. destruct (Z.ltb_spec maxInputLength (Z.of_nat (String.length inputText)));
      [lia | reflexivity].
  - intros [Hpos Hlong].
    destruct (Z.ltb_spec maxInputLength (Z.of_nat (String.length inputText))); [|lia].
    destruct (substring_prefix_split (Z.to_nat maxInputLength) inputText ltac:(lia))
      as (rest & Hsplit & Hlen).
    exists (String.substring 0 (Z.to_nat maxInputLength) inputText), rest.
    split; [exact Hsplit|]. split; [lia|]. split; [reflexivity|].
    unfold JS.substring0. rewrite string_length_append, Hlen. simpl. lia.
  - intros Hneg.
    destruct (Z.ltb_spec maxInputLength (Z.of_nat (String.length inputText))); [|lia].
    unfold JS.substring0. replace (Z.to_nat maxInputLength) with 0%nat by lia.
    rewrite substring_nothing. reflexivity.
Qed.

Lemma truncateInput_cases_witness :
  truncateInput Sample.engine "my tulsi has curl" = "my tulsi has curl" /\
  (exists kept rest,
     "my tulsi has curl" = kept +:+ rest /\
     Z.of_nat (String.length kept) = 8%Z /\
     truncateInput Fixture.shortInputEngine "my tulsi has curl" = kept +:+ "..." /\
     Z.of_nat (String.length (truncateInput Fixture.shortInputEngine "my tulsi has curl"))
     = (8 + 3)%Z) /\
  truncateInput Fixture.negativeInputEngine "my tulsi has curl" = "...".
Proof.
  split; [|split].
  - apply (proj1 (truncateInput_cases Sample.engine "my tulsi has curl")). simpl. lia.
  - apply (proj1 (proj2 (truncateInput_cases Fixture.shortInputEngine "my tulsi has curl"))).
    simpl. lia.
  - apply (proj2 (proj2 (truncateInput_cases Fixture.negativeInputEngine "my tulsi has curl"))).
    simpl. lia.
Defined.

(** *** When the engine throws *)

Lemma extractSymptoms_not_ready (this : PlantDiagnosisEngine) (inputText : string)
  (plant : Plant.t) :
  Spec.catalogReady this = false -> extractSymptoms this inputText plant = None.
Proof.
  unfold Spec.catalogReady, extractSymptoms.
  destruct (findGeneric this) as [genericPlant|]; [|reflexivity].
  destruct (Plant.symptoms genericPlant); [discriminate | reflexivity].
Qed.

(** X2. [diagnose] throws exactly when the input is not blank and the
    catalog has no generic record with a symptom list; on a blank input it
    answers whatever the catalog is. *)
Theorem diagnose_throws_iff (this : PlantDiagnosisEngine) (now inputText : string) :
  diagnose this now inputText = None
  <-> Spec.allWhiteSpace inputText = false /\ Spec.catalogReady this = false.
Proof.
  split.
  - intros Hthrow. destruct (Spec.allWhiteSpace inputText) eqn:Hinput.
    { rewrite (diagnose_blank this now inputText Hinput) in Hthrow. discriminate. }
    split; [reflexivity|]. destruct (Spec.catalogReady this) eqn:Hready; [|reflexivity].
    destruct (diagnose_nonblank this now inputText Hinput Hready)
      as (plant & symptoms & _ & _ & Hresult).
    congruence.
  - intros [Hinput Hready]. unfold diagnose. rewrite blank_guard, Hinput.
    destruct (Detection.plant _) as [plant|]; [|reflexivity].
    rewrite (extractSymptoms_not_ready this _ plant Hready). reflexivity.
Qed.

(** *** Order of the diagnoses *)

Lemma generateDiagnoses_sorted (this : PlantDiagnosisEngine) (plant : Plant.t)
  (symptoms : list SymptomMatch.t) (inputText : string) :
  Notion.byConfidence (generateDiagnoses this plant symptoms inputText).
Proof.
  unfold Notion.byConfidence.
  destruct (decide (symptoms = [] /\
                    enhancedSymptomDetection (JS.toLowerCase inputText) plant = []))
    as [[Hs He]|Hsome].
  - rewrite (generateDiagnoses_both_empty this plant symptoms inputText Hs He).
    repeat constructor.
  - rewrite (generateDiagnoses_scored this plant symptoms inputText Hsome).
    eapply sublist_StronglySorted; [apply slice0_sublist|].
    apply (sort_sorted Diagnosis.confidence).
Qed.

(** X3. Whatever [diagnose] returns, its diagnoses are in order of
    confidence, the largest first. *)
Theorem diagnose_sorted (this : PlantDiagnosisEngine) (now inputText : string)
  (r : DiagnosisResult.t) :
  diagnose this now inputText = Some r ->
  Notion.byConfidence (DiagnosisResult.diagnoses r).
Proof.
  unfold diagnose.
  destruct (String.eqb inputText "" || (String.length (JS.trim inputText) =? 0)%nat).
  { intros [= <-]. repeat constructor. }
  destruct (Detection.plant _) as [plant|]; [|discriminate].
  destruct (extractSymptoms this _ plant) as [symptoms|]; [|discriminate].
  intros [= <-]. apply generateDiagnoses_sorted.
Qed.

Lemma diagnose_sorted_witness :
  diagnose Sample.engine "2024-01-01T00:00:00.000Z" "yellow and dry soil"
  = Some Fixture.yellowDryResult /\
  Notion.byConfidence (DiagnosisResult.diagnoses Fixture.yellowDryResult).
Proof.
  assert (diagnose Sample.engine "2024-01-01T00:00:00.000Z" "yellow and dry soil"
          = Some Fixture.yellowDryResult) as Hresult by (vm_compute; reflexivity).
  split; [exact Hresult|].
  exact (diagnose_sorted Sample.engine "2024-01-01T00:00:00.000Z" "yellow and dry soil"
                         Fixture.yellowDryResult Hresult).
Defined.

(** *** Alias match, fuzzy match and fallback *)

Lemma lt_true (a b : Q) : JS.lt a b = true <-> a < b.
Proof. apply (gt_true b a). Qed.

Lemma find_none_Forall {A} (f : A -> bool) (l : list A) :
  find f l = None <-> Forall (fun x => f x = false) l.
Proof.
  induction l as [|x l IH]; simpl.
  - split; [constructor | reflexivity].
  - rewrite Forall_cons, <- IH. destruct (f x); split; try tauto; try discriminate.
    intros [H _]. discriminate.
Qed.

(** A phrase that occurs in the text passes the word test of [detectPlant]:
    the test never rejects what the substring test accepted. *)
Lemma verbatim_words_found (phrase text : string) :
  Spec.isSubstring phrase text ->
  everyWordFound (JS.splitWhiteSpace text) (JS.splitWhiteSpace phrase) = true.
Proof.
  intros Hverbatim. apply everyWordFound_spec.
  eapply Forall_impl; [apply splitWhiteSpace_pieces|].
  intros phraseWord [Hfree Hin]. simpl.
  eapply Exists_impl; [|intros word Hword; right; exact Hword].
  apply splitWhiteSpace_covers; [exact Hfree|].
  eapply isSubstring_trans; eassumption.
Qed.

Lemma aliasMatch_spec (inputText alias : string) :
  aliasMatch (JS.toLowerCase inputText)
             (JS.splitWhiteSpace (JS.toLowerCase inputText)) alias = true
  <-> (2 < String.length (JS.toLowerCase alias))%nat /\
      Spec.isSubstring (JS.toLowerCase alias) (JS.toLowerCase inputText).
Proof.
  unfold aliasMatch. rewrite !andb_true_iff, Nat.ltb_lt, includes_spec. split.
  - tauto.
  - intros [Hlen Hin]. split; [tauto|]. apply verbatim_words_found, Hin.
Qed.

Lemma aliasLoop_spec (inputText : string) (plant : Plant.t) :
  existsb (aliasMatch (JS.toLowerCase inputText)
                      (JS.splitWhiteSpace (JS.toLowerCase inputText)))
          (Plant.aliases plant) = true
  <-> Notion.aliasOccurs inputText plant.
Proof.
  unfold Notion.aliasOccurs. induction (Plant.aliases plant) as [|alias aliases IH]; simpl.
  - rewrite Exists_nil. split; [discriminate | tauto].
  - rewrite Exists_cons, orb_true_iff, IH, aliasMatch_spec. tauto.
Qed.

Lemma no_name_match (this : PlantDiagnosisEngine) (inputText : string) :
  find (plantNameMatch (JS.splitWhiteSpace (JS.toLowerCase inputText))) (plants this) = None
  <-> Forall (fun plant => ~ Spec.nameContained inputText plant) (plants this).
Proof.
  rewrite find_none_Forall. apply Forall_iff. intros plant.
  rewrite <- plantNameMatch_spec. symmetry. apply not_true_iff_false.
Qed.

Lemma no_alias_match (this : PlantDiagnosisEngine) (inputText : string) :
  find (fun plant =>
          existsb (aliasMatch (JS.toLowerCase inputText)
                              (JS.splitWhiteSpace (JS.toLowerCase inputText)))
                  (Plant.aliases plant))
       (plants this) = None
  <-> Forall (fun plant => ~ Notion.aliasOccurs inputText plant) (plants this).
Proof.
  rewrite find_none_Forall. apply Forall_iff. intros plant.
  rewrite <- aliasLoop_spec. symmetry. apply not_true_iff_false.
Qed.

(** X4. When no plant name is contained in the input and some plant has an
    alias of more than 2 characters whose lower-cased form occurs in the
    lower-cased input, [detectPlant] answers [alias_match] with score 0.9
    and the first plant of the catalog with such an alias.  The word test
    that follows the substring test in the source rejects nothing. *)
Theorem detectPlant_alias (this : PlantDiagnosisEngine) (inputText : string)
  (candidate : Plant.t) :
  Forall (fun plant => ~ Spec.nameContained inputText plant) (plants this) ->
  candidate ∈ plants this ->
  Notion.aliasOccurs inputText candidate ->
  exists before plant after,
    plants this = (before ++ plant :: after)%list /\
    Notion.aliasOccurs inputText plant /\
    Forall (fun earlier => ~ Notion.aliasOccurs inputText earlier) before /\
    detectPlant this inputText = Detection.mk (Some plant) 0.9 "alias_match".
Proof.
  intros Hnames Hin Halias.
  apply no_name_match in Hnames. apply aliasLoop_spec in Halias.
  destruct (find_exists
              (fun plant =>
                 existsb (aliasMatch (JS.toLowerCase inputText)
                                     (JS.splitWhiteSpace (JS.toLowerCase inputText)))
                         (Plant.aliases plant))
              _ _ Hin Halias) as [plant Hfind].
  destruct (find_first _ _ _ Hfind) as (before & after & Hsplit & Hplant & Hbefore).
  exists before, plant, after. split; [exact Hsplit|].
  split; [apply aliasLoop_spec, Hplant|]. split.
  - eapply Forall_impl; [exact Hbefore|]. intros earlier Hfalse Hoccurs.
    apply aliasLoop_spec in Hoccurs. congruence.
  - unfold detectPlant. rewrite Hnames, Hfind. reflexivity.
Qed.

Lemma detectPlant_alias_witness :
  Forall (fun plant => ~ Spec.nameContained "the basilisk is called holy basil" plant)
         (plants Sample.engine) /\
  Sample.tulsi ∈ plants Sample.engine /\
  Notion.aliasOccurs "the basilisk is called holy basil" Sample.tulsi /\
  exists before plant after,
    plants Sample.engine = (before ++ plant :: after)%list /\
    Notion.aliasOccurs "the basilisk is called holy basil" plant /\
    Forall (fun earlier => ~ Notion.aliasOccurs "the basilisk is called holy basil" earlier)
           before /\
    detectPlant Sample.engine "the basilisk is called holy basil"
    = Detection.mk (Some plant) 0.9 "alias_match".
Proof.
  assert (Forall (fun plant => ~ Spec.nameContained "the basilisk is called holy basil" plant)
                 (plants Sample.engine)) as Hnames.
  { apply no_name_match. vm_compute. reflexivity. }
  assert (Sample.tulsi ∈ plants Sample.engine) as Hin.
  { apply list_elem_of_In. simpl. right. left. reflexivity. }
  assert (Notion.aliasOccurs "the basilisk is called holy basil" Sample.tulsi) as Halias.
  { apply aliasLoop_spec. vm_compute. reflexivity. }
  split; [exact Hnames|]. split; [exact Hin|]. split; [exact Halias|].
  exact (detectPlant_alias Sample.engine "the basilisk is called holy basil" Sample.tulsi
                           Hnames Hin Halias).
Defined.

(** X5. [detectPlant] answers [fuzzy_match] exactly when no plant name is
    contained in the input, no alias occurs in it and the best hit of the
    index has a distance below [fuzzyThreshold]; the plant is then the item
    of that hit and the score is the binary64 difference of 1 and the
    distance, which is not below the binary64 difference of 1 and
    [fuzzyThreshold] (it can be equal to it).  It answers [generic_fallback]
    exactly when no name and no alias match and the index has no such hit;
    the answer is then the generic record of the catalog (or none) with
    score 0.1. *)
Theorem detectPlant_last_resorts (this : PlantDiagnosisEngine) (inputText : string) :
  let detection := Binary64.detectPlant this inputText in
  let unnamed :=
    Forall (fun plant => ~ Spec.nameContained inputText plant) (plants this) /\
    Forall (fun plant => ~ Notion.aliasOccurs inputText plant) (plants this) in
  (Detection.method detection = "fuzzy_match"
   <-> unnamed /\ Notion.fuzzyHit this inputText) /\
  (Detection.method detection = "generic_fallback"
   <-> unnamed /\ ~ Notion.fuzzyHit this inputText) /\
  (Detection.method detection = "fuzzy_match" ->
   Binary64.sub 1 (Binary64.lit (Config.fuzzyThreshold (Config.diagnosis (config this))))
   <= Detection.score detection /\
   exists best rest,
     fuse this inputText = best :: rest /\
     Detection.plant detection = Some (FuseResult.item best) /\
     Detection.score detection = Binary64.sub 1 (Binary64.lit (FuseResult.score best))) /\
  (Detection.method detection = "generic_fallback" ->
   Detection.plant detection = findGeneric this /\
   Detection.score detection = Binary64.lit 0.1).
Proof.
  intros detection unnamed.
  unfold detection, unnamed, Binary64.detectPlant, Notion.fuzzyHit.
  rewrite <- no_name_match, <- no_alias_match.
  destruct (find (plantNameMatch _) (plants this)) as [named|].
  { simpl. split; [|split; [|split]]; try discriminate.
    - split; [discriminate | intros [[H _] _]; discriminate].
    - split; [discriminate | intros [[H _] _]; discriminate]. }
  destruct (find _ (plants this)) as [aliased|].
  { simpl. split; [|split; [|split]]; try discriminate.
    - split; [discriminate | intros [[_ H] _]; discriminate].
    - split; [discriminate | intros [[_ H] _]; discriminate]. }
  destruct (fuse this inputText) as [|best rest].
  { simpl. split; [|split; [|split]]; try discriminate.
    - split; [discriminate | intros (_ & b & r & H & _); discriminate].
    - split; [|reflexivity]. intros _. split; [split; reflexivity|].
      intros (b & r & H & _). discriminate.
    - intros _. split; reflexivity. }
  destruct (JS.lt _ _) eqn:Hlt; simpl.
  - apply lt_true in Hlt. split; [|split; [|split]]; try discriminate.
    + split; [|reflexivity]. intros _. split; [split; reflexivity|].
      exists best, rest. split; [reflexivity | exact Hlt].
    + split; [discriminate|]. intros [_ Hno]. destruct Hno.
      exists best, rest. split; [reflexivity | exact Hlt].
    + intros _. split; [|exists best, rest; repeat split].
      unfold Binary64.sub. apply round64_le. lra.
  - assert (~ Binary64.lit (FuseResult.score best)
              < Binary64.lit (Config.fuzzyThreshold (Config.diagnosis (config this))))
      as Hge.
    { intros H. apply lt_true in H. congruence. }
    split; [|split; [|split]]; try discriminate.
    + split; [discriminate|]. intros (_ & b & r & [= <- <-] & H). contradiction.
    + split; [|reflexivity]. intros _. split; [split; reflexivity|].
      intros (b & r & [= <- <-] & H). contradiction.
    + intros _. split; reflexivity.
Qed.

Lemma detectPlant_last_resorts_witness :
  let detection := Binary64.detectPlant Fixture.fuzzyEngine "my tulsy is wilting" in
  Detection.method detection = "fuzzy_match" /\
  (Forall (fun plant => ~ Spec.nameContained "my tulsy is wilting" plant)
          (plants Fixture.fuzzyEngine) /\
   Forall (fun plant => ~ Notion.aliasOccurs "my tulsy is wilting" plant)
          (plants Fixture.fuzzyEngine)) /\
  Notion.fuzzyHit Fixture.fuzzyEngine "my tulsy is wilting" /\
  Binary64.sub 1 (Binary64.lit (Config.fuzzyThreshold
                                  (Config.diagnosis (config Fixture.fuzzyEngine))))
  <= Detection.score detection /\
  Detection.method (Binary64.detectPlant Sample.engine "my tulsy is wilting")
  = "generic_fallback" /\
  Detection.plant (Binary64.detectPlant Sample.engine "my tulsy is wilting")
  = findGeneric Sample.engine.
Proof.
  pose proof (detectPlant_last_resorts Fixture.fuzzyEngine "my tulsy is wilting")
    as (Hfuzzy & _ & Hscore & _).
  pose proof (detectPlant_last_resorts Sample.engine "my tulsy is wilting")
    as (_ & _ & _ & Hgeneric).
  assert (Detection.method (Binary64.detectPlant Fixture.fuzzyEngine "my tulsy is wilting")
          = "fuzzy_match") as Hmethod by (vm_compute; reflexivity).
  assert (Detection.method (Binary64.detectPlant Sample.engine "my tulsy is wilting")
          = "generic_fallback") as Hmethod' by (vm_compute; reflexivity).
  split; [exact Hmethod|].
  split; [exact (proj1 (proj1 Hfuzzy Hmethod))|].
  split; [exact (proj2 (proj1 Hfuzzy Hmethod))|].
  split; [exact (proj1 (Hscore Hmethod))|].
  split; [exact Hmethod'|].
  exact (proj1 (Hgeneric Hmethod')).
Defined.

(** The bound is attained: with a threshold of 0.25 and a hit at the
    binary64 value just below it, the distance passes the test and the
    score is 0.75, the difference of 1 and the threshold. *)
Example detectPlant_fuzzy_bound_sample :
  let nearest := 0.25 - (1 # 2) ^ 55 in
  Binary64.representable nearest /\
  nearest < Binary64.lit 0.25 /\
  Binary64.sub 1 nearest = Binary64.sub 1 (Binary64.lit 0.25).
Proof. vm_compute. repeat split; reflexivity. Qed.

(** *** Enhanced symptoms are matched symptoms *)

Lemma splitSpace_cons (c : ascii) (s : string) :
  JS.splitSpace (String c s)
  = if Ascii.eqb c " " then EmptyString :: JS.splitSpace s
    else JS.consFirst c (JS.splitSpace s).
Proof. reflexivity. Qed.

Lemma splitSpace_nonempty (s : string) : JS.splitSpace s <> [].
Proof.
  destruct s as [|c s]; [discriminate|]. rewrite splitSpace_cons.
  destruct (Ascii.eqb c " "); [discriminate | apply consFirst_nonempty].
Qed.

Lemma splitSpace_noSpace (s : string) :
  Forall (fun w => Notion.noSpace w = true) (JS.splitSpace s).
Proof.
  induction s as [|c s IH]; [repeat constructor|].
  rewrite splitSpace_cons. destruct (Ascii.eqb c " ") eqn:Hc.
  - constructor; [reflexivity | exact IH].
  - pose proof (splitSpace_nonempty s) as Hne.
    destruct (JS.splitSpace s) as [|w ws]; [congruence|]. simpl.
    apply Forall_cons in IH as [Hw Hws]. constructor; [|exact Hws].
    simpl. rewrite Hc, Hw. reflexivity.
Qed.

Lemma prefix_cons (c : ascii) (p s : string) :
  String.prefix (String c p) (String c s) = String.prefix p s.
Proof. simpl. destruct (ascii_dec c c); [reflexivity | congruence]. Qed.

Lemma prefix_empty (s : string) : String.prefix EmptyString s = true.
Proof. destruct s; reflexivity. Qed.

Lemma splitSpace_first_longest (u s : string) :
  Notion.noSpace u = true ->
  String.prefix u s = true ->
  String.prefix u (hd EmptyString (JS.splitSpace s)) = true.
Proof.
  revert s. induction u as [|d u IH]; intros s Hu Hp; [apply prefix_empty|].
  destruct s as [|c s]; [discriminate|]. simpl in Hp, Hu.
  destruct (ascii_dec d c) as [->|]; [|discriminate].
  apply andb_true_iff in Hu as [Hc Hu]. apply negb_true_iff in Hc.
  rewrite splitSpace_cons, Hc. specialize (IH s Hu Hp).
  pose proof (splitSpace_nonempty s) as Hne.
  destruct (JS.splitSpace s) as [|w ws]; [congruence|].
  simpl hd in *. rewrite prefix_cons. exact IH.
Qed.

(** A run without spaces that occurs in the text occurs in one of the
    pieces of the text. *)
Lemma splitSpace_covers (u s : string) :
  Notion.noSpace u = true ->
  Spec.isSubstring u s ->
  Exists (fun w => Spec.isSubstring u w) (JS.splitSpace s).
Proof.
  intros Hu. induction s as [|c s IH]; intros Hs.
  - apply Exists_cons_hd. exact Hs.
  - apply isSubstring_cons_inv in Hs as [Hp|Hs].
    + pose proof (splitSpace_first_longest u (String c s) Hu Hp) as Hfirst.
      pose proof (splitSpace_nonempty (String c s)) as Hne.
      destruct (JS.splitSpace (String c s)) as [|w ws]; [congruence|].
      apply Exists_cons_hd. apply prefix_isSubstring. exact Hfirst.
    + specialize (IH Hs). rewrite splitSpace_cons.
      destruct (Ascii.eqb c " "); [apply Exists_cons_tl, IH|].
      destruct (JS.splitSpace s) as [|w ws]; [inversion IH|]. simpl.
      apply Exists_cons in IH as [IH|IH].
      * apply Exists_cons_hd. apply isSubstring_skip, IH.
      * apply Exists_cons_tl, IH.
Qed.

Lemma overlappingPairs_positive (symptomWords inputWords : list string)
  (symptomWord inputWord : string) :
  In symptomWord symptomWords ->
  (2 < String.length symptomWord)%nat ->
  In inputWord inputWords ->
  Spec.wordsOverlap symptomWord inputWord = true ->
  (1 <= Spec.overlappingPairs symptomWords inputWords)%nat.
Proof.
  intros Hsw Hlen Hiw Hoverlap. unfold Spec.overlappingPairs.
  assert (In (symptomWord, inputWord)
             (List.filter (fun pair => Spec.wordsOverlap (fst pair) (snd pair))
                (list_prod (List.filter (fun w => (2 <? String.length w)%nat) symptomWords)
                           inputWords))) as Hin.
  { apply filter_In. split; [|exact Hoverlap]. apply in_prod; [|exact Hiw].
    apply filter_In. split; [exact Hsw | apply Nat.ltb_lt, Hlen]. }
  destruct (List.filter _ _); [destruct Hin | simpl; lia].
Qed.

(** A symptom with a word of more than 2 characters that occurs in the text
    scores at least 0.3 in the accumulating branch. *)
Lemma accumulateScore_partial (text symptomLower : string) :
  existsb (fun word => (2 <? String.length word)%nat && JS.includes text word)
          (JS.splitSpace symptomLower) = true ->
  0.3 <= fst (accumulateScore text symptomLower).
Proof.
  intros Hword. apply existsb_exists in Hword as (word & Hin & Hword).
  apply andb_true_iff in Hword as [Hlen Hoccurs].
  apply Nat.ltb_lt in Hlen. apply includes_spec in Hoccurs.
  assert (Notion.noSpace word = true) as Hfree.
  { pose proof (splitSpace_noSpace symptomLower) as Hall.
    rewrite List.Forall_forall in Hall. apply Hall, Hin. }
  pose proof (splitSpace_covers word text Hfree Hoccurs) as Hpiece.
  apply List.Exists_exists in Hpiece as (inputWord & Hiw & Hsub).
  assert (Spec.wordsOverlap word inputWord = true) as Hoverlap.
  { unfold Spec.wordsOverlap. apply orb_true_iff. left. apply includes_spec, Hsub. }
  pose proof (overlappingPairs_positive _ _ _ _ Hin Hlen Hiw Hoverlap) as Hpairs.
  rewrite accumulateScore_pairwise. unfold Spec.pairwiseScore.
  pose proof (num_le _ _ Hpairs) as Hnum. change (JS.num 1) with 1 in Hnum.
  pose proof (num_nonneg (Spec.wordsInText text (JS.splitSpace symptomLower))).
  pose proof (num_nonneg (Spec.sharedGroups symptomLower text)).
  lra.
Qed.

Lemma enhanced_symptom_matched (text : string) (plant : Plant.t)
  (allSymptoms : list string) (e : SymptomMatch.t) :
  e ∈ enhancedSymptomDetection text plant ->
  (forall s, In s (default [] (Plant.symptoms plant)) -> In s allSymptoms) ->
  exists m,
    m ∈ matchSymptoms text (default [] (Plant.symptoms plant)) allSymptoms /\
    SymptomMatch.symptom m = SymptomMatch.symptom e.
Proof.
  unfold enhancedSymptomDetection, matchSymptoms.
  rewrite list_elem_of_In, in_flat_map. intros (symptom & Hsymptom & He) Hall.
  assert (SymptomMatch.symptom e = symptom /\ 0.2 < fst (scoreSymptom text symptom))
    as [Hname Hscore].
  { unfold scoreSymptom. destruct (JS.includes text (JS.toLowerCase symptom)).
    - destruct He as [<-|[]]. split; [reflexivity|]. simpl. reflexivity.
    - destruct (existsb _ _) eqn:Hword; [|destruct He].
      destruct He as [<-|[]]. split; [reflexivity|].
      pose proof (accumulateScore_partial text (JS.toLowerCase symptom) Hword). lra. }
  destruct (scoreSymptom text symptom) as [matchScore matchType] eqn:Hs.
  simpl in Hscore. apply gt_true in Hscore.
  eexists. split.
  - apply list_elem_of_In, in_flat_map. exists symptom. split; [apply Hall, Hsymptom|].
    rewrite Hs, Hscore. left. reflexivity.
  - simpl. symmetry. exact Hname.
Qed.

Lemma keepFirstBy_nonempty {A} (key : A -> string) (l : list A) :
  l <> [] -> JS.keepFirstBy key ∅ l <> [].
Proof.
  destruct l as [|x l]; [congruence|]. intros _. simpl.
  case_bool_decide as Hx; [set_solver | discriminate].
Qed.

Lemma scoreCauses_floor (this : PlantDiagnosisEngine) (plant : Plant.t)
  (symptoms enhancedSymptoms : list SymptomMatch.t) (inputText inputLower : string)
  (d : Diagnosis.t) :
  d ∈ scoreCauses this plant symptoms enhancedSymptoms inputText inputLower ->
  0.3 <= Diagnosis.confidence d.
Proof.
  unfold scoreCauses, scoreCause. rewrite list_elem_of_In, in_flat_map.
  intros (cause & _ & Hd).
  destruct (_ || _); [|destruct Hd]. destruct (JS.ge _ _); [|destruct Hd].
  destruct Hd as [<-|[]]. simpl. apply calculateEnhancedConfidence_range.
Qed.

(** X6. In the pipeline the enhanced pass finds nothing that
    [extractSymptoms] has not found for the same text and plant: when
    [extractSymptoms] returns an empty list the enhanced list is empty too.
    Hence [generateDiagnoses] answers with the unclear-symptoms diagnosis
    exactly when [extractSymptoms] returned no symptom. *)
Theorem no_symptoms_iff (this : PlantDiagnosisEngine) (inputText : string)
  (plant : Plant.t) (symptoms : list SymptomMatch.t) :
  extractSymptoms this inputText plant = Some symptoms ->
  (symptoms = [] -> enhancedSymptomDetection (JS.toLowerCase inputText) plant = []) /\
  (generateDiagnoses this plant symptoms inputText = [noSymptomsDiagnosis]
   <-> symptoms = []).
Proof.
  intros Hextract.
  assert (symptoms = [] -> enhancedSymptomDetection (JS.toLowerCase inputText) plant = [])
    as Hnone.
  { intros ->. unfold extractSymptoms in Hextract.
    destruct (findGeneric this) as [genericPlant|]; [|discriminate].
    destruct (Plant.symptoms genericPlant) as [genericSymptoms|]; [|discriminate].
    injection Hextract as Hempty.
    destruct (enhancedSymptomDetection (JS.toLowerCase inputText) plant) as [|e es] eqn:He;
      [reflexivity|].
    destruct (enhanced_symptom_matched
                (JS.toLowerCase inputText) plant
                (default [] (Plant.symptoms plant) ++ genericSymptoms) e) as (m & Hm & _).
    { rewrite He. apply list_elem_of_here. }
    { intros s Hs. apply in_or_app. left. exact Hs. }
    exfalso. revert Hempty. apply slice0_nonempty; [lia|].
    apply keepFirstBy_nonempty, sort_nonempty.
    intros Hcandidates. rewrite Hcandidates in Hm. inversion Hm. }
  split; [exact Hnone|]. split.
  - intros Hresult.
    destruct (decide (symptoms = [])) as [Hs|Hs]; [exact Hs|]. exfalso.
    rewrite generateDiagnoses_scored in Hresult by tauto.
    assert (noSymptomsDiagnosis ∈ [noSymptomsDiagnosis]) as Hin by apply list_elem_of_here.
    rewrite <- Hresult in Hin. apply slice0_elem_of, sort_elem_of in Hin.
    destruct (scoreCauses this plant symptoms _ inputText _) as [|d0 scored] eqn:Hscored.
    + destruct (detectGenericCause _ plant) as [genericCause|]; [|inversion Hin].
      apply list_elem_of_singleton in Hin. discriminate Hin.
    + rewrite <- Hscored in Hin. apply scoreCauses_floor in Hin.
      simpl in Hin. apply Hin. reflexivity.
  - intros Hs. apply generateDiagnoses_both_empty; [exact Hs | apply Hnone, Hs].
Qed.

Lemma no_symptoms_iff_witness :
  extractSymptoms Sample.engine "hello there" Sample.generic = Some [] /\
  (@nil SymptomMatch.t = [] ->
   enhancedSymptomDetection (JS.toLowerCase "hello there") Sample.generic = []) /\
  (generateDiagnoses Sample.engine Sample.generic [] "hello there" = [noSymptomsDiagnosis]
   <-> @nil SymptomMatch.t = []).
Proof.
  assert (extractSymptoms Sample.engine "hello there" Sample.generic = Some []) as Hextract
      by (vm_compute; reflexivity).
  split; [exact Hextract|].
  exact (no_symptoms_iff Sample.engine "hello there" Sample.generic [] Hextract).
Defined.

(** *** Nothing matched is dropped before the tenth entry *)

Lemma keepFirstBy_complete {A} (key : A -> string) (seen : gset string) (l : list A) (x : A) :
  x ∈ l -> key x ∉ seen -> key x ∈ key <$> JS.keepFirstBy key seen l.
Proof.
  revert seen. induction l as [|y l IH]; intros seen Hx Hseen; [inversion Hx|].
  simpl. destruct (decide (key y = key x)) as [Hsame|Hdiff].
  - case_bool_decide as Hy; [rewrite Hsame in Hy; contradiction|].
    rewrite fmap_cons, Hsame. apply list_elem_of_here.
  - apply elem_of_cons in Hx as [->|Hx]; [congruence|].
    case_bool_decide as Hy.
    + apply IH; assumption.
    + rewrite fmap_cons. apply list_elem_of_further. apply IH; [exact Hx|].
      rewrite elem_of_union, elem_of_singleton. intros [Heq|Hin]; [congruence | contradiction].
Qed.

Lemma slice0_all_or_full {A} (l : list A) (n : nat) :
  JS.slice0 l (Z.of_nat n) = l \/ length (JS.slice0 l (Z.of_nat n)) = n.
Proof.
  unfold JS.slice0. destruct (Z.ltb_spec (Z.of_nat n) 0); [lia|].
  rewrite Nat2Z.id. destruct (le_lt_dec (length l) n) as [Hle|Hlt].
  - left. apply firstn_all2, Hle.
  - right. rewrite length_take. lia.
Qed.

(** X7. [extractSymptoms] drops a matched symptom only to stay within ten
    entries: either it returns exactly ten entries, or the text of every
    matched candidate is the text of one of the entries returned. *)
Theorem extractSymptoms_complete (this : PlantDiagnosisEngine) (inputText : string)
  (plant : Plant.t) (genericPlant : Plant.t) (genericSymptoms : list string)
  (result : list SymptomMatch.t) :
  findGeneric this = Some genericPlant ->
  Plant.symptoms genericPlant = Some genericSymptoms ->
  extractSymptoms this inputText plant = Some result ->
  length result = 10%nat \/
  forall m,
    m ∈ matchSymptoms (JS.toLowerCase inputText)
                      (default [] (Plant.symptoms plant))
                      (default [] (Plant.symptoms plant) ++ genericSymptoms) ->
    SymptomMatch.symptom m ∈ SymptomMatch.symptom <$> result.
Proof.
  intros Hg Hgs. unfold extractSymptoms. rewrite Hg, Hgs. intros [= <-].
  destruct (slice0_all_or_full
              (JS.keepFirstBy SymptomMatch.symptom ∅
                 (JS.sort byWeightDescending
                    (matchSymptoms (JS.toLowerCase inputText)
                       (default [] (Plant.symptoms plant))
                       (default [] (Plant.symptoms plant) ++ genericSymptoms))))
              10) as [Hall|Hfull].
  - right. intros m Hm. change (Z.of_nat 10) with 10%Z in Hall. rewrite Hall.
    apply keepFirstBy_complete; [|set_solver]. apply sort_elem_of, Hm.
  - left. exact Hfull.
Qed.

Lemma extractSymptoms_complete_witness :
  findGeneric Sample.engine = Some Sample.generic /\
  Plant.symptoms Sample.generic = Some ["yellow leaves"; "dry soil"; "brown spots"] /\
  extractSymptoms Sample.engine "My snake plant has yellow mushy leaves" Sample.snakePlant
  = Some Sample.snakeSymptoms /\
  (length Sample.snakeSymptoms = 10%nat \/
   forall m,
     m ∈ matchSymptoms (JS.toLowerCase "My snake plant has yellow mushy leaves")
                       (default [] (Plant.symptoms Sample.snakePlant))
                       (default [] (Plant.symptoms Sample.snakePlant)
                        ++ ["yellow leaves"; "dry soil"; "brown spots"]) ->
     SymptomMatch.symptom m ∈ SymptomMatch.symptom <$> Sample.snakeSymptoms).
Proof.
  assert (extractSymptoms Sample.engine "My snake plant has yellow mushy leaves"
                          Sample.snakePlant
          = Some Sample.snakeSymptoms) as Hextract by (vm_compute; reflexivity).
  split; [reflexivity|]. split; [reflexivity|]. split; [exact Hextract|].
  exact (extractSymptoms_complete
           Sample.engine "My snake plant has yellow mushy leaves" Sample.snakePlant
           Sample.generic ["yellow leaves"; "dry soil"; "brown spots"] Sample.snakeSymptoms
           eq_refl eq_refl Hextract).
Defined.

(** *** The generic record is scored on every cause *)

Lemma scoreCauses_generic (this : PlantDiagnosisEngine) (plant : Plant.t)
  (symptoms enhancedSymptoms : list SymptomMatch.t) (inputText inputLower : string) :
  Plant.id plant = "generic" ->
  Config.minConfidenceThreshold (Config.diagnosis (config this)) <= 0.3 ->
  Diagnosis.cause <$> scoreCauses this plant symptoms enhancedSymptoms inputText inputLower
  = Plant.causes plant.
Proof.
  intros Hid Hthreshold. unfold scoreCauses.
  induction (Plant.causes plant) as [|cause causes IH]; [reflexivity|].
  simpl. rewrite fmap_app, IH. unfold scoreCause at 1.
  rewrite Hid. rewrite orb_true_r.
  match goal with |- context [JS.ge ?c ?t] => assert (JS.ge c t = true) as -> end.
  { apply ge_true.
    pose proof (calculateEnhancedConfidence_range
                  this (allMatchesOf inputLower (default [] (Cause.keywords cause)))
                  (length (default [] (Cause.keywords cause))) symptoms enhancedSymptoms)
      as [Hfloor _].
    lra. }
  reflexivity.
Qed.

(** X8. On a plant whose id is [generic], under a threshold of at most 0.3
    and with some symptom found, every cause of the plant is accepted, in
    catalog order and whether or not one of its keywords occurs: the result
    has [min(|causes|, maxDiagnoses)] diagnoses, and the last-resort
    detector is not consulted (the plant having at least one cause). *)
Theorem generateDiagnoses_generic (this : PlantDiagnosisEngine) (plant : Plant.t)
  (symptoms : list SymptomMatch.t) (inputText : string) :
  Plant.id plant = "generic" ->
  Config.minConfidenceThreshold (Config.diagnosis (config this)) <= 0.3 ->
  ~ (symptoms = [] /\ enhancedSymptomDetection (JS.toLowerCase inputText) plant = []) ->
  Plant.causes plant <> [] ->
  (0 <= Config.maxDiagnoses (Config.diagnosis (config this)))%Z ->
  Diagnosis.cause <$> scoreCauses this plant symptoms
                        (enhancedSymptomDetection (JS.toLowerCase inputText) plant)
                        inputText (JS.toLowerCase inputText)
  = Plant.causes plant /\
  Z.of_nat (length (generateDiagnoses this plant symptoms inputText))
  = Z.min (Z.of_nat (length (Plant.causes plant)))
          (Config.maxDiagnoses (Config.diagnosis (config this))) /\
  Forall (fun d => Diagnosis.cause d ∈ Plant.causes plant)
         (generateDiagnoses this plant symptoms inputText).
Proof.
  intros Hid Hthreshold Hsome Hcauses Hmax.
  pose proof (scoreCauses_generic
                this plant symptoms
                (enhancedSymptomDetection (JS.toLowerCase inputText) plant)
                inputText (JS.toLowerCase inputText) Hid Hthreshold) as Hall.
  split; [exact Hall|].
  rewrite (generateDiagnoses_scored this plant symptoms inputText Hsome).
  set (scored := scoreCauses this plant symptoms _ inputText _) in *.
  assert (match scored with
          | [] => match detectGenericCause (JS.toLowerCase inputText) plant with
                  | Some genericCause =>
                      [genericDiagnosis plant (JS.toLowerCase inputText) genericCause]
                  | None => []
                  end
          | _ => scored
          end = scored) as ->.
  { destruct scored; [simpl in Hall; congruence | reflexivity]. }
  assert (length scored = length (Plant.causes plant)) as Hlength.
  { rewrite <- Hall. symmetry. apply length_fmap. }
  split.
  - unfold JS.slice0.
    destruct (Z.ltb_spec (Config.maxDiagnoses (Config.diagnosis (config this))) 0); [lia|].
    rewrite length_take, sort_length, Hlength. lia.
  - apply Forall_forall. intros x Hx. apply slice0_elem_of, sort_elem_of in Hx.
    rewrite <- Hall. apply list_elem_of_fmap. exists x. split; [reflexivity | exact Hx].
Qed.

Lemma generateDiagnoses_generic_witness :
  Plant.id Sample.generic = "generic" /\
  Config.minConfidenceThreshold (Config.diagnosis (config Sample.engine)) <= 0.3 /\
  ~ (Sample.yellowSymptoms = [] /\
     enhancedSymptomDetection (JS.toLowerCase "yellow") Sample.generic = []) /\
  Plant.causes Sample.generic <> [] /\
  (0 <= Config.maxDiagnoses (Config.diagnosis (config Sample.engine)))%Z /\
  Diagnosis.cause <$> scoreCauses Sample.engine Sample.generic Sample.yellowSymptoms
                        (enhancedSymptomDetection (JS.toLowerCase "yellow") Sample.generic)
                        "yellow" (JS.toLowerCase "yellow")
  = Plant.causes Sample.generic /\
  Z.of_nat (length (generateDiagnoses Sample.engine Sample.generic Sample.yellowSymptoms
                                      "yellow"))
  = Z.min (Z.of_nat (length (Plant.causes Sample.generic)))
          (Config.maxDiagnoses (Config.diagnosis (config Sample.engine))) /\
  Forall (fun d => Diagnosis.cause d ∈ Plant.causes Sample.generic)
         (generateDiagnoses Sample.engine Sample.generic Sample.yellowSymptoms "yellow").
Proof.
  assert (~ (Sample.yellowSymptoms = [] /\
             enhancedSymptomDetection (JS.toLowerCase "yellow") Sample.generic = []))
    as Hsome by (intros [H _]; vm_compute in H; discriminate).
  assert (Plant.causes Sample.generic <> []) as Hcauses by discriminate.
  assert (Config.minConfidenceThreshold (Config.diagnosis (config Sample.engine)) <= 0.3)
    as Hthreshold by (simpl; lra).
  assert (0 <= Config.maxDiagnoses (Config.diagnosis (config Sample.engine)))%Z
    as Hmax by (simpl; lia).
  split; [reflexivity|]. split; [exact Hthreshold|]. split; [exact Hsome|].
  split; [exact Hcauses|]. split; [exact Hmax|].
  exact (generateDiagnoses_generic Sample.engine Sample.generic Sample.yellowSymptoms
                                   "yellow" eq_refl Hthreshold Hsome Hcauses Hmax).
Defined.

(** *** The last-resort detector *)

Lemma includes_false (s sub : string) :
  JS.includes s sub = false <-> ~ Spec.isSubstring sub s.
Proof. rewrite <- includes_spec. symmetry. apply not_true_iff_false. Qed.

Lemma existsb_false_Forall {A} (f : A -> bool) (l : list A) :
  existsb f l = false <-> Forall (fun x => f x = false) l.
Proof.
  induction l as [|x l IH]; simpl.
  - split; [constructor | reflexivity].
  - rewrite orb_false_iff, Forall_cons, IH. tauto.
Qed.

Lemma existsb_true_Exists {A} (f : A -> bool) (l : list A) :
  existsb f l = true <-> Exists (fun x => f x = true) l.
Proof.
  induction l as [|x l IH]; simpl.
  - rewrite Exists_nil. split; [discriminate | tauto].
  - rewrite orb_true_iff, Exists_cons, IH. tauto.
Qed.

(** X9. [detectGenericCause] tries its four patterns in the fixed order
    underwatering, overwatering, light_issues, pests and answers with the
    first one that has a keyword occurring in the text: no keyword of an
    earlier pattern occurs in the text.  The cause carries the keywords of
    the pattern and a label of the label table, never the default label; the
    plant passed in plays no part.  Without any keyword in the text the
    answer is null. *)
Theorem detectGenericCause_first (inputText : string) (plant : Plant.t) :
  match detectGenericCause inputText plant with
  | Some cause =>
      exists before keywords after,
        patterns = (before ++ (Cause.id cause, keywords) :: after)%list /\
        Cause.keywords cause = Some keywords /\
        Exists (fun keyword => Spec.isSubstring keyword inputText) keywords /\
        Forall (fun earlier =>
                  Forall (fun keyword => ~ Spec.isSubstring keyword inputText) (snd earlier))
               before /\
        Cause.label cause = getCauseLabel (Cause.id cause) /\
        Cause.label cause <> "Plant Health Issue"
  | None =>
      Forall (fun entry =>
                Forall (fun keyword => ~ Spec.isSubstring keyword inputText) (snd entry))
             patterns
  end.
Proof.
  unfold detectGenericCause.
  destruct (find _ patterns) as [[causeId keywords]|] eqn:Hfind.
  - destruct (find_first _ _ _ Hfind) as (before & after & Hsplit & Hhit & Hbefore).
    exists before, keywords, after. simpl in *.
    split; [exact Hsplit|]. split; [reflexivity|].
    rewrite filter_nonempty_existsb in Hhit. split; [|split; [|split]].
    + apply existsb_true_Exists in Hhit. eapply Exists_impl; [exact Hhit|].
      intros keyword Hk. apply includes_spec, Hk.
    + eapply Forall_impl; [exact Hbefore|]. intros earlier Hnone. simpl in Hnone.
      rewrite filter_nonempty_existsb in Hnone. apply existsb_false_Forall in Hnone.
      eapply Forall_impl; [exact Hnone|]. intros keyword Hk. apply includes_false, Hk.
    + reflexivity.
    + assert (In (causeId, keywords) patterns) as Hin.
      { rewrite Hsplit. apply in_or_app. right. left. reflexivity. }
      unfold patterns in Hin. simpl in Hin.
      destruct Hin as [[= <- _]|[[= <- _]|[[= <- _]|[[= <- _]|[]]]]]; discriminate.
  - apply find_none_Forall in Hfind. eapply Forall_impl; [exact Hfind|].
    intros entry Hnone. simpl in Hnone.
    rewrite filter_nonempty_existsb in Hnone. apply existsb_false_Forall in Hnone.
    eapply Forall_impl; [exact Hnone|]. intros keyword Hk. apply includes_false, Hk.
Qed.

(** An input with both a keyword of overwatering and one of underwatering
    is answered with underwatering. *)
Example detectGenericCause_order_sample :
  Cause.id <$> detectGenericCause "yellow and dry" Sample.tulsi = Some "underwatering".
Proof. vm_compute. reflexivity. Qed.

(** *** A record with a blank name *)

Lemma toLowerChar_whiteSpace (c : ascii) :
  JS.isWhiteSpace (JS.toLowerChar c) = JS.isWhiteSpace c.
Proof.
  destruct c as [[] [] [] [] [] [] [] []]; vm_compute; reflexivity.
Qed.

Lemma toLowerCase_allWhiteSpace (s : string) :
  Spec.allWhiteSpace (JS.toLowerCase s) = Spec.allWhiteSpace s.
Proof.
  induction s as [|c s IH]; [reflexivity|].
  simpl. rewrite toLowerChar_whiteSpace, IH. reflexivity.
Qed.

Lemma splitWhiteSpace_blank (s : string) :
  Spec.allWhiteSpace s = true -> Forall (fun w => w = EmptyString) (JS.splitWhiteSpace s).
Proof.
  induction s as [|c s IH]; intros Hs; [repeat constructor|].
  simpl in Hs. apply andb_true_iff in Hs as [Hc Hs].
  rewrite splitWhiteSpace_cons, Hc.
  destruct (JS.startsWithWhiteSpace s); [apply IH, Hs|].
  constructor; [reflexivity | apply IH, Hs].
Qed.

Lemma blank_name_contained (inputText : string) (plant : Plant.t) :
  Spec.allWhiteSpace (Plant.name plant) = true -> Spec.nameContained inputText plant.
Proof.
  intros Hblank. unfold Spec.nameContained.
  rewrite <- toLowerCase_allWhiteSpace in Hblank.
  eapply Forall_impl; [apply splitWhiteSpace_blank, Hblank|].
  intros nameWord ->. simpl.
  pose proof (splitWhiteSpace_nonempty (JS.toLowerCase inputText)) as Hne.
  destruct (JS.splitWhiteSpace (JS.toLowerCase inputText)) as [|w ws]; [congruence|].
  apply Exists_cons_hd. right. apply isSubstring_empty.
Qed.

(** X10. A record whose name is empty or blank captures every input: with
    such a record in the catalog [detectPlant] answers [plant_name_match]
    with score 1.0 whatever the text is, so no input reaches the alias scan,
    the fuzzy search or the generic fallback. *)
Theorem detectPlant_blank_name (this : PlantDiagnosisEngine) (blank : Plant.t)
  (inputText : string) :
  blank ∈ plants this ->
  Spec.allWhiteSpace (Plant.name blank) = true ->
  exists plant,
    plant ∈ plants this /\
    detectPlant this inputText = Detection.mk (Some plant) 1.0 "plant_name_match".
Proof.
  intros Hin Hblank.
  pose proof (blank_name_contained inputText blank Hblank) as Hcontained.
  apply plantNameMatch_spec in Hcontained.
  destruct (find_exists _ _ _ Hin Hcontained) as [plant Hfind].
  exists plant. split.
  - apply list_elem_of_In. eapply find_some, Hfind.
  - unfold detectPlant. rewrite Hfind. reflexivity.
Qed.

Lemma detectPlant_blank_name_witness :
  Fixture.blankPlant ∈ plants Fixture.blankEngine /\
  Spec.allWhiteSpace (Plant.name Fixture.blankPlant) = true /\
  exists plant,
    plant ∈ plants Fixture.blankEngine /\
    detectPlant Fixture.blankEngine "my tulsi has curl"
    = Detection.mk (Some plant) 1.0 "plant_name_match".
Proof.
  assert (Fixture.blankPlant ∈ plants Fixture.blankEngine) as Hin.
  { apply list_elem_of_In. simpl. left. reflexivity. }
  split; [exact Hin|]. split; [reflexivity|].
  exact (detectPlant_blank_name Fixture.blankEngine Fixture.blankPlant "my tulsi has curl"
                                Hin eq_refl).
Defined.

(** *** Adding a plant *)

Lemma find_app_last {A} (f : A -> bool) (l : list A) (x : A) :
  find f (l ++ [x])
  = match find f l with
    | Some y => Some y
    | None => if f x then Some x else None
    end.
Proof.
  induction l as [|y l IH]; simpl; [reflexivity|].
  destruct (f y); [reflexivity | exact IH].
Qed.

Section AddPlantFacts.

Variable newFuse : list Plant.t -> Q -> string -> list FuseResult.t.

(** X11. [addPlant] puts the record at the end of the catalog and leaves
    the configuration alone.  A generic record that is in the catalog stays
    the one the engine finds, also when the added record has the id
    [generic] itself; an engine that did not throw for want of a generic
    record does not start to. *)
Theorem addPlant_generic (this : PlantDiagnosisEngine) (plantData : Plant.t) :
  plants (addPlant newFuse this plantData) = (plants this ++ [plantData])%list /\
  config (addPlant newFuse this plantData) = config this /\
  (forall genericPlant,
     findGeneric this = Some genericPlant ->
     findGeneric (addPlant newFuse this plantData) = Some genericPlant) /\
  (findGeneric this = None ->
   findGeneric (addPlant newFuse this plantData)
   = if String.eqb (Plant.id plantData) "generic" then Some plantData else None) /\
  (Spec.catalogReady this = true ->
   Spec.catalogReady (addPlant newFuse this plantData) = true).
Proof.
  assert (forall genericPlant,
            findGeneric this = Some genericPlant ->
            findGeneric (addPlant newFuse this plantData) = Some genericPlant) as Hkept.
  { intros genericPlant Hg. unfold findGeneric in *. simpl.
    rewrite find_app_last, Hg. reflexivity. }
  split; [reflexivity|]. split; [reflexivity|]. split; [exact Hkept|]. split.
  - intros Hnone. unfold findGeneric in *. simpl. rewrite find_app_last, Hnone. reflexivity.
  - unfold Spec.catalogReady. destruct (findGeneric this) as [genericPlant|] eqn:Hg;
      [|discriminate].
    rewrite (Hkept genericPlant eq_refl). tauto.
Qed.

(** X12. After [addPlant] an input that was matched by a plant name is
    matched by the same plant as before, and an input that was matched by an
    alias keeps its answer unless the name of the added plant is contained
    in it.  The added plant is found by its name exactly for the inputs that
    contain its name and the name of no earlier plant. *)
Theorem addPlant_detection (this : PlantDiagnosisEngine) (plantData : Plant.t)
  (inputText : string) :
  (Detection.method (detectPlant this inputText) = "plant_name_match" ->
   detectPlant (addPlant newFuse this plantData) inputText = detectPlant this inputText) /\
  (Detection.method (detectPlant this inputText) = "alias_match" ->
   ~ Spec.nameContained inputText plantData ->
   detectPlant (addPlant newFuse this plantData) inputText = detectPlant this inputText) /\
  (Forall (fun plant => ~ Spec.nameContained inputText plant) (plants this) ->
   Spec.nameContained inputText plantData ->
   detectPlant (addPlant newFuse this plantData) inputText
   = Detection.mk (Some plantData) 1.0 "plant_name_match").
Proof.
  unfold detectPlant, addPlant. cbn [plants fuse config].
  rewrite !find_app_last.
  destruct (find (plantNameMatch _) (plants this)) as [named|] eqn:Hname.
  { split; [reflexivity|]. split; [intros H; simpl in H; discriminate H|].
    intros Hnone. apply no_name_match in Hnone. congruence. }
  split; [|split].
  - intros Hmethod. exfalso. clear Hname.
    destruct (find _ (plants this)) as [aliased|]; [(simpl in Hmethod; discriminate Hmethod)|].
    destruct (fuse this inputText) as [|best rest]; [(simpl in Hmethod; discriminate Hmethod)|].
    destruct (JS.lt _ _); (simpl in Hmethod; discriminate Hmethod).
  - intros Hmethod Hnot.
    destruct (plantNameMatch _ plantData) eqn:Hnew.
    { apply plantNameMatch_spec in Hnew. contradiction. }
    clear Hname.
    destruct (find _ (plants this)) as [aliased|]; [reflexivity|]. exfalso.
    destruct (fuse this inputText) as [|best rest]; [(simpl in Hmethod; discriminate Hmethod)|].
    destruct (JS.lt _ _); (simpl in Hmethod; discriminate Hmethod).
  - intros _ Hnew. apply plantNameMatch_spec in Hnew. rewrite Hnew. reflexivity.
Qed.

End AddPlantFacts.

Lemma addPlant_generic_witness :
  findGeneric (addPlant Fixture.emptyIndex Sample.engine Fixture.secondGeneric) = Some Sample.generic /\
  findGeneric (addPlant Fixture.emptyIndex Sample.bareEngine Fixture.secondGeneric)
  = Some Fixture.secondGeneric /\
  Spec.catalogReady (addPlant Fixture.emptyIndex Sample.engine Fixture.secondGeneric) = true.
Proof.
  pose proof (addPlant_generic Fixture.emptyIndex Sample.engine Fixture.secondGeneric)
    as (_ & _ & Hkept & _ & Hready).
  pose proof (addPlant_generic Fixture.emptyIndex Sample.bareEngine Fixture.secondGeneric)
    as (_ & _ & _ & Hnew & _).
  split; [apply Hkept; reflexivity|]. split; [apply Hnew; reflexivity|].
  apply Hready. reflexivity.
Defined.

Lemma addPlant_detection_witness :
  detectPlant (addPlant Fixture.emptyIndex Sample.engine Fixture.basilPlant)
              "My snake plant has yellow mushy leaves"
  = detectPlant Sample.engine "My snake plant has yellow mushy leaves" /\
  detectPlant (addPlant Fixture.emptyIndex Sample.engine Fixture.secondGeneric)
              "the basilisk is called holy basil"
  = detectPlant Sample.engine "the basilisk is called holy basil" /\
  detectPlant (addPlant Fixture.emptyIndex Sample.engine Fixture.basilPlant)
              "the basilisk is called holy basil"
  = Detection.mk (Some Fixture.basilPlant) 1.0 "plant_name_match".
Proof.
  split; [|split].
  - apply (proj1 (addPlant_detection Fixture.emptyIndex Sample.engine Fixture.basilPlant
                                     "My snake plant has yellow mushy leaves")).
    vm_compute. reflexivity.
  - apply (proj1 (proj2 (addPlant_detection Fixture.emptyIndex Sample.engine
                           Fixture.secondGeneric "the basilisk is called holy basil"))).
    + vm_compute. reflexivity.
    + intros H. apply plantNameMatch_spec in H. vm_compute in H. discriminate H.
  - apply (proj2 (proj2 (addPlant_detection Fixture.emptyIndex Sample.engine
                           Fixture.basilPlant "the basilisk is called holy basil"))).
    + apply no_name_match. vm_compute. reflexivity.
    + apply plantNameMatch_spec. vm_compute. reflexivity.
Defined.

(** *** The keyword score *)

Lemma Exists_equiv {A} (P R : A -> Prop) (l : list A) :
  (forall x, P x <-> R x) -> Exists P l <-> Exists R l.
Proof.
  intros H. split; intros HE; (eapply Exists_impl; [exact HE|]); intros x; apply H.
Qed.

Lemma unique_elem_of (arr : list string) (x : string) : x ∈ JS.unique arr <-> x ∈ arr.
Proof.
  unfold JS.unique. split.
  - apply sublist_subseteq, keepFirstBy_sublist.
  - intros Hx.
    pose proof (keepFirstBy_complete (fun s : string => s) ∅ arr x Hx ltac:(set_solver)) as H.
    rewrite list_fmap_id in H. exact H.
Qed.

Lemma unique_NoDup (arr : list string) : NoDup (JS.unique arr).
Proof.
  unfold JS.unique.
  pose proof (keepFirstBy_NoDup (fun s : string => s) ∅ arr) as H.
  rewrite list_fmap_id in H. exact H.
Qed.

Lemma allMatchesOf_subset (inputLower : string) (causeKeywords : list string)
  (keyword : string) :
  keyword ∈ allMatchesOf inputLower causeKeywords -> keyword ∈ causeKeywords.
Proof.
  unfold allMatchesOf. rewrite unique_elem_of, elem_of_app, !list_elem_of_In, !filter_In.
  tauto.
Qed.

Lemma allMatchesOf_length (inputLower : string) (causeKeywords : list string) :
  (length (allMatchesOf inputLower causeKeywords) <= length causeKeywords)%nat.
Proof.
  apply submseteq_length, NoDup_submseteq; [apply unique_NoDup|].
  intros keyword. apply allMatchesOf_subset.
Qed.

(** X13. [allMatches] of the cause loop has no keyword twice and holds
    exactly the keywords of the cause that occur in the lower-cased input in
    full or by one of their words of more than 2 characters.  It is never
    longer than the keyword list, so the keyword score
    [|allMatches| / max(|causeKeywords|, 1)] lies between 0 and 1. *)
Theorem allMatchesOf_bounds (inputLower : string) (causeKeywords : list string) :
  NoDup (allMatchesOf inputLower causeKeywords) /\
  (forall keyword,
     keyword ∈ allMatchesOf inputLower causeKeywords
     <-> keyword ∈ causeKeywords /\
         (Spec.isSubstring (JS.toLowerCase keyword) inputLower \/
          Exists (fun word => (2 < String.length word)%nat /\
                              Spec.isSubstring word inputLower)
                 (JS.splitSpace (JS.toLowerCase keyword)))) /\
  (length (allMatchesOf inputLower causeKeywords) <= length causeKeywords)%nat /\
  0 <= JS.num (length (allMatchesOf inputLower causeKeywords))
       / JS.num (Nat.max (length causeKeywords) 1) <= 1.
Proof.
  assert (forall keyword,
            keyword ∈ allMatchesOf inputLower causeKeywords
            <-> keyword ∈ causeKeywords /\
                (Spec.isSubstring (JS.toLowerCase keyword) inputLower \/
                 Exists (fun word => (2 < String.length word)%nat /\
                                     Spec.isSubstring word inputLower)
                        (JS.splitSpace (JS.toLowerCase keyword)))) as Hmember.
  { intros keyword. unfold allMatchesOf.
    rewrite unique_elem_of, elem_of_app, !list_elem_of_In, !filter_In.
    rewrite includes_spec, existsb_true_Exists.
    assert (Exists (fun word => (2 <? String.length word)%nat && JS.includes inputLower word
                                = true)
                   (JS.splitSpace (JS.toLowerCase keyword))
            <-> Exists (fun word => (2 < String.length word)%nat /\
                                    Spec.isSubstring word inputLower)
                       (JS.splitSpace (JS.toLowerCase keyword))) as ->.
    { apply Exists_equiv. intros word.
      rewrite andb_true_iff, Nat.ltb_lt, includes_spec. tauto. }
    tauto. }
  assert (length (allMatchesOf inputLower causeKeywords) <= length causeKeywords)%nat
    as Hlength.
  { apply allMatchesOf_length. }
  split; [apply unique_NoDup|]. split; [exact Hmember|]. split; [exact Hlength|].
  assert (0 < JS.num (Nat.max (length causeKeywords) 1)) as Hpos by (apply num_pos; lia).
  split.
  - apply Qle_shift_div_l; [exact Hpos|]. rewrite Qmult_0_l. apply num_nonneg.
  - apply Qle_shift_div_r; [exact Hpos|]. rewrite Qmult_1_l. apply num_le. lia.
Qed.

(** *** The clamp of the combined score *)






(** ** Properties of the logger *)

(** *** The entries kept in memory *)

Lemma logInteraction_memory (this : Logger.t) (r : DiagnosisResult.t) :
  (length (Logger.memoryLogs this) <= Logger.maxMemoryLogs)%nat ->
  Logger.memoryLogs (Logger.logInteraction this r)
  = drop (length (Logger.memoryLogs this ++ [Logger.entryOf r]) - Logger.maxMemoryLogs)
         (Logger.memoryLogs this ++ [Logger.entryOf r]).
Proof.
  intros Hbound. unfold Logger.logInteraction. cbn [Logger.memoryLogs].
  set (logs := (Logger.memoryLogs this ++ [Logger.entryOf r])%list).
  assert (length logs = S (length (Logger.memoryLogs this))) as Hlen.
  { unfold logs. rewrite length_app. simpl. lia. }
  destruct (Nat.ltb_spec Logger.maxMemoryLogs (length logs)) as [Hover|Hfits].
  - replace (length logs - Logger.maxMemoryLogs)%nat with 1%nat by lia.
    destruct logs; reflexivity.
  - replace (length logs - Logger.maxMemoryLogs)%nat with 0%nat by lia. reflexivity.
Qed.

Lemma logAll_memory (this : Logger.t) (results : list DiagnosisResult.t) :
  (length (Logger.memoryLogs this) <= Logger.maxMemoryLogs)%nat ->
  Logger.memoryLogs (Logger.logAll this results)
  = drop (length (Logger.memoryLogs this ++ map Logger.entryOf results)
          - Logger.maxMemoryLogs)
         (Logger.memoryLogs this ++ map Logger.entryOf results).
Proof.
  revert this. induction results as [|r results IH]; intros this Hbound.
  - simpl. rewrite app_nil_r.
    replace (length (Logger.memoryLogs this) - Logger.maxMemoryLogs)%nat with 0%nat by lia.
    reflexivity.
  - change (Logger.logAll this (r :: results))
      with (Logger.logAll (Logger.logInteraction this r) results).
    pose proof (logInteraction_memory this r Hbound) as Hstep.
    set (logs := (Logger.memoryLogs this ++ [Logger.entryOf r])%list) in *.
    assert (length logs = S (length (Logger.memoryLogs this))) as Hlen.
    { unfold logs. rewrite length_app. simpl. lia. }
    rewrite IH.
    + rewrite Hstep.
      change (map Logger.entryOf (r :: results))
        with ([Logger.entryOf r] ++ map Logger.entryOf results)%list.
      rewrite (app_assoc (Logger.memoryLogs this)). fold logs.
      set (entries := map Logger.entryOf results).
      set (k := (length logs - Logger.maxMemoryLogs)%nat).
      assert (k <= length logs)%nat as Hk by (unfold k; lia).
      rewrite !length_app, length_drop.
      replace (length logs + length entries - Logger.maxMemoryLogs)%nat
        with (k + (length logs - k + length entries - Logger.maxMemoryLogs))%nat
        by (unfold k; lia).
      rewrite <- drop_drop. rewrite (drop_app_le logs entries k Hk). reflexivity.
    + rewrite Hstep, length_drop. lia.
Qed.

(** X15. A logger keeps the most recent interactions in memory, at most
    250 of them and in the order of the calls: after any run of calls of
    [logInteraction] on a new logger, [memoryLogs] holds the entries of the
    last 250 results of the run, whether logging to files is enabled or
    not. *)
Theorem logAll_keeps_latest (enabled : bool) (directory : option string)
  (results : list DiagnosisResult.t) :
  let logger := Logger.logAll (Logger.create enabled directory) results in
  Logger.memoryLogs logger
  = drop (length results - Logger.maxMemoryLogs) (map Logger.entryOf results) /\
  length (Logger.memoryLogs logger) = Nat.min (length results) Logger.maxMemoryLogs.
Proof.
  intros logger.
  assert (Logger.memoryLogs logger
          = drop (length results - Logger.maxMemoryLogs) (map Logger.entryOf results))
    as Hmemory.
  { unfold logger. rewrite logAll_memory by (simpl; lia).
    simpl. rewrite length_map. reflexivity. }
  split; [exact Hmemory|].
  rewrite Hmemory, length_drop, length_map. lia.
Qed.

(** *** The counters of the statistics *)

Lemma countUp_other (counts : gmap string Counter.t) (key k : string) :
  key <> k -> Logger.countUp counts key !! k = counts !! k.
Proof.
  intros Hne. unfold Logger.countUp.
  destruct (counts !! key) as [[n|member ones]|].
  - apply lookup_insert_ne, Hne.
  - apply lookup_insert_ne, Hne.
  - destruct (String.eqb key "__proto__"); [reflexivity|].
    destruct (JS.arrayIncludes _ key); apply lookup_insert_ne, Hne.
Qed.

(** One more increment under a key whose member is as [count] increments
    have left it. *)
Lemma countUp_same (counts : gmap string Counter.t) (key : string) (count : nat) :
  counts !! key = Notion.shownAs key count ->
  Logger.countUp counts key !! key = Notion.shownAs key (S count).
Proof.
  intros Hkey. unfold Logger.countUp.
  destruct (String.eqb key "__proto__") eqn:Hproto.
  - assert (forall n, Notion.shownAs key n = None) as Hnone.
    { intros [|n]; unfold Notion.shownAs; [reflexivity | rewrite Hproto; reflexivity]. }
    rewrite Hkey, Hnone, Hkey, !Hnone. reflexivity.
  - unfold Notion.shownAs in *. rewrite Hproto in *.
    destruct (JS.arrayIncludes Logger.objectPrototypeMembers key);
      destruct count as [|count]; rewrite Hkey, lookup_insert_eq, ?Nat.add_1_r;
      reflexivity.
Qed.

(** Counting the keys of a list one after the other. *)
Lemma countUp_fold {A} (key : A -> string) (l : list A) (counts : gmap string Counter.t)
  (seen : string -> nat) :
  (forall k, counts !! k = Notion.shownAs k (seen k)) ->
  forall k,
    fold_left (fun m x => Logger.countUp m (key x)) l counts !! k
    = Notion.shownAs k (seen k + length (List.filter (fun x => String.eqb (key x) k) l)).
Proof.
  revert counts seen. induction l as [|x l IH]; intros counts seen Hcounts k.
  - simpl. rewrite Nat.add_0_r. apply Hcounts.
  - simpl fold_left.
    rewrite (IH (Logger.countUp counts (key x))
                (fun k' => if String.eqb (key x) k' then S (seen k') else seen k')).
    + simpl List.filter. destruct (String.eqb (key x) k); f_equal; simpl; lia.
    + intros k'. destruct (String.eqb_spec (key x) k') as [<-|Hne].
      * apply countUp_same, Hcounts.
      * rewrite (countUp_other _ _ _ Hne). apply Hcounts.
Qed.

Lemma statsStep_plants (logs : list LogEntry.t)
  (state : gmap string Counter.t * Q * gmap string Counter.t) :
  fst (fst (fold_left Logger.statsStep logs state))
  = fold_left (fun m log => Logger.countUp m (LogEntry.plantName log)) logs (fst (fst state)).
Proof.
  revert state. induction logs as [|log logs IH]; intros [[pd tc] issues]; [reflexivity|].
  simpl fold_left. rewrite IH. reflexivity.
Qed.

Lemma statsStep_issues (logs : list LogEntry.t)
  (state : gmap string Counter.t * Q * gmap string Counter.t) :
  snd (fold_left Logger.statsStep logs state)
  = fold_left (fun m d => Logger.countUp m (Cause.id (Diagnosis.cause d)))
              (flat_map LogEntry.diagnoses logs) (snd state).
Proof.
  revert state. induction logs as [|log logs IH]; intros [[pd tc] issues]; [reflexivity|].
  simpl fold_left. rewrite IH. simpl flat_map. rewrite fold_left_app. reflexivity.
Qed.

Lemma statsStep_total (logs : list LogEntry.t)
  (state : gmap string Counter.t * Q * gmap string Counter.t) :
  snd (fst (fold_left Logger.statsStep logs state))
  = fold_left Binary64.add
      (map Notion.topConfidence
           (List.filter (fun log => negb (length (LogEntry.diagnoses log) =? 0)%nat) logs))
      (snd (fst state)).
Proof.
  revert state. induction logs as [|log logs IH]; intros [[pd tc] issues]; [reflexivity|].
  simpl fold_left at 1. rewrite IH. cbn [List.filter fst snd].
  destruct (LogEntry.diagnoses log) as [|first others] eqn:Hlog;
    cbn [length Nat.eqb negb map fold_left]; [reflexivity|].
  assert (Notion.topConfidence log = Logger.maxConfidence first others) as ->
    by (unfold Notion.topConfidence; rewrite Hlog; reflexivity).
  reflexivity.
Qed.

Lemma statsOf_fields (logs : list LogEntry.t) :
  LogStats.totalInteractions (Logger.statsOf logs) = length logs /\
  LogStats.plantsDetected (Logger.statsOf logs)
  = fst (fst (fold_left Logger.statsStep logs (∅, 0, ∅))) /\
  LogStats.mostCommonIssues (Logger.statsOf logs)
  = snd (fold_left Logger.statsStep logs (∅, 0, ∅)) /\
  LogStats.averageConfidence (Logger.statsOf logs)
  = if (length logs =? 0)%nat then 0
    else Binary64.div (snd (fst (fold_left Logger.statsStep logs (∅, 0, ∅))))
                      (JS.num (length logs)).
Proof.
  unfold Logger.statsOf. destruct logs as [|log logs]; [repeat split|].
  change (length (log :: logs) =? 0)%nat with false. cbv iota.
  destruct (fold_left Logger.statsStep (log :: logs) (∅, 0, ∅)) as [[pd tc] issues].
  repeat split.
Qed.

(** X16. The statistics count every loaded entry once under its plant name
    and every logged diagnosis once under its cause id: [totalInteractions]
    is the number of entries, and a name or id that was never logged has no
    key.  The counters being plain objects, a name or id that is not the
    name of a member of [Object.prototype] holds its number of occurrences;
    under the name of an inherited function, such as [constructor], the
    counter holds a text, the text of the function followed by one
    character 1 per occurrence; and [__proto__] never gets a key. *)
Theorem statsOf_counts (logs : list LogEntry.t) :
  LogStats.totalInteractions (Logger.statsOf logs) = length logs /\
  (forall plantName,
     LogStats.plantsDetected (Logger.statsOf logs) !! plantName
     = Notion.shownAs plantName (Notion.entriesOf plantName logs)) /\
  (forall causeId,
     LogStats.mostCommonIssues (Logger.statsOf logs) !! causeId
     = Notion.shownAs causeId (Notion.diagnosesOf causeId logs)).
Proof.
  destruct (statsOf_fields logs) as (Htotal & Hplants & Hissues & _).
  split; [exact Htotal|]. split.
  - intros plantName. rewrite Hplants, statsStep_plants.
    apply (countUp_fold LogEntry.plantName logs ∅ (fun _ => 0%nat)).
    intros k. apply lookup_empty.
  - intros causeId. rewrite Hissues, statsStep_issues.
    apply (countUp_fold (fun d => Cause.id (Diagnosis.cause d))
                        (flat_map LogEntry.diagnoses logs) ∅ (fun _ => 0%nat)).
    intros k. apply lookup_empty.
Qed.

(** Two entries under the plant name [constructor] and one under [Tulsi]. *)
Example statsOf_counts_sample :
  let logs := [ Fixture.namedEntry "constructor"; Fixture.namedEntry "Tulsi";
                Fixture.namedEntry "constructor"; Fixture.namedEntry "__proto__" ] in
  LogStats.plantsDetected (Logger.statsOf logs) !! "constructor"
  = Some (Counter.Text "constructor" 2) /\
  LogStats.plantsDetected (Logger.statsOf logs) !! "Tulsi" = Some (Counter.Count 1) /\
  LogStats.plantsDetected (Logger.statsOf logs) !! "__proto__" = None /\
  LogStats.totalInteractions (Logger.statsOf logs) = 4%nat.
Proof. vm_compute. repeat split; reflexivity. Qed.

(** *** The average confidence *)

Lemma fold_max_range (l : list Q) (a lo hi : Q) :
  lo <= a <= hi -> Forall (fun x => lo <= x <= hi) l ->
  lo <= fold_left JS.Math_max l a <= hi.
Proof.
  revert a. induction l as [|x l IH]; intros a Ha Hl; [exact Ha|].
  apply Forall_cons in Hl as [Hx Hl]. simpl. apply IH; [|exact Hl].
  unfold JS.Math_max. destruct (Q.max_spec a x) as [[_ ->]|[_ ->]]; assumption.
Qed.

Lemma fold_max_dominated (l : list Q) (a v : Q) :
  a == v -> Forall (fun x => x <= v) l -> fold_left JS.Math_max l a == v.
Proof.
  revert a. induction l as [|x l IH]; intros a Ha Hl; [exact Ha|].
  apply Forall_cons in Hl as [Hx Hl]. simpl. apply IH; [|exact Hl].
  unfold JS.Math_max. rewrite Q.max_l; [exact Ha|]. rewrite Ha. exact Hx.
Qed.

Lemma topConfidence_range (log : LogEntry.t) :
  Forall (fun d => 0 <= Diagnosis.confidence d <= 1) (LogEntry.diagnoses log) ->
  0 <= Notion.topConfidence log <= 1.
Proof.
  unfold Notion.topConfidence, Logger.maxConfidence.
  destruct (LogEntry.diagnoses log) as [|first others]; intros Hall; [lra|].
  apply Forall_cons in Hall as [Hfirst Hothers].
  apply fold_max_range; [exact Hfirst|].
  apply Forall_forall. intros x Hx. apply list_elem_of_fmap in Hx as (d & -> & Hd).
  rewrite Forall_forall in Hothers. apply Hothers, Hd.
Qed.

(** The binary64 sum of [n] numbers between 0 and 1 lies between 0 and
    [n]. *)
Lemma sum64_range (l : list Q) (a : Q) (n : nat) :
  Forall (fun x => 0 <= x <= 1) l ->
  0 <= a <= JS.num n -> a <= inject_Z (2 ^ 53) ->
  0 <= fold_left Binary64.add l a <= JS.num (n + length l).
Proof.
  intros Hl. revert a n. induction Hl as [|x l Hx _ IH]; intros a n Ha Hcap.
  - simpl. rewrite Nat.add_0_r. exact Ha.
  - cbn [fold_left length].
    destruct (add_le_succ a x n (proj2 Ha) Hcap (proj2 Hx)) as [Hstep Hkeep].
    replace (n + S (length l))%nat with (S n + length l)%nat by lia.
    apply IH; [|exact Hkeep]. split; [|exact Hstep].
    unfold Binary64.add. apply round64_nonneg. lra.
Qed.

Lemma totalTopConfidence_range (logs : list LogEntry.t) :
  Forall (fun log =>
            Forall (fun d => 0 <= Diagnosis.confidence d <= 1) (LogEntry.diagnoses log))
         logs ->
  0 <= Notion.totalTopConfidence logs <= JS.num (length logs).
Proof.
  intros Hall. unfold Notion.totalTopConfidence.
  set (counted := List.filter _ logs).
  assert (Forall (fun x => 0 <= x <= 1) (map Notion.topConfidence counted)) as Htops.
  { apply Forall_forall. intros x Hx. apply list_elem_of_fmap in Hx as (log & -> & Hlog).
    apply topConfidence_range. rewrite Forall_forall in Hall. apply Hall.
    apply list_elem_of_In. apply list_elem_of_In, filter_In in Hlog. apply Hlog. }
  pose proof (sum64_range _ 0 0 Htops) as Hsum. cbn [Nat.add] in Hsum.
  rewrite length_map in Hsum.
  assert (length counted <= length logs)%nat as Hlen by apply List.filter_length_le.
  pose proof (num_le _ _ Hlen).
  assert (0 <= fold_left Binary64.add (map Notion.topConfidence counted) 0
          <= JS.num (length counted)) as [Hlow Hhigh].
  { apply Hsum; [split; [apply Qle_refl | apply Qle_refl] | discriminate]. }
  split; [exact Hlow | lra].
Qed.

(** X17. [averageConfidence] is the binary64 quotient of a total and the
    number of all entries, the total being the binary64 sum, from the first
    entry to the last, of the largest confidence of each entry that has a
    diagnosis: an entry without diagnoses adds nothing to the total and
    still counts in the divisor.  Without entries it is 0 and nothing is
    divided.  When every logged confidence lies between 0 and 1, so does
    the average; and for an entry whose diagnoses are in the order
    [diagnose] returns them, the largest confidence is that of the first
    diagnosis. *)
Theorem statsOf_average (logs : list LogEntry.t) :
  (logs = [] -> LogStats.averageConfidence (Logger.statsOf logs) = 0) /\
  (logs <> [] ->
   LogStats.averageConfidence (Logger.statsOf logs)
   = Binary64.div (Notion.totalTopConfidence logs) (JS.num (length logs))) /\
  (Forall (fun log =>
             Forall (fun d => 0 <= Diagnosis.confidence d <= 1) (LogEntry.diagnoses log))
          logs ->
   0 <= LogStats.averageConfidence (Logger.statsOf logs) <= 1) /\
  (forall log first others,
     LogEntry.diagnoses log = first :: others ->
     Notion.byConfidence (first :: others) ->
     Notion.topConfidence log == Diagnosis.confidence first).
Proof.
  destruct (statsOf_fields logs) as (_ & _ & _ & Haverage).
  pose proof (statsStep_total logs (∅, 0, ∅)) as Htotal.
  cbn [fst snd] in Htotal. fold (Notion.totalTopConfidence logs) in Htotal.
  rewrite Htotal in Haverage.
  split; [|split; [|split]].
  - intros ->. reflexivity.
  - intros Hlogs. rewrite Haverage. destruct logs as [|log logs]; [contradiction|].
    reflexivity.
  - intros Hall. rewrite Haverage. destruct logs as [|log logs]; [simpl; lra|].
    change (length (log :: logs) =? 0)%nat with false. cbv iota.
    assert (0 < JS.num (length (log :: logs))) as Hpos by (apply num_pos; simpl; lia).
    pose proof (totalTopConfidence_range (log :: logs) Hall) as Hsum.
    unfold Binary64.div. split.
    + apply round64_nonneg. apply Qle_shift_div_l; [exact Hpos | lra].
    + apply round64_upper; [exact representable_one|].
      apply Qle_shift_div_r; [exact Hpos | lra].
  - intros log first others Hlog Hsorted.
    unfold Notion.topConfidence, Logger.maxConfidence. rewrite Hlog.
    apply fold_max_dominated; [reflexivity|].
    apply StronglySorted_inv in Hsorted as [_ Hfirst].
    apply Forall_forall. intros x Hx. apply list_elem_of_fmap in Hx as (d & -> & Hd).
    rewrite Forall_forall in Hfirst. apply Hfirst, Hd.
Qed.

Lemma unitConfidences_spec (logs : list LogEntry.t) :
  Notion.unitConfidences logs = true ->
  Forall (fun log =>
            Forall (fun d => 0 <= Diagnosis.confidence d <= 1) (LogEntry.diagnoses log))
         logs.
Proof.
  unfold Notion.unitConfidences. rewrite forallb_forall, List.Forall_forall.
  intros Hall log Hlog. specialize (Hall log Hlog).
  rewrite forallb_forall in Hall. apply List.Forall_forall. intros d Hd.
  specialize (Hall d Hd). apply andb_true_iff in Hall as [Hlow Hhigh].
  split; apply Qle_bool_iff; assumption.
Qed.

Lemma descending_spec (ds : list Diagnosis.t) :
  Notion.descending ds = true -> Notion.byConfidence ds.
Proof.
  unfold Notion.byConfidence. induction ds as [|d ds IH]; intros Hds; [constructor|].
  simpl in Hds. apply andb_true_iff in Hds as [Hd Hds].
  constructor; [apply IH, Hds|].
  rewrite forallb_forall in Hd. apply List.Forall_forall. intros later Hlater.
  apply Qle_bool_iff, Hd, Hlater.
Qed.

Lemma statsOf_average_witness :
  LogStats.averageConfidence (Logger.statsOf []) = 0 /\
  LogStats.averageConfidence (Logger.statsOf Fixture.sampleLogs)
  = Binary64.div (Notion.totalTopConfidence Fixture.sampleLogs)
                 (JS.num (length Fixture.sampleLogs)) /\
  0 <= LogStats.averageConfidence (Logger.statsOf Fixture.sampleLogs) <= 1 /\
  Notion.topConfidence (Logger.entryOf Fixture.yellowDryResult)
  == Diagnosis.confidence Fixture.yellowDryFirst.
Proof.
  pose proof (statsOf_average Fixture.sampleLogs) as (_ & Hquotient & Hrange & Htop).
  split; [apply (proj1 (statsOf_average [])); reflexivity|]. split; [|split].
  - apply Hquotient. discriminate.
  - apply Hrange, unitConfidences_spec. vm_compute. reflexivity.
  - apply (Htop (Logger.entryOf Fixture.yellowDryResult) Fixture.yellowDryFirst
                (tl (LogEntry.diagnoses (Logger.entryOf Fixture.yellowDryResult)))).
    + vm_compute. reflexivity.
    + apply descending_spec. vm_compute. reflexivity.
Defined.

(** One confidence of 1.0 among 49 entries: the quotient of 1 and 49 is a
    binary64 value whose product with 49 is not 1. *)
Example statsOf_average_rounding_sample :
  let logs := Fixture.certainEntry :: repeat (Fixture.namedEntry "Tulsi") 48 in
  LogStats.averageConfidence (Logger.statsOf logs) = Binary64.div 1 49 /\
  Binary64.mul (Binary64.div 1 49) 49 < 1.
Proof. vm_compute. split; reflexivity. Qed.

(** *** The statistics of a run *)

Lemma logAll_settings (this : Logger.t) (results : list DiagnosisResult.t) :
  Logger.loggingEnabled (Logger.logAll this results) = Logger.loggingEnabled this /\
  Logger.logsDir (Logger.logAll this results) = Logger.logsDir this.
Proof.
  revert this. induction results as [|r results IH]; intros this; [split; reflexivity|].
  change (Logger.logAll this (r :: results))
    with (Logger.logAll (Logger.logInteraction this r) results).
  destruct (IH (Logger.logInteraction this r)) as [-> ->]. split; reflexivity.
Qed.

(** X18. A logger that does not write to files (logging disabled, as the
    constructor forces it in a read-only environment, or no directory)
    reports the statistics of the entries it holds in memory: after a run of
    interactions on a new logger these are the last 250 of the run, so
    [totalInteractions] stops at 250, and the content of any log file plays
    no part.  A logger that writes to files reports the statistics of the
    file of the day alone. *)
Theorem getLogStats_sources (enabled : bool) (directory : option string)
  (results : list DiagnosisResult.t) (fileLogs : option (list LogEntry.t)) :
  let logger := Logger.logAll (Logger.create enabled directory) results in
  (Logger.memoryOnly (Logger.create enabled directory) = true ->
   Logger.getLogStats logger fileLogs
   = Logger.statsOf (drop (length results - Logger.maxMemoryLogs)
                          (map Logger.entryOf results)) /\
   LogStats.totalInteractions (Logger.getLogStats logger fileLogs)
   = Nat.min (length results) Logger.maxMemoryLogs) /\
  (Logger.memoryOnly (Logger.create enabled directory) = false ->
   Logger.getLogStats logger fileLogs = Logger.statsOf (default [] fileLogs)).
Proof.
  intros logger.
  assert (Logger.memoryOnly logger = Logger.memoryOnly (Logger.create enabled directory))
    as Hsame.
  { unfold Logger.memoryOnly, logger.
    destruct (logAll_settings (Logger.create enabled directory) results) as [-> ->].
    reflexivity. }
  assert (Logger.memoryLogs logger
          = drop (length results - Logger.maxMemoryLogs) (map Logger.entryOf results))
    as Hmemory.
  { unfold logger. rewrite logAll_memory by (simpl; lia).
    simpl. rewrite length_map. reflexivity. }
  unfold Logger.getLogStats, Logger.loadTodayLogs. rewrite Hsame. split.
  - intros ->. rewrite Hmemory. split; [reflexivity|].
    rewrite (proj1 (statsOf_fields _)), length_drop, length_map. lia.
  - intros ->. reflexivity.
Qed.

(** ** Properties of the diagnosis endpoint *)

Section HandlerFacts.

Variable JSON_parse : string -> option Api.value.
Variable getEngine : option PlantDiagnosisEngine.
Variable getLogger : option Logger.t.
Variable dayFile : Api.DayFile.
Variable now : string.

Let handler := Api.handler JSON_parse getEngine getLogger dayFile now.

Lemma acceptedText_spec (text : Api.value) (s : string) :
  Api.acceptedText text = Some s <-> text = Api.VString s /\ s <> "".
Proof.
  unfold Api.acceptedText. split.
  - destruct text; try discriminate.
    destruct (String.eqb_spec s0 "") as [Hempty|Hfull]; [discriminate|].
    intros [= <-]. split; [reflexivity | exact Hfull].
  - intros [-> Hfull]. destruct (String.eqb_spec s "") as [Hempty|_]; [contradiction|].
    reflexivity.
Qed.

(** The handler on a request that reaches the engine. *)
Lemma handler_accepted (req : Api.Request) (payload : Api.value) (text : string) :
  Api.method req = "POST" ->
  Api.payloadOf JSON_parse (Api.body req) = Some payload ->
  Api.textOf payload = Api.VString text ->
  text <> "" ->
  handler req
  = match getEngine, getLogger with
    | Some engine, Some logger =>
        match diagnose engine now text with
        | Some result =>
            if Api.logThrows dayFile logger
            then (Api.internalError, Some (Logger.logInteraction logger result))
            else (Api.ResultReply result, Some (Logger.logInteraction logger result))
        | None => (Api.internalError, Some logger)
        end
    | _, _ => (Api.internalError, getLogger)
    end.
Proof.
  intros Hmethod Hpayload Htext Hfull. unfold handler, Api.handler.
  rewrite Hmethod, Hpayload, Htext.
  rewrite (proj2 (acceptedText_spec (Api.VString text) text) (conj eq_refl Hfull)).
  reflexivity.
Qed.

(** X19. A POST request whose body carries a non-empty string [text] is
    answered with 200 or with 500, and with 200 exactly when the engine and
    the logger can be had, the text is blank or the catalog has its generic
    record, and the write of the log entry does not throw.  A blank text is
    then answered with the fixed empty-input result, which is logged like
    any other. *)
Theorem handler_accepted_status (req : Api.Request) (payload : Api.value) (text : string) :
  Api.method req = "POST" ->
  Api.payloadOf JSON_parse (Api.body req) = Some payload ->
  Api.textOf payload = Api.VString text ->
  text <> "" ->
  (Api.statusOf (fst (handler req)) = 200%Z \/ Api.statusOf (fst (handler req)) = 500%Z) /\
  (Api.statusOf (fst (handler req)) = 200%Z
   <-> exists engine logger,
         getEngine = Some engine /\ getLogger = Some logger /\
         (Spec.allWhiteSpace text = true \/ Spec.catalogReady engine = true) /\
         Api.logThrows dayFile logger = false) /\
  (forall engine logger,
      getEngine = Some engine -> getLogger = Some logger ->
      Api.logThrows dayFile logger = false ->
      Spec.allWhiteSpace text = true ->
      handler req
      = (Api.ResultReply (emptyInputResult now),
         Some (Logger.logInteraction logger (emptyInputResult now)))).
Proof.
  intros Hmethod Hpayload Htext Hfull.
  rewrite (handler_accepted req payload text Hmethod Hpayload Htext Hfull).
  split; [|split].
  - destruct getEngine as [engine|]; [|right; reflexivity].
    destruct getLogger as [logger|]; [|right; reflexivity].
    destruct (diagnose engine now text); [|right; reflexivity].
    destruct (Api.logThrows dayFile logger); [right | left]; reflexivity.
  - split.
    + destruct getEngine as [engine|]; [|discriminate].
      destruct getLogger as [logger|]; [|discriminate].
      intros Hstatus. exists engine, logger. split; [reflexivity|]. split; [reflexivity|].
      destruct (Spec.allWhiteSpace text) eqn:Hblank.
      * split; [left; reflexivity|].
        rewrite (diagnose_blank engine now text Hblank) in Hstatus.
        destruct (Api.logThrows dayFile logger); [discriminate | reflexivity].
      * destruct (Spec.catalogReady engine) eqn:Hready.
        -- split; [right; reflexivity|].
           destruct (diagnose engine now text); [|discriminate].
           destruct (Api.logThrows dayFile logger); [discriminate | reflexivity].
        -- exfalso. revert Hstatus. unfold diagnose. rewrite blank_guard, Hblank.
           destruct (Detection.plant _) as [plant|]; [|discriminate].
           rewrite (extractSymptoms_not_ready engine _ plant Hready). discriminate.
    + intros (engine & logger & -> & -> & Hanswer & ->).
      destruct Hanswer as [Hblank|Hready].
      * rewrite (diagnose_blank engine now text Hblank). reflexivity.
      * destruct (Spec.allWhiteSpace text) eqn:Hblank.
        -- rewrite (diagnose_blank engine now text Hblank). reflexivity.
        -- destruct (diagnose_nonblank engine now text Hblank Hready)
             as (plant & symptoms & _ & _ & ->). reflexivity.
  - intros engine logger -> -> -> Hblank.
    rewrite (diagnose_blank engine now text Hblank). reflexivity.
Qed.

(** X20. With a logger that holds at most 250 entries, every request leaves
    a logger that holds at most 250 entries; a result sent with 200 is the
    newest entry of the memory log, and a request answered with 400 or 405
    leaves the logger as it was.  (A request answered with 500 may have
    left its entry: the entry is pushed before the write that throws.) *)
Theorem handler_logger (req : Api.Request) (logger : Logger.t) :
  getLogger = Some logger ->
  (length (Logger.memoryLogs logger) <= Logger.maxMemoryLogs)%nat ->
  exists after,
    snd (handler req) = Some after /\
    (length (Logger.memoryLogs after) <= Logger.maxMemoryLogs)%nat /\
    match fst (handler req) with
    | Api.ResultReply result =>
        last (Logger.memoryLogs after) = Some (Logger.entryOf result)
    | Api.ErrorReply status _ _ => status <> 500%Z -> after = logger
    end.
Proof.
  intros Hlogger Hbound.
  assert (forall result,
             (length (Logger.memoryLogs (Logger.logInteraction logger result))
              <= Logger.maxMemoryLogs)%nat /\
             last (Logger.memoryLogs (Logger.logInteraction logger result))
             = Some (Logger.entryOf result)) as Hlogged.
  { intros result. rewrite (logInteraction_memory logger result Hbound).
    rewrite length_app. cbn [length].
    set (k := (length (Logger.memoryLogs logger) + 1 - Logger.maxMemoryLogs)%nat).
    assert (k <= length (Logger.memoryLogs logger))%nat as Hk
      by (unfold k, Logger.maxMemoryLogs in *; lia).
    rewrite (drop_app_le (Logger.memoryLogs logger) [Logger.entryOf result] k Hk).
    split; [|apply last_snoc].
    rewrite length_app, length_drop. cbn [length].
    unfold k, Logger.maxMemoryLogs in *. lia. }
  unfold handler, Api.handler. rewrite Hlogger.
  destruct (negb (Api.method req =? "POST")%string).
  { exists logger. split; [reflexivity|]. split; [exact Hbound|]. intros _. reflexivity. }
  destruct (Api.payloadOf JSON_parse (Api.body req)) as [payload|].
  2: { exists logger. split; [reflexivity|]. split; [exact Hbound|]. intros _. reflexivity. }
  destruct (Api.acceptedText (Api.textOf payload)) as [text|].
  2: { exists logger. split; [reflexivity|]. split; [exact Hbound|]. intros _. reflexivity. }
  destruct getEngine as [engine|].
  2: { exists logger. split; [reflexivity|]. split; [exact Hbound|].
       simpl. intros Hstatus. contradiction Hstatus. reflexivity. }
  destruct (diagnose engine now text) as [result|].
  2: { exists logger. split; [reflexivity|]. split; [exact Hbound|].
       simpl. intros Hstatus. contradiction Hstatus. reflexivity. }
  destruct (Hlogged result) as [Hlength Hlast].
  exists (Logger.logInteraction logger result).
  destruct (Api.logThrows dayFile logger).
  - split; [reflexivity|]. split; [exact Hlength|].
    simpl. intros Hstatus. contradiction Hstatus. reflexivity.
  - split; [reflexivity|]. split; [exact Hlength | exact Hlast].
Qed.

End HandlerFacts.

Lemma handler_accepted_status_witness :
  Api.statusOf
    (fst (Api.handler Fixture.parseYellow (Some Sample.engine)
                      (Some (Logger.create false None)) (Api.Entries None)
                      "2024-01-01T00:00:00.000Z" Fixture.yellowRequest)) = 200%Z /\
  Api.statusOf
    (fst (Api.handler Fixture.parseYellow (Some Sample.bareEngine)
                      (Some (Logger.create false None)) (Api.Entries None)
                      "2024-01-01T00:00:00.000Z" Fixture.yellowRequest)) = 500%Z /\
  Api.handler Fixture.parseYellow (Some Sample.bareEngine)
              (Some (Logger.create false None)) (Api.Entries None)
              "2024-01-01T00:00:00.000Z" Fixture.blankRequest
  = (Api.ResultReply (emptyInputResult "2024-01-01T00:00:00.000Z"),
     Some (Logger.logInteraction (Logger.create false None)
                                 (emptyInputResult "2024-01-01T00:00:00.000Z"))).
Proof.
  assert (Api.payloadOf Fixture.parseYellow (Api.body Fixture.yellowRequest)
          = Some (Api.VObject [("text", Api.VString "yellow and dry soil")])) as Hparsed
    by (vm_compute; reflexivity).
  split; [|split].
  - apply (proj1 (proj2 (handler_accepted_status
                           Fixture.parseYellow (Some Sample.engine)
                           (Some (Logger.create false None)) (Api.Entries None)
                           "2024-01-01T00:00:00.000Z" Fixture.yellowRequest
                           (Api.VObject [("text", Api.VString "yellow and dry soil")])
                           "yellow and dry soil" eq_refl Hparsed eq_refl
                           ltac:(discriminate)))).
    exists Sample.engine, (Logger.create false None).
    split; [reflexivity|]. split; [reflexivity|]. split; [right|]; vm_compute; reflexivity.
  - destruct (handler_accepted_status
                Fixture.parseYellow (Some Sample.bareEngine)
                (Some (Logger.create false None)) (Api.Entries None)
                "2024-01-01T00:00:00.000Z" Fixture.yellowRequest
                (Api.VObject [("text", Api.VString "yellow and dry soil")])
                "yellow and dry soil" eq_refl Hparsed eq_refl ltac:(discriminate))
      as ([Hok|Hfailed] & Hiff & _); [|exact Hfailed].
    apply Hiff in Hok. destruct Hok as (engine & logger & Hengine & _ & Hanswer & _).
    injection Hengine as <-. destruct Hanswer as [Hblank|Hready].
    + vm_compute in Hblank. discriminate Hblank.
    + vm_compute in Hready. discriminate Hready.
  - apply (proj2 (proj2 (handler_accepted_status
                           Fixture.parseYellow (Some Sample.bareEngine)
                           (Some (Logger.create false None)) (Api.Entries None)
                           "2024-01-01T00:00:00.000Z" Fixture.blankRequest
                           (Api.VObject [("text", Api.VString "   ")])
                           "   " eq_refl eq_refl eq_refl ltac:(discriminate)))
             Sample.bareEngine (Logger.create false None)); reflexivity.
Defined.

Lemma handler_logger_witness :
  exists after,
    snd (Api.handler Fixture.parseYellow (Some Sample.engine)
                     (Some (Logger.create false None)) (Api.Entries None)
                     "2024-01-01T00:00:00.000Z" Fixture.yellowRequest) = Some after /\
    (length (Logger.memoryLogs after) <= Logger.maxMemoryLogs)%nat /\
    match fst (Api.handler Fixture.parseYellow (Some Sample.engine)
                           (Some (Logger.create false None)) (Api.Entries None)
                           "2024-01-01T00:00:00.000Z" Fixture.yellowRequest) with
    | Api.ResultReply result =>
        last (Logger.memoryLogs after) = Some (Logger.entryOf result)
    | Api.ErrorReply status _ _ => status <> 500%Z -> after = Logger.create false None
    end.
Proof.
  apply (handler_logger Fixture.parseYellow (Some Sample.engine)
                        (Some (Logger.create false None)) (Api.Entries None)
                        "2024-01-01T00:00:00.000Z" Fixture.yellowRequest
                        (Logger.create false None) eq_refl).
  unfold Logger.maxMemoryLogs. simpl. lia.
Defined.
